(** * WWDM-Import: the table store, the pivot engine, the sample
      consolidator and the signal classifier

    A shallow embedding of [src/wbe_odm/odm.py] (class [Odm]) and of the
    classifier functions of [src/notebooks/geo_test.py], with the properties
    the specification states about them.

    Modelling conventions.
    - A pandas cell is a [value]; a missing cell (NaN, None, NaT) is the
      absence of the column's key in the row, so a row is a finite map from
      column names to values and two rows are equal exactly when they agree
      on every column (pandas' [drop_duplicates] also identifies missing
      cells).
    - A [DataFrame] is its list of column labels and its list of rows, in
      index order.  Cells are dynamically typed and a table stores no dtype;
      where the code depends on one, a column has the dtype pandas infers
      from its cells ([column_dtype]).  Row labels are the default positions
      0..n-1.
    - Python exceptions are values of [exn]; a function that can raise
      returns a [result].
    - Numbers are integers; a timestamp is a count of nanoseconds since the
      epoch.  Strings are byte strings.
    - The module sets [mode.chained_assignment] to ['raise'].  The two
      places where pandas then raises are modelled: the assignment through
      a column of a table of mixed type in [_parse_sample], and the
      assignment of a column on a selection of rows in [get_cm_to_plot]. *)

From Stdlib Require Import Ascii QArith Qabs Lqa.
From stdpp Require Import base numbers strings pretty list gmap.

Local Open Scope string_scope.
Local Open Scope Z_scope.

(** ** Cells, rows and tables *)

Inductive value : Type :=
  | VStr (s : string)
  | VNum (z : Z)
  | VBool (b : bool)
  | VTime (t : Z).

#[global] Instance value_eq_dec : EqDecision value.
Proof. solve_decision. Defined.

Abbreviation row := (gmap string value).

Record DataFrame : Type := mkDataFrame {
  columns : list string;
  rows : list row
}.

#[global] Instance DataFrame_eq_dec : EqDecision DataFrame.
Proof. solve_decision. Defined.

(** [df.empty]: true when either axis has length zero. *)
Definition empty (df : DataFrame) : bool :=
  match columns df, rows df with
  | [], _ => true
  | _, [] => true
  | _, _ => false
  end.

(** [len(df)] *)
Definition len (df : DataFrame) : nat := length (rows df).

(** ** Exceptions *)

Inductive exn : Type :=
  | KeyError (key : string)
  | TypeError
  | AttributeError
  | ValueError (msg : string)
  | PandasError
  | SettingWithCopyError.

Inductive result (A : Type) : Type :=
  | Ok (a : A)
  | Raise (e : exn).
Arguments Ok {A} a.
Arguments Raise {A} e.

#[global] Instance exn_eq_dec : EqDecision exn.
Proof. solve_decision. Defined.

#[global] Instance result_eq_dec `{EqDecision A} : EqDecision (result A).
Proof. solve_decision. Defined.

#[global] Instance result_ret : MRet result := λ A a, Ok a.
#[global] Instance result_bind : MBind result := λ A B f m,
  match m with
  | Ok a => f a
  | Raise e => Raise e
  end.

(** ** Python string operations *)

(** [pat in s] *)
Fixpoint str_contains (pat s : string) : bool :=
  String.prefix pat s ||
  match s with
  | EmptyString => false
  | String _ s' => str_contains pat s'
  end.

(** [s.split(sep)] for a one-character separator: never the empty list. *)
Fixpoint str_split (sep : ascii) (s : string) : list string :=
  match s with
  | EmptyString => [EmptyString]
  | String a s' =>
      if decide (a = sep) then EmptyString :: str_split sep s'
      else match str_split sep s' with
           | h :: t => String a h :: t
           | [] => [String a EmptyString]
           end
  end.

(** Python's whitespace among the byte characters. *)
Definition is_whitespace (a : ascii) : bool :=
  let n := nat_of_ascii a in
  ((9 <=? n) && (n <=? 13) || (28 <=? n) && (n <=? 32))%nat.

Fixpoint lstrip (s : string) : string :=
  match s with
  | EmptyString => EmptyString
  | String a s' => if is_whitespace a then lstrip s' else s
  end.

(** [s.strip()] *)
Definition strip (s : string) : string :=
  String.rev (lstrip (String.rev (lstrip s))).

(** [s.replace(pat, rep)] for a non-empty pattern: occurrences are replaced
    from the left and do not overlap.  [skip] counts the characters of a
    matched occurrence still to be dropped. *)
Fixpoint replace_go (pat rep : string) (skip : nat) (s : string) : string :=
  match s with
  | EmptyString => EmptyString
  | String a s' =>
      match skip with
      | S k => replace_go pat rep k s'
      | O =>
          if String.prefix pat s
          then rep +:+ replace_go pat rep (String.length pat - 1) s'
          else String a (replace_go pat rep O s')
      end
  end.

Definition str_replace (pat rep s : string) : string :=
  replace_go pat rep O s.

(** [sep.join(l)] *)
Fixpoint str_join (sep : string) (l : list string) : string :=
  match l with
  | [] => EmptyString
  | [x] => x
  | x :: l' => x +:+ sep +:+ str_join sep l'
  end.

(** ** Table primitives *)

(** Rows in order of first occurrence: [Series.unique()] and
    [drop_duplicates(keep="first")]. *)
Fixpoint unique `{EqDecision A} (l : list A) : list A :=
  match l with
  | [] => []
  | x :: l' => x :: filter (λ y, y ≠ x) (unique l')
  end.

(** [df[c] = ...] with the new cell computed from each row: an existing
    column is overwritten in place, a new one is added last. *)
Definition assign (df : DataFrame) (c : string) (f : row → option value)
    : DataFrame :=
  {| columns := if decide (c ∈ columns df) then columns df
                else columns df ++ [c];
     rows := (λ r, partial_alter (λ _, f r) c r) <$> rows df |}.

(** [df.drop(columns=cs)]: every label must exist. *)
Definition drop (df : DataFrame) (cs : list string) : result DataFrame :=
  match list_find (λ c, c ∉ columns df) cs with
  | Some (_, c) => Raise (KeyError c)
  | None =>
      Ok {| columns := filter (λ c, c ∉ cs) (columns df);
            rows := (λ r, foldr delete r cs) <$> rows df |}
  end.

(** [df.add_prefix(p)] *)
Definition add_prefix (p : string) (df : DataFrame) : DataFrame :=
  mkDataFrame (String.app p <$> columns df)
              ((λ r : row, kmap (M2 := gmap string) (String.app p) r)
                 <$> rows df).

(** [df.append(other)]: the columns of [other] that are new come last and
    the rows of [other] follow those of [df]; cells of columns a row does not
    have are missing. *)
Definition append (df other : DataFrame) : DataFrame :=
  {| columns := columns df ++ filter (λ c, c ∉ columns df) (columns other);
     rows := rows df ++ rows other |}.

(** [df.drop_duplicates(keep="first", ignore_index=True)] *)
Definition drop_duplicates (df : DataFrame) : DataFrame :=
  {| columns := columns df; rows := unique (rows df) |}.

(** ** Pivot engine ([Odm.clean_qualifier_columns], [Odm.widen]) *)

(** [Series.str.replace(pat, rep)] on one cell of an object column: a cell
    that is not a string becomes missing. *)
Definition cell_str_replace (pat rep : string) (c : option value)
    : option value :=
  match c with
  | Some (VStr s) => Some (VStr (str_replace pat rep s))
  | _ => None
  end.

(** [Series.replace(a, b)] on one cell: the whole cell is compared. *)
Definition cell_replace (a b : string) (c : option value) : option value :=
  if decide (c = Some (VStr a)) then Some (VStr b) else c.

(** What the body of the loop of [clean_qualifier_columns] does to one cell
    of the column [qualifier]. *)
Definition clean_cell (qualifier : string) (c : option value)
    : option value :=
  let filled :=
    match c with
    | None => Some (VStr ("unknown-" +:+ qualifier))
    | Some (VStr EmptyString) => Some (VStr ("unknown-" +:+ qualifier))
    | Some v => Some v
    end in
  let replaced := cell_str_replace "/" "-" filled in
  if decide (qualifier = "qualityFlag")
  then cell_replace "False" "no-quality-issue"
         (cell_str_replace "True" "quality-issue" replaced)
  else replaced.

Fixpoint clean_loop (df : DataFrame) (qualifiers : list string)
    : result DataFrame :=
  match qualifiers with
  | [] => Ok df
  | qualifier :: rest =>
      if decide (qualifier ∈ columns df)
      then clean_loop (assign df qualifier
                         (λ r, clean_cell qualifier (r !! qualifier))) rest
      else Raise (KeyError qualifier)
  end.

Definition clean_qualifier_columns (df : DataFrame) (qualifiers : list string)
    : result DataFrame :=
  if empty df then Ok df else clean_loop df qualifiers.

(** [astype(str)] on a cell of a cleaned qualifier column.  Such a cell is a
    string or is missing ([clean_cell_shape] below); [str] of a missing cell
    is the text nan. *)
Definition astype_str (c : option value) : string :=
  match c with
  | Some (VStr s) => s
  | _ => "nan"
  end.

(** The name of a derived column: ["_".join([col_qualifier, feature])]. *)
Definition col_name (col_qualifier feature : string) : string :=
  str_join "_" [col_qualifier; feature].

(** The body of the inner loop of [widen], for one combination key and one
    feature. *)
Definition widen_feature (col_qualifier : string) (df : DataFrame)
    (feature : string) : result DataFrame :=
  let c := col_name col_qualifier feature in
  let df := assign df c (λ _, None) in
  if decide (feature ∈ columns df)
  then Ok (assign df c
             (λ r, if decide (r !! "col_qualifiers" = Some (VStr col_qualifier))
                   then r !! feature else r !! c))
  else Raise (KeyError feature).

Fixpoint widen_features (col_qualifier : string) (df : DataFrame)
    (features : list string) : result DataFrame :=
  match features with
  | [] => Ok df
  | feature :: rest =>
      df ← widen_feature col_qualifier df feature;
      widen_features col_qualifier df rest
  end.

Fixpoint widen_loop (df : DataFrame) (unique_col_qualifiers : list string)
    (features : list string) : result DataFrame :=
  match unique_col_qualifiers with
  | [] => Ok df
  | col_qualifier :: rest =>
      df ← widen_features col_qualifier df features;
      widen_loop df rest features
  end.

(** The combination key of a row once its qualifier cells are strings. *)
Definition joined_qualifiers (qualifiers : list string) (r : row) : string :=
  str_join "_" ((λ q, astype_str (r !! q)) <$> qualifiers).

Definition widen (df : DataFrame) (features qualifiers : list string)
    : result DataFrame :=
  if empty df then Ok df
  else
    df ← clean_qualifier_columns df qualifiers;
    let df := foldl (λ d q, assign d q (λ r, Some (VStr (astype_str (r !! q)))))
                    df qualifiers in
    let unique_col_qualifiers :=
      unique (joined_qualifiers qualifiers <$> rows df) in
    let df := assign df "col_qualifiers"
                (λ r, Some (VStr (joined_qualifiers qualifiers r))) in
    df ← widen_loop df unique_col_qualifiers features;
    df ← drop df (features ++ qualifiers);
    drop df ["col_qualifiers"].




(** ** Table store ([Odm], [Odm.append_from]) *)

(** The ten attributes of [Odm.__init__], in the order of [self.__dict__].
    An attribute holds a table or [None]: [append_from] and [to_csv] both
    test [is None]. *)
Record Odm : Type := mkOdm {
  sample : option DataFrame;
  ww_measure : option DataFrame;
  site : option DataFrame;
  site_measure : option DataFrame;
  reporter : option DataFrame;
  lab : option DataFrame;
  assay_method : option DataFrame;
  instrument : option DataFrame;
  polygon : option DataFrame;
  cphd : option DataFrame
}.

#[global] Instance Odm_eq_dec : EqDecision Odm.
Proof. solve_decision. Defined.

Variant attr : Type :=
  | a_sample | a_ww_measure | a_site | a_site_measure | a_reporter
  | a_lab | a_assay_method | a_instrument | a_polygon | a_cphd.

#[global] Instance attr_eq_dec : EqDecision attr.
Proof. solve_decision. Defined.

(** The keys of [self.__dict__], in insertion order. *)
Definition self_attrs : list attr :=
  [a_sample; a_ww_measure; a_site; a_site_measure; a_reporter;
   a_lab; a_assay_method; a_instrument; a_polygon; a_cphd].

Definition getattr (o : Odm) (a : attr) : option DataFrame :=
  match a with
  | a_sample => sample o
  | a_ww_measure => ww_measure o
  | a_site => site o
  | a_site_measure => site_measure o
  | a_reporter => reporter o
  | a_lab => lab o
  | a_assay_method => assay_method o
  | a_instrument => instrument o
  | a_polygon => polygon o
  | a_cphd => cphd o
  end.

Definition setattr (o : Odm) (a : attr) (t : option DataFrame) : Odm :=
  match a with
  | a_sample =>
      mkOdm t (ww_measure o) (site o) (site_measure o) (reporter o) (lab o)
            (assay_method o) (instrument o) (polygon o) (cphd o)
  | a_ww_measure =>
      mkOdm (sample o) t (site o) (site_measure o) (reporter o) (lab o)
            (assay_method o) (instrument o) (polygon o) (cphd o)
  | a_site =>
      mkOdm (sample o) (ww_measure o) t (site_measure o) (reporter o) (lab o)
            (assay_method o) (instrument o) (polygon o) (cphd o)
  | a_site_measure =>
      mkOdm (sample o) (ww_measure o) (site o) t (reporter o) (lab o)
            (assay_method o) (instrument o) (polygon o) (cphd o)
  | a_reporter =>
      mkOdm (sample o) (ww_measure o) (site o) (site_measure o) t (lab o)
            (assay_method o) (instrument o) (polygon o) (cphd o)
  | a_lab =>
      mkOdm (sample o) (ww_measure o) (site o) (site_measure o) (reporter o) t
            (assay_method o) (instrument o) (polygon o) (cphd o)
  | a_assay_method =>
      mkOdm (sample o) (ww_measure o) (site o) (site_measure o) (reporter o)
            (lab o) t (instrument o) (polygon o) (cphd o)
  | a_instrument =>
      mkOdm (sample o) (ww_measure o) (site o) (site_measure o) (reporter o)
            (lab o) (assay_method o) t (polygon o) (cphd o)
  | a_polygon =>
      mkOdm (sample o) (ww_measure o) (site o) (site_measure o) (reporter o)
            (lab o) (assay_method o) (instrument o) t (cphd o)
  | a_cphd =>
      mkOdm (sample o) (ww_measure o) (site o) (site_measure o) (reporter o)
            (lab o) (assay_method o) (instrument o) (polygon o) t
  end.

(** An external mapper: its [validates()] answer and its ten tables. *)
Record Mapper : Type := mkMapper {
  validates : bool;
  mapper_tables : Odm
}.

(** What [append_from] can be given: a mapper, another [Odm], or the store
    itself ([store.append_from(store)]), whose attributes are read while the
    loop rebinds them. *)
Inductive source : Type :=
  | FromMapper (m : Mapper)
  | FromOdm (o : Odm)
  | FromSelf.

(** [isinstance(mapper, Odm)] *)
Definition isinstance_Odm (mapper : source) : bool :=
  match mapper with
  | FromMapper _ => false
  | FromOdm _ | FromSelf => true
  end.

(** [True if isinstance(mapper, Odm) else mapper.validates()] *)
Definition source_validates (mapper : source) : bool :=
  match mapper with
  | FromMapper m => validates m
  | FromOdm _ | FromSelf => true
  end.

(** [getattr(mapper, attr)], read when the loop reaches [attr]. *)
Definition source_attr (self : Odm) (mapper : source) (a : attr)
    : option DataFrame :=
  match mapper with
  | FromMapper m => getattr (mapper_tables m) a
  | FromOdm o => getattr o a
  | FromSelf => getattr self a
  end.

(** The body of the loop of [append_from]: the value the attribute holds
    afterwards.  [current_df.empty] on [None] raises [AttributeError].  The
    handler of the [try] restores the attribute it was about to set and
    raises again; [append] and [drop_duplicates] are total on the cells of
    the model, so the handler has nothing to do here. *)
Definition append_table (current_df new_df : option DataFrame)
    : result (option DataFrame) :=
  match current_df with
  | None => Raise AttributeError
  | Some current =>
      if empty current then Ok new_df
      else match new_df with
           | None => Ok current_df
           | Some new =>
               if empty new then Ok current_df
               else Ok (Some (drop_duplicates (append current new)))
           end
  end.

Fixpoint append_loop (attrs : list attr) (self : Odm) (mapper : source)
    : Odm * result () :=
  match attrs with
  | [] => (self, Ok ())
  | a :: rest =>
      match append_table (getattr self a) (source_attr self mapper a) with
      | Ok t => append_loop rest (setattr self a t) mapper
      | Raise e => (self, Raise e)
      end
  end.

Definition invalid_data : exn :=
  ValueError "mapper object contains invalid data".

(** [Odm.append_from]: the store afterwards and how the call ended. *)
Definition append_from (self : Odm) (mapper : source) : Odm * result () :=
  if negb (source_validates mapper) then (self, Raise invalid_data)
  else append_loop self_attrs self mapper.

(** ** Sample consolidator ([Odm._parse_*], [Odm.combine_per_sample]) *)

Definition lower_char (a : ascii) : ascii :=
  let n := nat_of_ascii a in
  if ((65 <=? n) && (n <=? 90))%nat then ascii_of_nat (n + 32) else a.

(** [s.lower()] on byte characters *)
Fixpoint lower (s : string) : string :=
  match s with
  | EmptyString => EmptyString
  | String a s' => String (lower_char a) (lower s')
  end.

(** [Odm.__remove_access] *)
Definition __remove_access (df : DataFrame) : result DataFrame :=
  if empty df then Ok df
  else
    let to_remove :=
      filter (λ col, str_contains "access" (lower col) = true) (columns df) in
    drop df to_remove.

(** The iteration order of a Python set is not specified.  The set built
    from the elements [l] is iterated in the order [set_iter pick l]: the
    oracle [pick] says which of the elements still to come is next. *)
Fixpoint set_iter_go (pick : list string → nat) (fuel : nat) (l : list string)
    : list string :=
  match fuel with
  | O => []
  | S fuel =>
      let k := (pick l `mod` length l)%nat in
      match l !! k with
      | Some x => x :: set_iter_go pick fuel (delete k l)
      | None => []
      end
  end.

Definition set_iter (pick : list string → nat) (l : list string)
    : list string :=
  set_iter_go pick (length (unique l)) (unique l).

(** ** Column types and the check of chained assignments

    The module sets [pd.options.mode.chained_assignment = 'raise'].  A table
    of the model holds cells and no dtypes: a column has the dtype pandas
    infers from its cells, text making a column of objects.  [numeric]
    stands for int64 and float64, which the cells do not tell apart. *)
Inductive dtype : Type := object_ | numeric | bool_ | datetime64.

#[global] Instance dtype_eq_dec : EqDecision dtype.
Proof. solve_decision. Defined.

(** The dtype a cell asks for; a missing cell asks for none. *)
Definition cell_kind (c : option value) : option dtype :=
  match c with
  | None => None
  | Some (VStr _) => Some object_
  | Some (VNum _) => Some numeric
  | Some (VBool _) => Some bool_
  | Some (VTime _) => Some datetime64
  end.

Definition cell_kinds (df : DataFrame) (c : string) : list (option dtype) :=
  (λ r : row, cell_kind (r !! c)) <$> rows df.

(** [df[c].dtype]: numbers alone (NaN for the missing ones) and timestamps
    alone (NaT) keep their dtype, booleans do when none is missing, a column
    of missing cells only holds NaN, and any other column holds objects. *)
Definition column_dtype (df : DataFrame) (c : string) : dtype :=
  let has k := bool_decide (k ∈ cell_kinds df c) in
  if has (Some object_) then object_
  else
    match has (Some numeric), has (Some bool_), has (Some datetime64) with
    | true, false, false => numeric
    | false, true, false => if has None then object_ else bool_
    | false, false, true => datetime64
    | false, false, false => if has None then numeric else object_
    | _, _, _ => object_
    end.

(** [df._is_mixed_type]: the columns are not all of one dtype. *)
Definition _is_mixed_type (df : DataFrame) : bool :=
  bool_decide (1 < length (unique (column_dtype df <$> columns df)))%nat.

(** The local name [df] of [_parse_sample] is first the very object held in
    [self.sample]; [df = df.append(...)] rebinds it to a new table.  A write
    through [df] reaches [self.sample] as long as [df] is that object. *)
Record parse_state : Type := mkParseState {
  stored : DataFrame;          (* the object held in [self.sample] *)
  rebound : option DataFrame   (* [Some d]: [df] names the new table [d] *)
}.

Definition current (st : parse_state) : DataFrame :=
  match rebound st with
  | Some d => d
  | None => stored st
  end.

(** In-place update of the table [df] names. *)
Definition write (st : parse_state) (d : DataFrame) : parse_state :=
  match rebound st with
  | Some _ => mkParseState (stored st) (Some d)
  | None => mkParseState d None
  end.

(** [df = ...] *)
Definition rebind (st : parse_state) (d : DataFrame) : parse_state :=
  mkParseState (stored st) (Some d).

(** [df[c].iloc[i] = v] *)
Definition set_cell (df : DataFrame) (i : nat) (c : string) (v : value)
    : DataFrame :=
  mkDataFrame (columns df) (alter (λ r : row, <[c:=v]> r) i (rows df)).

(** [df.append(new_row, ignore_index=True)] for a row with the labels of
    [df] *)
Definition append_row (df : DataFrame) (new_row : row) : DataFrame :=
  mkDataFrame (columns df) (rows df ++ [new_row]).

(** The inner loop of [_parse_sample]: one new row per remaining site. *)
Fixpoint add_site_rows (st : parse_state) (i : nat) (site_ids : list string)
    : result parse_state :=
  match site_ids with
  | [] => Ok st
  | site_id :: rest =>
      match rows (current st) !! i with
      | Some new_row =>
          add_site_rows
            (rebind st (append_row (current st)
                          (<["siteID" := VStr site_id]> new_row)))
            i rest
      | None => Raise PandasError
      end
  end.

Section ParseSample.

(** The order in which the sets of site identifiers are iterated. *)
Variable pick : list string → nat.

(** The body of the outer loop, for the row [r] of [df_copy] at position
    [i].  [df["siteID"].iloc[i] = ...] is a chained assignment: the column
    is a cached view of [df], and before it writes, pandas asks whether [df]
    is of mixed type and raises when it is. *)
Definition spread_sites (st : parse_state) (i : nat) (r : row)
    : result parse_state :=
  match r !! "siteID" with
  | Some (VStr sites) =>
      if str_contains ";" sites then
        match set_iter pick (strip <$> str_split ";" sites) with
        | first :: site_ids =>
            if _is_mixed_type (current st) then Raise SettingWithCopyError
            else
              add_site_rows
                (write st (set_cell (current st) i "siteID" (VStr first)))
                i site_ids
        | [] => Raise (KeyError "pop from an empty set")
        end
      else Ok st
  | _ => Raise TypeError
  end.

Fixpoint spread_loop (st : parse_state) (i : nat) (df_copy : list row)
    : parse_state * result () :=
  match df_copy with
  | [] => (st, Ok ())
  | r :: rest =>
      match spread_sites st i r with
      | Ok st' => spread_loop st' (S i) rest
      | Raise e => (st, Raise e)
      end
  end.

(** [Odm._parse_sample]: the table left in [self.sample] and the table
    returned. *)
Definition _parse_sample (self : Odm) : Odm * result DataFrame :=
  match sample self with
  | None => (self, Raise AttributeError)
  | Some df =>
      if empty df then (self, Ok df)
      else if decide ("siteID" ∈ columns df) then
        let '(st, r) := spread_loop (mkParseState df None) 0 (rows df) in
        (setattr self a_sample (Some (stored st)),
         _ ← r; Ok (add_prefix "Sample." (current st)))
      else (self, Raise (KeyError "siteID"))
  end.

End ParseSample.

(** [pd.merge(left, right, how="left", left_on=..., right_on=...)]: the rows
    of [left] in order, each with every row of [right] that has the same
    key (missing keys match each other), or alone.  The two tables of a
    call carry different prefixes, so no label is on both sides. *)
Definition merge_left (left right : DataFrame) (left_on right_on : string)
    : result DataFrame :=
  if decide (left_on ∈ columns left) then
    if decide (right_on ∈ columns right) then
      Ok (mkDataFrame (columns left ++ columns right)
            (l ← rows left;
             match filter (λ r : row, r !! right_on = l !! left_on)
                          (rows right) with
             | [] => [l]
             | matches => (λ r : row, l ∪ r) <$> matches
             end))
    else Raise (KeyError right_on)
  else Raise (KeyError left_on).

(** The microsecond of an instant.  [to_sql] writes a timestamp as the text
    of its date and time to the microsecond; what is below is dropped. *)
Definition microsecond (t : Z) : Z := t `div` 1000.

(** SQLite's [<=] on two stored values, neither of them NULL: numbers sort
    before text, numbers by value, text by bytes.  The texts of two
    timestamps are ordered as their microseconds are; a timestamp against
    free text is not modelled and does not compare. *)
Definition sql_le (a b : value) : bool :=
  let number v :=
    match v with
    | VNum z => Some z
    | VBool b => Some (if b then 1 else 0)
    | _ => None
    end in
  match number a, number b with
  | Some x, Some y => bool_decide (x ≤ y)
  | Some _, None => true
  | None, Some _ => false
  | None, None =>
      match a, b with
      | VTime x, VTime y => bool_decide (microsecond x ≤ microsecond y)
      | VStr x, VStr y => String.leb x y
      | _, _ => false
      end
  end.

(** [x between lo and hi]: with a NULL operand the condition is not true. *)
Definition sql_between (x lo hi : option value) : bool :=
  match x, lo, hi with
  | Some x, Some lo, Some hi => sql_le lo x && sql_le x hi
  | _, _, _ => false
  end.

(** The [on] condition of the query of [combine_sample_site_measure]. *)
Definition on_condition (sample_row site_measure_row : row) : bool :=
  sql_between (site_measure_row !! "SiteMeasure.dateTime")
              (sample_row !! "Sample.dateTimeStart")
              (sample_row !! "Sample.dateTimeEnd").

(** [select * from sample left join site_measure on ...], as pairs: every
    row of [sample] with each row of [site_measure] that satisfies the
    condition, or with none. *)
Definition left_join (sample site_measure : list row)
    : list (row * option row) :=
  s ← sample;
  match filter (λ m, on_condition s m = true) site_measure with
  | [] => [(s, None)]
  | matches => (λ m, (s, Some m)) <$> matches
  end.

Definition joined_row (p : row * option row) : row :=
  match p.2 with
  | Some m => p.1 ∪ m
  | None => p.1
  end.

(** A cell as [read_sql_query] gives it back: a boolean was stored as the
    integer 0 or 1, and a timestamp as the text of its microsecond, which
    the model keeps as the instant that text names. *)
Definition read_sql_cell (v : value) : value :=
  match v with
  | VBool b => VNum (if b then 1 else 0)
  | VTime t => VTime (microsecond t * 1000)
  | _ => v
  end.

(** [combine_sample_site_measure]; a column the query names and a table
    lacks makes SQLite fail. *)
Definition combine_sample_site_measure (sample site_measure : DataFrame)
    : result DataFrame :=
  if empty sample && empty site_measure then Ok sample
  else if empty sample then Ok site_measure
  else if empty site_measure then Ok sample
  else if decide ("SiteMeasure.dateTime" ∈ columns site_measure
                  ∧ "Sample.dateTimeStart" ∈ columns sample
                  ∧ "Sample.dateTimeEnd" ∈ columns sample)
  then Ok (mkDataFrame (columns sample ++ columns site_measure)
             ((λ p, read_sql_cell <$> joined_row p)
                <$> left_join (rows sample) (rows site_measure)))
  else Raise PandasError.

(** [combine_ww_measure_and_sample] *)
Definition combine_ww_measure_and_sample (ww sample : DataFrame)
    : result DataFrame :=
  if empty ww && empty sample then Ok (mkDataFrame [] [])
  else if empty sample then Ok ww
  else if empty ww then Ok sample
  else merge_left sample ww "Sample.sampleID" "WWMeasure.sampleID".

(** [combine_site_sample] *)
Definition combine_site_sample (sample site : DataFrame) : result DataFrame :=
  if empty sample && empty site then Ok sample
  else if empty sample then Ok site
  else if empty site then Ok sample
  else merge_left sample site "Sample.siteID" "Site.siteID".

(** The table [combine_per_sample] returns: [set_index] moves one column
    to the index, and [drop_duplicates] compares the remaining columns
    only. *)
Record IndexedFrame : Type := mkIndexedFrame {
  index_name : string;
  index : list (option value);
  frame : DataFrame
}.

(** [merged.set_index(key, inplace=True)] *)
Definition set_index (df : DataFrame) (key : string) : result IndexedFrame :=
  if decide (key ∈ columns df) then
    Ok (mkIndexedFrame key ((λ r : row, r !! key) <$> rows df)
          (mkDataFrame (filter (λ c, c ≠ key) (columns df))
                       ((λ r : row, delete key r) <$> rows df)))
  else Raise (KeyError key).

Fixpoint first_rows (seen : list row) (l : list (option value * row))
    : list (option value * row) :=
  match l with
  | [] => []
  | (i, r) :: l' =>
      if decide (r ∈ seen) then first_rows seen l'
      else (i, r) :: first_rows (r :: seen) l'
  end.

(** [merged.drop_duplicates(keep="first", inplace=True)] *)
Definition drop_duplicates_indexed (m : IndexedFrame) : IndexedFrame :=
  let kept := first_rows [] (zip (index m) (rows (frame m))) in
  mkIndexedFrame (index_name m) (kept.*1)
                 (mkDataFrame (columns (frame m)) (kept.*2)).

(** A call that reads or rebinds the attributes of the store. *)
Definition store_op (A : Type) : Type := Odm → Odm * result A.

Definition pure_op {A : Type} (r : result A) : store_op A := λ self, (self, r).

Definition bind_op {A B : Type} (m : store_op A) (f : A → store_op B)
    : store_op B :=
  λ self,
    match m self with
    | (self', Ok a) => f a self'
    | (self', Raise e) => (self', Raise e)
    end.

Section Consolidator.

(** [df.groupby(key).agg(utilities.reduce_by_type)], with the group key as
    the first column of the result.  [utilities.reduce_by_type] is not part
    of the sources read here. *)
Variable groupby_agg : string → DataFrame → result DataFrame.

(** shapely: the geometries, [wkt.loads] ([None] where it raises) and
    [shape.contains(Point(x, y))]. *)
Variable shape : Type.
Variable wkt_loads : string → option shape.
Variable shape_contains : shape → option Z * option Z → bool.

(** The order in which the sets of [_parse_sample] are iterated. *)
Variable pick : list string → nat.

(** [Odm._parse_ww_measure] *)
Definition _parse_ww_measure (self : Odm) : result DataFrame :=
  match ww_measure self with
  | None => Raise AttributeError
  | Some df =>
      if empty df then Ok df
      else
        df ← __remove_access df;
        df ← widen df ["value"]
                   ["fractionAnalyzed"; "type"; "unit"; "aggregation"];
        df ← drop df ["index"];
        Ok (add_prefix "WWMeasure." df)
  end.

(** [agg_ww_measure_per_sample] *)
Definition agg_ww_measure_per_sample (ww : DataFrame) : result DataFrame :=
  if empty ww then Ok ww else groupby_agg "WWMeasure.sampleID" ww.

(** [Odm._parse_site_measure] *)
Definition _parse_site_measure (self : Odm) : result DataFrame :=
  match site_measure self with
  | None => Raise AttributeError
  | Some df =>
      if empty df then Ok df
      else
        df ← __remove_access df;
        df ← widen df ["value"] ["type"; "unit"; "aggregation"];
        df ← groupby_agg "dateTime" df;
        Ok (add_prefix "SiteMeasure." df)
  end.

(** [Odm._parse_site] *)
Definition _parse_site (self : Odm) : result DataFrame :=
  match site self with
  | None => Raise AttributeError
  | Some df => if empty df then Ok df else Ok (add_prefix "Site." df)
  end.

(** [Odm._parse_polygon]: the table, and whether it is the very object held
    in [self.polygon] (an empty table is returned as it is). *)
Definition _parse_polygon (self : Odm) : result (DataFrame * bool) :=
  match polygon self with
  | None => Raise AttributeError
  | Some df =>
      if empty df then Ok (df, true)
      else Ok (add_prefix "Polygon." df, false)
  end.

(** [Point(row["Site.geoLat"], row["Site.geoLong"])]: a coordinate is a
    number or is missing. *)
Definition coordinate (c : option value) : result (option Z) :=
  match c with
  | None => Ok None
  | Some (VNum z) => Ok (Some z)
  | Some (VBool b) => Ok (Some (if b then 1 else 0))
  | Some _ => Raise TypeError
  end.

Definition Point (r : row) : result (option Z * option Z) :=
  x ← coordinate (r !! "Site.geoLat");
  y ← coordinate (r !! "Site.geoLong");
  Ok (x, y).

(** [convert_wkt] on a cell of [Polygon.wkt] *)
Definition convert_wkt (c : option value) : option shape :=
  match c with
  | Some (VStr x) => wkt_loads x
  | _ => None
  end.

(** [get_encompassing_polygons] for the point of one row *)
Definition get_encompassing_polygons (temp_point : option Z * option Z)
    (poly : DataFrame) : result string :=
  if decide ("Polygon.polygonID" ∈ columns poly) then
    let contains (p : row) : bool :=
      match convert_wkt (p !! "Polygon.wkt") with
      | Some x => shape_contains x temp_point
      | None => false
      end in
    poly_ids ← mapM (λ p : row,
                       match p !! "Polygon.polygonID" with
                       | Some (VStr id) => Ok id
                       | _ => Raise TypeError
                       end)
                    (filter (λ p, contains p = true) (rows poly));
    Ok (str_join ";" poly_ids)
  else Raise (KeyError "Polygon.polygonID").

Fixpoint encompassing (points : list (option Z * option Z)) (poly : DataFrame)
    : result (list string) :=
  match points with
  | [] => Ok []
  | pt :: rest =>
      ids ← get_encompassing_polygons pt poly;
      l ← encompassing rest poly;
      Ok (ids :: l)
  end.

(** [df[c] = values], one value per row *)
Definition assign_values (df : DataFrame) (c : string) (vs : list value)
    : DataFrame :=
  mkDataFrame (if decide (c ∈ columns df) then columns df
               else columns df ++ [c])
              (zip_with (λ (r : row) v, <[c:=v]> r) (rows df) vs).

(** A new column whose cells are Python objects that are no cells of the
    model (geometries, flags): only its label is recorded. *)
Definition add_label (df : DataFrame) (c : string) : DataFrame :=
  assign df c (λ _, None).

(** [combine_polygons_per_sample]: the table [polygons] as the call leaves
    it (it gains the columns [shape] and [contains]) and the table
    returned.  Without a row in [merged], pandas' [apply] only probes the
    callback; [merged] then has no column [Sample.sampleID] (see
    [combine_per_sample]) and the call of [set_index] that follows cannot
    succeed, so the model stops here. *)
Definition combine_polygons_per_sample (merged polygons : DataFrame)
    : DataFrame * result DataFrame :=
  match rows merged with
  | [] => (polygons, Raise PandasError)
  | _ =>
      if decide ("Site.geoLat" ∈ columns merged) then
      if decide ("Site.geoLong" ∈ columns merged) then
        match mapM Point (rows merged) with
        | Raise e => (polygons, Raise e)
        | Ok temp_points =>
            if decide ("Polygon.wkt" ∈ columns polygons) then
              let polygons := add_label polygons "shape" in
              let polygons := add_label polygons "contains" in
              (polygons,
               ids ← encompassing temp_points polygons;
               let merged := add_label merged "temp_point" in
               let merged := assign_values merged "polygonIDs" (VStr <$> ids) in
               drop merged ["temp_point"])
            else (polygons, Raise (KeyError "Polygon.wkt"))
        end
      else (polygons, Raise (KeyError "Site.geoLong"))
      else (polygons, Raise (KeyError "Site.geoLat"))
  end.

(** The polygon step of [combine_per_sample]: what [polygons] received
    reaches [self.polygon] when it is that object. *)
Definition polygon_step (merged : DataFrame) : store_op DataFrame :=
  bind_op (λ self, (self, _parse_polygon self)) (λ '(polygons, is_stored) self,
    let '(polygons', r) := combine_polygons_per_sample merged polygons in
    (if is_stored : bool then setattr self a_polygon (Some polygons') else self,
     r)).

(** [Odm.combine_per_sample] *)
Definition combine_per_sample : store_op IndexedFrame :=
  bind_op (λ self, (self, ww ← _parse_ww_measure self;
                          agg_ww_measure_per_sample ww)) (λ ww_measure,
  bind_op (_parse_sample pick) (λ sample,
  bind_op (pure_op (combine_ww_measure_and_sample ww_measure sample)) (λ merged,
  bind_op (λ self, (self, _parse_site_measure self)) (λ site_measure,
  bind_op (pure_op (combine_sample_site_measure merged site_measure)) (λ merged,
  bind_op (λ self, (self, _parse_site self)) (λ site,
  bind_op (pure_op (combine_site_sample merged site)) (λ merged,
  bind_op (polygon_step merged) (λ merged,
  pure_op (merged ← set_index merged "Sample.sampleID";
           Ok (drop_duplicates_indexed merged)))))))))).

End Consolidator.

(** ** Signal classifier ([notebooks/geo_test.py]) *)

(** A stable sort by a date key, missing dates last: [sort_values] on a
    column of timestamps.  (pandas sorts the dated rows and puts the undated
    ones after them; on the three rows of [get_cm_to_plot] its sort is an
    insertion sort.) *)
Definition date_lt (a b : option Z) : bool :=
  match a, b with
  | Some x, Some y => bool_decide (x < y)
  | Some _, None => true
  | None, _ => false
  end.

Fixpoint insert_by_date {A : Type} (key : A → option Z) (x : A) (l : list A)
    : list A :=
  match l with
  | [] => [x]
  | y :: l' =>
      if date_lt (key x) (key y) then x :: y :: l'
      else y :: insert_by_date key x l'
  end.

Definition sort_by_date {A : Type} (key : A → option Z) (l : list A) : list A :=
  foldl (λ sorted x, insert_by_date key x sorted) [] l.

(** [get_midpoint_time]; dividing a [Timedelta] by 2 truncates towards
    zero. *)
Definition get_midpoint_time (date1 date2 : option value)
    : result (option value) :=
  match date1, date2 with
  | None, _ => Ok None
  | _, None => Ok None
  | Some (VTime d1), Some (VTime d2) =>
      Ok (Some (VTime (d1 + Z.quot (d2 - d1) 2)))
  | Some _, Some _ => Raise TypeError
  end.

(** [Series.str.contains(pat)] used as a mask: every cell must be a
    string. *)
Definition str_contains_mask (pat : string) (c : string) (df : DataFrame)
    : result (list bool) :=
  if decide (c ∈ columns df) then
    mapM (λ r : row,
            match r !! c with
            | Some (VStr s) => Ok (str_contains pat s)
            | _ => Raise (ValueError "Cannot mask with non-boolean array containing NA / NaN values")
            end) (rows df)
  else Raise (KeyError c).

(** [df.loc[mask, c] = values]: the rows the mask selects receive the value
    at their position. *)
Definition assign_where (df : DataFrame) (mask : list bool) (c : string)
    (values : list (option value)) : DataFrame :=
  mkDataFrame
    (if decide (c ∈ columns df) then columns df else columns df ++ [c])
    (zip_with (λ (r : row) (mv : bool * option value),
                 if mv.1 then partial_alter (λ _, mv.2) c r else r)
              (rows df) (zip mask values)).

(** [df[c]] *)
Definition column (df : DataFrame) (c : string) : result (list (option value)) :=
  if decide (c ∈ columns df) then Ok ((λ r : row, r !! c) <$> rows df)
  else Raise (KeyError c).

Definition notna (c : option value) : bool :=
  match c with
  | Some _ => true
  | None => false
  end.

(** [get_plot_datetime]: the column [Sample.plotDate] it returns (it also
    leaves that column in [df]). *)
Definition get_plot_datetime (df : DataFrame) : result (list (option value)) :=
  let df := assign df "Sample.plotDate" (λ _, None) in
  grb_filt ← str_contains_mask "grb" "Sample.collection" df;
  starts ← column df "Sample.dateTimeStart";
  ends ← column df "Sample.dateTimeEnd";
  let s_filt := notna <$> starts in
  let e_filt := notna <$> ends in
  instants ← column df "Sample.dateTime";
  let df := assign_where df grb_filt "Sample.plotDate" instants in
  midpoints ← mapM (λ r : row,
                      get_midpoint_time (r !! "Sample.dateTimeStart")
                                        (r !! "Sample.dateTimeEnd"))
                   (rows df);
  let df := assign_where df (zip_with andb s_filt e_filt)
                         "Sample.plotDate" midpoints in
  let df := assign_where df (zip_with andb e_filt (negb <$> s_filt))
                         "Sample.plotDate" ends in
  column df "Sample.plotDate".

(** The timestamps of a column that is sorted: a cell that is no timestamp
    does not compare with one. *)
Definition as_date (c : option value) : result (option Z) :=
  match c with
  | None => Ok None
  | Some (VTime t) => Ok (Some t)
  | Some _ => Raise TypeError
  end.

(** [get_latest_sample_date] *)
Definition get_latest_sample_date (df : DataFrame) : result (option Z) :=
  if decide (len df = 0%nat) then Ok None
  else
    plotDate ← get_plot_datetime df;
    dates ← mapM as_date plotDate;
    Ok (default None (list.last (sort_by_date id dates))).

(** A row of the table [types] of [get_cm_to_plot]. *)
Record cm_row : Type := mkCmRow {
  cm_type : string;
  cm_n : nat;
  cm_last_date : option Z
}.

Definition possible_cms : list string := ["ps"; "cp"; "grb"].

(** [df.loc[mask]] *)
Definition select (df : DataFrame) (mask : list bool) : DataFrame :=
  mkDataFrame (columns df)
              ((filter (λ p : row * bool, p.2 = true) (zip (rows df) mask)).*1).

(** The body of the loop of [get_cm_to_plot], for one collection method.
    [samples.loc[mask]] that leaves rows out is marked as a copy of
    [samples]; [get_latest_sample_date] returns at once when it has no row,
    and otherwise [get_plot_datetime] begins with an assignment of a column,
    on which pandas raises for a table so marked (the option
    [chained_assignment] is 'raise' once [odm] is imported). *)
Definition cm_summary (samples : DataFrame) (cm : string) : result cm_row :=
  mask ← str_contains_mask cm "Sample.collection" samples;
  let samples_of_type := select samples mask in
  if decide (len samples_of_type ≠ 0%nat
             ∧ len samples_of_type ≠ len samples)
  then Raise SettingWithCopyError
  else
    last_date ← get_latest_sample_date samples_of_type;
    Ok (mkCmRow cm (len samples_of_type) last_date).

(** [get_cm_to_plot] *)
Definition get_cm_to_plot (samples : DataFrame) (thresh_n : nat)
    : result (option string) :=
  types ← mapM (cm_summary samples) possible_cms;
  let types := sort_by_date cm_last_date types in
  let types := filter (λ t, cm_last_date t ≠ None) types in
  let thresh_n :=
    if decide (length (filter (λ t, (thresh_n ≤ cm_n t)%nat) types) = 0%nat)
    then 0%nat else thresh_n in
  let types := filter (λ t, (thresh_n ≤ cm_n t)%nat) types in
  if decide (length types = 0%nat) then Ok None
  else Ok (cm_type <$> list.last types).

(** The keys of [COLORS] with their English label and colour. *)
Definition COLORS : list (nat * (string * option string)) :=
  [ (0%nat, ("No Data", None));
    (1%nat, ("Very Low", Some "#6da06f"));
    (2%nat, ("Low", Some "#b6e9d1"));
    (3%nat, ("Somewhat high", Some "#ffbb43"));
    (4%nat, ("High", Some "#ff8652"));
    (5%nat, ("Very high", Some "#c13525")) ].

(** [get_n_bins] *)
Definition get_n_bins {A B : Type} (series : list (option A))
    (all_colors : list B) : option nat :=
  let max_len := length all_colors in
  let len_not_null := length (filter (λ x, is_Some x) series) in
  if decide (len_not_null = 0%nat) then None
  else if decide (len_not_null < max_len)%nat then Some len_not_null
  else Some max_len.

(** [np.linspace(mn, mx, bins + 1)] *)
Definition linspace (mn mx : Q) (bins : nat) : list Q :=
  (λ k : nat, mn + (mx - mn) * inject_Z (Z.of_nat k) / inject_Z (Z.of_nat bins))%Q
    <$> seq 0 (S bins).

Definition Qmin_list (l : list Q) : option Q :=
  match l with
  | [] => None
  | x :: l' => Some (foldl (λ m y, if Qle_bool y m then y else m) x l')
  end.

Definition Qmax_list (l : list Q) : option Q :=
  match l with
  | [] => None
  | x :: l' => Some (foldl (λ m y, if Qle_bool m y then y else m) x l')
  end.

(** The bin edges of [pd.cut(x, bins)] for an integer [bins] and
    [right=True]. *)
Definition cut_edges (mn mx : Q) (bins : nat) : list Q :=
  if Qeq_bool mn mx then
    let lo := (mn - (if Qeq_bool mn 0 then 1 # 1000 else (1 # 1000) * Qabs mn))%Q in
    let hi := (mx + (if Qeq_bool mx 0 then 1 # 1000 else (1 # 1000) * Qabs mx))%Q in
    linspace lo hi bins
  else
    match linspace mn mx bins with
    | first :: rest => (first - (mx - mn) * (1 # 1000))%Q :: rest
    | [] => []
    end.

(** [edges.searchsorted(x, side="left")]: how many edges lie below [x]. *)
Definition searchsorted (edges : list Q) (x : Q) : nat :=
  length (filter (λ e, Qle_bool x e = false) edges).

(** [pd.cut(x, bins, labels=range(1, bins + 1))]: the label of every cell,
    missing for a missing cell and for a value outside the edges. *)
Definition cut (x : list (option Q)) (bins : nat) : list (option nat) :=
  let present := omap id x in
  match Qmin_list present, Qmax_list present with
  | Some mn, Some mx =>
      let edges := cut_edges mn mx bins in
      (λ c : option Q,
         v ← c;
         let ids := searchsorted edges v in
         if decide (ids = 0%nat ∨ ids = length edges) then None else Some ids)
        <$> x
  | _, _ => (λ _, None) <$> x
  end.

(** The column [signal_strength] of [get_color_ts] before [astype]: the
    level of every week, missing where [pd.cut] gives no category. *)
Definition signal_strength (norm : list (option Q)) : list (option nat) :=
  match get_n_bins norm COLORS with
  | None => (λ _, Some 0%nat) <$> norm
  | Some 1%nat => (λ _, Some 1%nat) <$> norm
  | Some n_bins => cut norm n_bins
  end.

Definition day : Z := 86400 * 1000000000.

(** [get_last_sunday]: [weekday()] counts from Monday, and the epoch was a
    Thursday.  01-01-2020 is day 18262. *)
Definition get_last_sunday (date : option Z) : Z :=
  let date := default (18262 * day) date in
  let weekday := (date `div` day + 3) `mod` 7 in
  let offset := (weekday - 6) `mod` 7 in
  date - offset * day.

(** [pd.date_range(start, end, freq="W")] from a Sunday *)
Definition date_range (start end_ : Z) : list Z :=
  (λ k, start + k * (7 * day)) <$> seqZ 0 ((end_ - start) `div` (7 * day) + 1).

(** [build_empty_color_ts] *)
Definition build_empty_color_ts (date_range : list Z) : list (Z * option Q) :=
  (λ d, (d, None)) <$> date_range.

(** The column [norm] of [pd.merge(result, weekly, left_on="date",
    right_on="last_sunday", how="left")].  Sorting [weekly] by date first
    changes neither the weeks matched nor, the sort being stable, their
    order. *)
Definition merge_weekly (date_range : list Z) (weekly : list (Z * option Q))
    : list (Z * option Q) :=
  d ← date_range;
  match filter (λ w : Z * option Q, w.1 = d) weekly with
  | [] => [(d, None)]
  | matches => (λ w : Z * option Q, (d, w.2)) <$> matches
  end.

Section Classifier.

(** [pd.to_datetime("now")] *)
Variable now : Z.

(** [Timestamp.strftime("%Y-%m-%d")] *)
Variable strftime : Z → string.

(** The text [astype("str")] makes of a category of [pd.cut], and of a
    missing one. *)
Variable category_str : option nat → string.

(** [astype("str")] on a column of integers *)
Definition int_str (c : option nat) : string :=
  match c with
  | Some n => pretty n
  | None => "nan"
  end.

(** [get_color_ts], from [weekly] on.  [weekly] is what lines 280-286 leave:
    [None] when [samples] is [None], else the weekly means of the ratio, a
    pair of week and mean per row.  After [astype("str")] no cell is missing,
    so the assignment of "0" to the missing cells that follows changes
    nothing. *)
Definition get_color_ts (weekly : option (list (Z * option Q)))
    (dateStart dateEnd : option Z) : gmap string string :=
  let date_range_start := get_last_sunday dateStart in
  let dateEnd := default now dateEnd in
  let date_range := date_range date_range_start dateEnd in
  let weekly := default (build_empty_color_ts date_range) weekly in
  let result := merge_weekly date_range weekly in
  let norm := result.*2 in
  let strength : list string :=
    match get_n_bins norm COLORS with
    | None | Some 1%nat => int_str <$> signal_strength norm
    | Some _ => category_str <$> signal_strength norm
    end in
  foldl (λ d (p : string * string), <[p.1 := p.2]> d) ∅
        (zip (strftime <$> result.*1) strength).

End Classifier.

(** ** The statements of the specification, in the terms of the model *)

(** The interval of the specification, bounds included, for a sample row
    and a site-measure row whose three dates are timestamps; the instants
    are taken to the microsecond. *)
Definition within_interval (s m : row) : bool :=
  match m !! "SiteMeasure.dateTime",
        s !! "Sample.dateTimeStart", s !! "Sample.dateTimeEnd" with
  | Some (VTime t), Some (VTime a), Some (VTime b) =>
      bool_decide (microsecond a ≤ microsecond t
                   ∧ microsecond t ≤ microsecond b)
  | _, _, _ => false
  end.

(** Two tables hold the same rows under the same columns. *)
Definition same_rows (t1 t2 : option DataFrame) : Prop :=
  match t1, t2 with
  | None, None => True
  | Some d1, Some d2 =>
      columns d1 = columns d2 ∧ ∀ r, r ∈ rows d1 ↔ r ∈ rows d2
  | _, _ => False
  end.

(** The site identifiers of the field [sites], in the order the set of
    [_parse_sample] gives them. *)
Definition site_ids (pick : list string → nat) (sites : string) : list string :=
  set_iter pick (strip <$> str_split ";" sites).

(** The site field of a row that names several sites. *)
Definition multi_site (r : row) : option string :=
  match r !! "siteID" with
  | Some (VStr sites) => if str_contains ";" sites then Some sites else None
  | _ => None
  end.

(** A row of the sample table once it names one site only. *)
Definition kept_row (pick : list string → nat) (r : row) : row :=
  match multi_site r with
  | Some sites =>
      match site_ids pick sites with
      | first :: _ => <["siteID" := VStr first]> r
      | [] => r
      end
  | None => r
  end.

(** The copies of a row for its other sites. *)
Definition extra_rows (pick : list string → nat) (r : row) : list row :=
  match multi_site r with
  | Some sites =>
      (λ site_id, <["siteID" := VStr site_id]> r) <$> tail (site_ids pick sites)
  | None => []
  end.

(** One pass over the qualifier columns of a row, each cell rewritten by
    [g]: what [clean_qualifier_columns] and the [astype] loop of [widen] do
    to a row. *)
Definition rewrite_cells (g : string → option value → option value)
    (qualifiers : list string) (r : row) : row :=
  foldl (λ (r : row) q, partial_alter (λ _, g q (r !! q)) q r) r qualifiers.

(** ** Example tables *)

Definition no_rows : DataFrame := mkDataFrame ["id"] [].

(** A sample table with the one sample [sampleID], taken at [sites]. *)
Definition sample_at (sampleID sites : string) : DataFrame :=
  mkDataFrame ["sampleID"; "siteID"]
    [ {[ "sampleID" := VStr sampleID; "siteID" := VStr sites ]} ].

Definition one_sample (sites : string) : DataFrame := sample_at "s1" sites.

Definition two_site_table : DataFrame :=
  mkDataFrame ["siteID"; "geoLat"; "geoLong"]
    [ {[ "siteID" := VStr "qc_1"; "geoLat" := VNum 46; "geoLong" := VNum (-71) ]};
      {[ "siteID" := VStr "qc_2"; "geoLat" := VNum 47; "geoLong" := VNum (-71) ]} ].

(** A polygon whose shape was not filled in. *)
Definition one_polygon : DataFrame :=
  mkDataFrame ["polygonID"; "wkt"] [ {[ "polygonID" := VStr "p1" ]} ].

(** A store with one sample taken at the two sites qc_1 and qc_2. *)
Definition two_site_store : Odm :=
  mkOdm (Some (one_sample "qc_1;qc_2")) (Some no_rows) (Some two_site_table)
        (Some no_rows) (Some no_rows) (Some no_rows) (Some no_rows)
        (Some no_rows) (Some one_polygon) (Some no_rows).

(** A store as [Odm()] makes it: every table without a row. *)
Definition fresh_store : Odm :=
  mkOdm (Some no_rows) (Some no_rows) (Some no_rows) (Some no_rows)
        (Some no_rows) (Some no_rows) (Some no_rows) (Some no_rows)
        (Some no_rows) (Some no_rows).

(** A mapper that read samples and left its measure table unset. *)
Definition first_lab : Mapper :=
  mkMapper true
    (mkOdm (Some (sample_at "s1" "qc_1")) None (Some no_rows) (Some no_rows)
           (Some no_rows) (Some no_rows) (Some no_rows) (Some no_rows)
           (Some no_rows) (Some no_rows)).

Definition second_lab : Mapper :=
  mkMapper true
    (mkOdm (Some (sample_at "s2" "qc_2")) (Some no_rows) (Some no_rows)
           (Some no_rows) (Some no_rows) (Some no_rows) (Some no_rows)
           (Some no_rows) (Some no_rows) (Some no_rows)).

Definition store_after_first_lab : Odm :=
  mkOdm (Some (sample_at "s1" "qc_1")) None (Some no_rows) (Some no_rows)
        (Some no_rows) (Some no_rows) (Some no_rows) (Some no_rows)
        (Some no_rows) (Some no_rows).



Definition sample_columns : list string :=
  ["Sample.collection"; "Sample.dateTime";
   "Sample.dateTimeStart"; "Sample.dateTimeEnd"].

(** A row of the merged table with the four columns the classifier reads;
    [None] is a missing timestamp. *)
Definition sample_row (collection : string) (dateTime start end_ : option Z)
    : row :=
  list_to_map
    (("Sample.collection", VStr collection)
     :: omap id [ (λ t, ("Sample.dateTime", VTime t)) <$> dateTime;
                  (λ t, ("Sample.dateTimeStart", VTime t)) <$> start;
                  (λ t, ("Sample.dateTimeEnd", VTime t)) <$> end_ ]).

Definition samples_of (l : list row) : DataFrame := mkDataFrame sample_columns l.

(** [n] copies of a sample of the method [collection] that ends on day
    [d] *)
Definition dated (collection : string) (n : nat) (d : Z) : list row :=
  replicate n (sample_row collection None None (Some (d * day))).

(** A sample from 10 to 20 and site measures at 10, 20 and 21. *)
Definition interval_sample : DataFrame :=
  mkDataFrame ["Sample.sampleID"; "Sample.dateTimeStart"; "Sample.dateTimeEnd"]
    [ {[ "Sample.sampleID" := VStr "s1";
         "Sample.dateTimeStart" := VTime 10000;
         "Sample.dateTimeEnd" := VTime 20000 ]} ].

Definition site_measure_at (t : Z) : row :=
  {[ "SiteMeasure.dateTime" := VTime t; "SiteMeasure.value" := VNum t ]}.

(** Site measures at the start, at the end and one microsecond after the
    end of the sample. *)
Definition three_site_measures : DataFrame :=
  mkDataFrame ["SiteMeasure.dateTime"; "SiteMeasure.value"]
    [ site_measure_at 10000; site_measure_at 20000; site_measure_at 21000 ].

(** A site measure one nanosecond after the end of the sample. *)
Definition late_site_measure : DataFrame :=
  mkDataFrame ["SiteMeasure.dateTime"; "SiteMeasure.value"]
    [ site_measure_at 20001 ].

(** A store like [two_site_store] whose sample table also has a column of
    timestamps. *)
Definition dated_sample : DataFrame :=
  mkDataFrame ["sampleID"; "siteID"; "dateTime"]
    [ {[ "sampleID" := VStr "s1"; "siteID" := VStr "qc_1;qc_2";
         "dateTime" := VTime (18718 * day) ]} ].

Definition dated_two_site_store : Odm :=
  mkOdm (Some dated_sample) (Some no_rows) (Some two_site_table)
        (Some no_rows) (Some no_rows) (Some no_rows) (Some no_rows)
        (Some no_rows) (Some one_polygon) (Some no_rows).

(** A mapper with the tables of [second_lab] that does not validate. *)
Definition invalid_lab : Mapper := mkMapper false (mapper_tables second_lab).

(** A mapper whose one sample is listed twice. *)
Definition repeating_lab : Mapper :=
  mkMapper true
    (mkOdm (Some (mkDataFrame ["sampleID"; "siteID"]
                    [ {[ "sampleID" := VStr "s1"; "siteID" := VStr "qc_1" ]};
                      {[ "sampleID" := VStr "s1"; "siteID" := VStr "qc_1" ]} ]))
           (Some no_rows) (Some no_rows) (Some no_rows) (Some no_rows)
           (Some no_rows) (Some no_rows) (Some no_rows) (Some no_rows)
           (Some no_rows)).

(** ** Loading a mapper ([Odm.load_from]) *)

(** The loop of [load_from].  [mapper_attrs] is [mapper.__dict__] at the
    names of the store's attributes: [None] for a name that is no key of it,
    [Some None] for a key that holds [None] ([None.drop_duplicates] raises
    [AttributeError]). *)
Fixpoint load_loop (keys : list attr) (self : Odm)
    (mapper_attrs : attr → option (option DataFrame)) : Odm * result () :=
  match keys with
  | [] => (self, Ok ())
  | key :: rest =>
      match mapper_attrs key with
      | None => load_loop rest self mapper_attrs
      | Some None => (self, Raise AttributeError)
      | Some (Some new_df) =>
          load_loop rest (setattr self key (Some (drop_duplicates new_df)))
                    mapper_attrs
      end
  end.

(** [Odm.load_from], for a mapper whose [validates()] answers [validates]. *)
Definition load_from (self : Odm) (validates : bool)
    (mapper_attrs : attr → option (option DataFrame)) : Odm * result () :=
  if validates then load_loop self_attrs self mapper_attrs else (self, Ok ()).

(** [mapper.__dict__] of a mapper that holds its ten tables as attributes of
    the instance. *)
Definition instance_dict (m : Mapper) : attr → option (option DataFrame) :=
  λ a, Some (getattr (mapper_tables m) a).



(** A measure table with the columns [_parse_ww_measure] reads and a column
    of access rights. *)
Definition ww_table : DataFrame :=
  mkDataFrame
    ["sampleID"; "fractionAnalyzed"; "type"; "unit"; "aggregation"; "value";
     "index"; "accessToPublic"]
    [ {[ "sampleID" := VStr "s1"; "fractionAnalyzed" := VStr "liquid";
         "type" := VStr "covN1"; "unit" := VStr "gc/ml";
         "aggregation" := VStr "single"; "value" := VNum 12;
         "index" := VNum 0; "accessToPublic" := VStr "yes" ]} ].


(** A sample table with two samples that differ in their identifier only. *)
Definition twin_samples : DataFrame :=
  mkDataFrame ["sampleID"; "siteID"]
    [ {[ "sampleID" := VStr "s1"; "siteID" := VStr "qc_1" ]};
      {[ "sampleID" := VStr "s2"; "siteID" := VStr "qc_1" ]} ].

Definition twin_store : Odm :=
  mkOdm (Some twin_samples) (Some no_rows) (Some two_site_table)
        (Some no_rows) (Some no_rows) (Some no_rows) (Some no_rows)
        (Some no_rows) (Some one_polygon) (Some no_rows).

(** ** Site descriptions ([notebooks/geo_test.py]) *)

(** The dictionary [site_types] of [get_clean_type], in the order it is
    written. *)
Definition site_types : list (string * string) :=
  [ ("wwtpmuc", "Station de traitement des eaux usées municipale pour égouts combinés");
    ("pstat", "Station de pompage");
    ("ltcf", "Établissement de soins de longue durée");
    ("airpln", "Avion");
    ("corFcil", "Prison");
    ("school", "École");
    ("hosptl", "Hôpital");
    ("shelter", "Refuge");
    ("swgTrck", "Camion de vidange");
    ("uCampus", "Campus universitaire");
    ("mSwrPpl", "Collecteur d'égouts");
    ("holdTnk", "Bassin de stockage");
    ("retPond", "Bassin de rétention");
    ("wwtpMuS", "Station de traitement des eaux usées municipales pour égouts sanitaires seulement");
    ("wwtpInd", "Station de traitement des eaux usées industrielle");
    ("lagoon", "Système de lagunage pour traitement des eaux usées");
    ("septTnk", "Fosse septique.");
    ("river", "Rivière");
    ("lake", "Lac");
    ("estuary", "Estuaire");
    ("sea", "Mer");
    ("ocean", "Océan") ].

(** [get_clean_type] on one cell of [types]: [Series.str.lower()] leaves a
    cell that is no string missing, and [Series.map] looks the lowered text
    up in the dictionary. *)
Definition get_clean_type (c : option value) : option string :=
  match c with
  | Some (VStr s) => (list_to_map site_types : gmap string string) !! lower s
  | _ => None
  end.

(** The dictionary [collection] of [clean_collection_method], with the
    french and the english label of a method. *)
Definition collection : list (string * (string * string)) :=
  [ ("cp", ("Composite", "Composite"));
    ("grb", ("Ponctuel", "Grab"));
    ("ps", ("Passif", "Passive")) ].

(** [clean_collection_method] on one cell of [cm]; the cell holds what
    [get_cm_to_plot] returned. *)
Definition clean_collection_method (cm : option string)
    : option (string * string) :=
  k ← cm; (list_to_map collection : gmap string (string * string)) !! k.

(** ** Selecting samples ([notebooks/geo_test.py]) *)

(** A comparison of the column [c] with a timestamp, used as a mask: a
    missing cell compares false, a cell that is no timestamp does not
    compare. *)
Definition compare_mask (test : Z → bool) (c : string) (df : DataFrame)
    : result (list bool) :=
  cells ← column df c;
  mapM (λ cell : option value,
          match cell with
          | None => Ok false
          | Some (VTime t) => Ok (test t)
          | Some _ => Raise TypeError
          end) cells.

(** [get_samples_in_interval].  With both bounds the condition reads
    [plotDate >= dateStart & plotDate <= dateEnd]; [&] binds tighter than the
    comparisons, so Python evaluates [dateStart & plotDate] first, a
    timestamp and a column of timestamps, which raises [TypeError]. *)
Definition get_samples_in_interval (samples : DataFrame)
    (dateStart dateEnd : option Z) : result DataFrame :=
  match dateStart, dateEnd with
  | None, None => Ok samples
  | None, Some dateEnd =>
      mask ← compare_mask (λ t, bool_decide (t ≤ dateEnd))
                          "Sample.plotDate" samples;
      Ok (select samples mask)
  | Some dateStart, None =>
      mask ← compare_mask (λ t, bool_decide (dateStart ≤ t))
                          "Sample.plotDate" samples;
      Ok (select samples mask)
  | Some dateStart, Some dateEnd =>
      _ ← column samples "Sample.plotDate";
      _ ← column samples "Sample.plotDate";
      Raise TypeError
  end.

(** [get_samples_to_plot]: [None] when no method was chosen. *)
Definition get_samples_to_plot (samples : DataFrame) (cm : option string)
    : result (option DataFrame) :=
  match cm with
  | None => Ok None
  | Some cm =>
      mask ← str_contains_mask cm "Sample.collection" samples;
      Ok (Some (select samples mask))
  end.

(** The plot date of a row, as the assignments of [get_plot_datetime] leave
    it: the midpoint when the row has a start and an end, the end when it
    has an end only, else the instant of a grab sample, else nothing. *)
Definition plot_date (r : row) : option value :=
  match r !! "Sample.dateTimeEnd", r !! "Sample.dateTimeStart" with
  | Some (VTime e), Some (VTime s) => Some (VTime (s + (e - s) `quot` 2))
  | Some e, None => Some e
  | Some _, Some _ => None
  | None, _ =>
      match r !! "Sample.collection" with
      | Some (VStr c) =>
          if str_contains "grb" c then r !! "Sample.dateTime" else None
      | _ => None
      end
  end.

(** The instant of a plot date, when it is one. *)
Definition plot_instant (r : row) : option Z :=
  match plot_date r with
  | Some (VTime t) => Some t
  | _ => None
  end.

(** A table the classifier can read: it has the four columns of a sample,
    the collection methods are text, the dates are timestamps or missing,
    and a start and an end are less than 2^53 nanoseconds apart (up to
    there the midpoint of pandas is the one of [get_midpoint_time]). *)
Definition dated_samples (df : DataFrame) : Prop :=
  (∀ c, c ∈ sample_columns → c ∈ columns df)
  ∧ ∀ r : row, r ∈ rows df →
      (∃ c, r !! "Sample.collection" = Some (VStr c))
      ∧ (∀ (c : string) (v : value),
           c ∈ ["Sample.dateTime"; "Sample.dateTimeStart";
                "Sample.dateTimeEnd"] →
           r !! c = Some v → ∃ t, v = VTime t)
      ∧ (∀ s e : Z,
           r !! "Sample.dateTimeStart" = Some (VTime s) →
           r !! "Sample.dateTimeEnd" = Some (VTime e) →
           Z.abs (e - s) < 2 ^ 53).

(** ** GeoJSON of the polygons ([Odm.get_geoJSON]) *)

(** The loop [polygon_df[col] = polygon_df[col].fillna("null")] over the
    columns of the table: a missing cell of a column becomes the text null.
    (No column of the model is categorical.) *)
Definition fillna_null (polygon_df : DataFrame) : DataFrame :=
  foldl (λ df col,
           assign df col (λ r, Some (default (VStr "null") (r !! col))))
        polygon_df (columns polygon_df).

(** The argument [types]: one type or a list of types. *)
Inductive types_arg : Type :=
  | OneType (type_ : string)
  | TypeList (types : list string).

(** [polygon_df["type"].str.lower().isin(types)]: a cell that is no string
    is in no list of types. *)
Definition type_mask (types : list string) (polygon_df : DataFrame)
    : result (list bool) :=
  column polygon_df "type" ≫= λ cells : list (option value),
  Ok ((λ cell : option value,
         match cell with
         | Some (VStr s) => bool_decide (lower s ∈ types)
         | _ => false
         end) <$> cells).

(** The row labels of [df.loc[mask]], for a table with the labels
    0..n-1. *)
Definition loc_labels (n : nat) (mask : list bool) : list nat :=
  (filter (λ p : nat * bool, p.2 = true) (zip (seq 0 n) mask)).*1.

Section GeoJSON.

(** The geometries of GeoJSON and [utilities.convert_wkt_to_geojson], which
    is not part of the sources read here; it is given the cell of the column
    [wkt]. *)
Variable geometry : Type.
Variable convert_wkt_to_geojson : option value → result geometry.

(** A feature of the collection; [feature_id] is its entry [id]. *)
Record Feature : Type := mkFeature {
  feature_geometry : geometry;
  properties : list (string * option value);
  feature_id : nat
}.

(** The loop over [polygon_df.iterrows()]: a feature for every row whose
    [wkt] is not the empty text. *)
Fixpoint features_of (cols : list string) (iterrows : list (nat * row))
    : result (list Feature) :=
  match iterrows with
  | [] => Ok []
  | (i, row) :: rest =>
      if decide ("wkt" ∈ cols) then
        if decide (row !! "wkt" = Some (VStr "")) then features_of cols rest
        else
          geom ← convert_wkt_to_geojson (row !! "wkt");
          let new_feature :=
            mkFeature geom
              ((λ col, (col, row !! col))
                 <$> filter (λ col, str_contains "wkt" col = false) cols)
              i in
          features ← features_of cols rest;
          Ok (new_feature :: features)
      else Raise (KeyError "wkt")
  end.

(** [Odm.get_geoJSON]: the store afterwards and the features of the
    collection.  Without [types] the table worked on is [self.polygon]
    itself; with [types] it is a copy of the rows selected. *)
Definition get_geoJSON (types : option types_arg) (self : Odm)
    : Odm * result (list Feature) :=
  match types with
  | None =>
      match polygon self with
      | None => (self, Raise AttributeError)
      | Some polygon_df =>
          let polygon_df := fillna_null polygon_df in
          (setattr self a_polygon (Some polygon_df),
           features_of (columns polygon_df)
             (zip (seq 0 (len polygon_df)) (rows polygon_df)))
      end
  | Some types =>
      let types :=
        lower <$> match types with
                  | OneType type_ => [type_]
                  | TypeList types => types
                  end in
      match polygon self with
      | None => (self, Raise TypeError)
      | Some polygon_df =>
          (self,
           mask ← type_mask types polygon_df;
           let labels := loc_labels (len polygon_df) mask in
           let polygon_df := fillna_null (select polygon_df mask) in
           features_of (columns polygon_df) (zip labels (rows polygon_df)))
      end
  end.

End GeoJSON.

Local Open Scope list_scope.

(** * Properties *)

(** ** Auxiliary facts on the table primitives *)

Lemma elem_of_unique `{EqDecision A} (l : list A) (x : A) :
  x ∈ unique l ↔ x ∈ l.
Proof.
  induction l as [|y l IH]; simpl; [done|].
  rewrite !elem_of_cons, list_elem_of_filter, IH.
  destruct (decide (x = y)); tauto.
Qed.

Lemma NoDup_unique `{EqDecision A} (l : list A) : NoDup (unique l).
Proof.
  induction l as [|y l IH]; simpl; [constructor|].
  constructor.
  - rewrite list_elem_of_filter. by intros [Hy _].
  - by apply NoDup_filter.
Qed.

Lemma unique_nil_inv `{EqDecision A} (l : list A) : unique l = [] → l = [].
Proof. by destruct l. Qed.

Lemma filter_all {A : Type} (P : A → Prop) `{∀ x, Decision (P x)}
    (l : list A) :
  (∀ x, x ∈ l → P x) → filter P l = l.
Proof.
  induction l as [|x l IH]; intros Hall; [done|].
  rewrite filter_cons, decide_True by (apply Hall; by left).
  f_equal. apply IH. intros y Hy. apply Hall. by right.
Qed.

Lemma filter_none {A : Type} (P : A → Prop) `{∀ x, Decision (P x)}
    (l : list A) :
  (∀ x, x ∈ l → ¬ P x) → filter P l = [].
Proof.
  induction l as [|x l IH]; intros Hall; [done|].
  rewrite filter_cons, decide_False by (apply Hall; by left).
  apply IH. intros y Hy. apply Hall. by right.
Qed.

Lemma unique_NoDup `{EqDecision A} (l : list A) : NoDup l → unique l = l.
Proof.
  induction 1 as [|x l Hx Hnd IH]; [done|]. simpl. rewrite IH. f_equal.
  apply filter_all. intros y Hy ->. done.
Qed.

Lemma unique_app `{EqDecision A} (l1 l2 : list A) :
  unique (l1 ++ l2) = unique l1 ++ filter (λ y, y ∉ l1) (unique l2).
Proof.
  induction l1 as [|x l1 IH]; simpl.
  - symmetry. apply filter_all. intros y _. apply not_elem_of_nil.
  - rewrite IH, filter_app. f_equal. f_equal.
    rewrite list_filter_filter. apply list_filter_iff. intros y.
    rewrite not_elem_of_cons. tauto.
Qed.

Lemma unique_unique_app `{EqDecision A} (l : list A) :
  unique (unique l ++ l) = unique l.
Proof.
  rewrite unique_app, (unique_NoDup (unique l)) by apply NoDup_unique.
  rewrite filter_none; [by rewrite app_nil_r|].
  intros x Hx Hn. done.
Qed.

Lemma filter_ext_in {A : Type} (P Q : A → Prop) `{∀ x, Decision (P x)}
    `{∀ x, Decision (Q x)} (l : list A) :
  (∀ x, x ∈ l → (P x ↔ Q x)) → filter P l = filter Q l.
Proof.
  induction l as [|x l IH]; intros Hext; [done|].
  rewrite !filter_cons.
  assert (Hx : P x ↔ Q x) by (apply Hext; by left).
  rewrite IH by (intros y Hy; apply Hext; by right).
  destruct (decide (P x)), (decide (Q x)); tauto.
Qed.

Lemma unique_app_subset `{EqDecision A} (l1 l2 : list A) :
  (∀ x, x ∈ l2 → x ∈ l1) → unique (l1 ++ l2) = unique l1.
Proof.
  intros Hsub. rewrite unique_app, filter_none; [by rewrite app_nil_r|].
  intros x Hx Hn. apply Hn, Hsub. by apply elem_of_unique.
Qed.

(** ** Table store *)

Lemma getattr_setattr (o : Odm) (a b : attr) (t : option DataFrame) :
  getattr (setattr o a t) b = if decide (a = b) then t else getattr o b.
Proof. by destruct a, b. Qed.

Lemma setattr_sample_same (self : Odm) (df : DataFrame) :
  sample self = Some df → setattr self a_sample (Some df) = self.
Proof. destruct self; simpl; by intros ->. Qed.

Lemma append_table_raise (current_df new_df : option DataFrame) (e : exn) :
  append_table current_df new_df = Raise e →
  current_df = None ∧ e = AttributeError.
Proof.
  unfold append_table. destruct current_df as [cur|]; [|by intros [= <-]].
  destruct (empty cur); [done|].
  destruct new_df as [new|]; [|done]. by destruct (empty new).
Qed.

(** How far the loop of [append_from] gets: the attributes [done] have been
    merged, the others keep their table, and a failure is the failure of the
    first attribute not done. *)
Lemma append_loop_inv (attrs : list attr) (self self' : Odm) (mapper : source)
    (r : result ()) :
  NoDup attrs →
  append_loop attrs self mapper = (self', r) →
  ∃ pre rest,
    attrs = pre ++ rest
    ∧ (∀ a, a ∈ pre →
         append_table (getattr self a) (source_attr self mapper a)
         = Ok (getattr self' a))
    ∧ (∀ a, a ∉ pre → getattr self' a = getattr self a)
    ∧ match r with
      | Ok _ => rest = []
      | Raise e =>
          ∃ b rest', rest = b :: rest' ∧ getattr self b = None
                     ∧ e = AttributeError
      end.
Proof.
  intros Hnd. revert self.
  induction attrs as [|a attrs IH]; intros self Hloop; simpl in Hloop.
  - inversion Hloop; subst. exists [], [].
    split_and!; [done| |done|done]. intros a Ha. by apply elem_of_nil in Ha.
  - apply NoDup_cons in Hnd as [Ha Hnd].
    destruct (append_table (getattr self a) (source_attr self mapper a))
      as [t|e] eqn:Ht.
    + destruct (IH Hnd _ Hloop) as (pre & rest & Hattrs' & Hdone & Hkeep & Hr).
      assert (Hsrc : ∀ b, b ≠ a →
                source_attr (setattr self a t) mapper b = source_attr self mapper b).
      { intros b Hb. destruct mapper; simpl; try done.
        rewrite getattr_setattr. by destruct (decide (a = b)); [subst|]. }
      exists (a :: pre), rest. split_and!; [by rewrite Hattrs'| | |].
      * intros b [->|Hb]%elem_of_cons.
        -- rewrite Hkeep by (intros Hin; apply Ha; rewrite Hattrs';
                               apply elem_of_app; by left).
           rewrite getattr_setattr. by destruct (decide (a = a)).
        -- assert (b ≠ a).
           { intros ->. apply Ha. rewrite Hattrs'. apply elem_of_app. by left. }
           specialize (Hdone b Hb). rewrite Hsrc in Hdone by done.
           rewrite getattr_setattr in Hdone.
           by destruct (decide (a = b)); [subst|].
      * intros b Hb. rewrite Hkeep by (intros Hin; apply Hb; by right).
        rewrite getattr_setattr.
        destruct (decide (a = b)) as [->|]; [|done]. destruct Hb. by left.
      * destruct r as [|e]; [done|].
        destruct Hr as (b & rest' & -> & Hb & ->).
        exists b, rest'. split_and!; [done| |done].
        rewrite getattr_setattr in Hb.
        destruct (decide (a = b)) as [->|]; [|done].
        destruct Ha. rewrite Hattrs'. apply elem_of_app. right. by left.
    + inversion Hloop; subst.
      apply append_table_raise in Ht as [Hnone ->].
      exists [], (a :: attrs).
      split_and!; [done|by intros b Hb%elem_of_nil|done|].
      by exists a, attrs.
Qed.

Lemma elem_of_self_attrs (a : attr) : a ∈ self_attrs.
Proof. destruct a; compute_done. Qed.

Lemma NoDup_self_attrs : NoDup self_attrs.
Proof. compute_done. Qed.

Lemma append_loop_raise (attrs : list attr) (self self' : Odm)
    (mapper : source) (e : exn) :
  append_loop attrs self mapper = (self', Raise e) → e = AttributeError.
Proof.
  revert self. induction attrs as [|a attrs IH]; intros self; simpl; [done|].
  destruct (append_table _ _) as [t|e'] eqn:Ht; [by apply IH|].
  intros [= <- <-]. by apply append_table_raise in Ht as [_ ->].
Qed.

(** C10.  An [Odm] given to [append_from] is never asked to validate: the
    call is the merge loop itself, it never ends with the invalid-data error,
    and it is the call a mapper with the same tables makes when its
    [validates()] answers true. *)
Theorem append_from_odm_not_validated (self other : Odm) :
  append_from self (FromOdm other) = append_loop self_attrs self (FromOdm other)
  ∧ append_from self FromSelf = append_loop self_attrs self FromSelf
  ∧ (append_from self (FromOdm other)).2 ≠ Raise invalid_data
  ∧ (append_from self FromSelf).2 ≠ Raise invalid_data
  ∧ append_from self (FromOdm other)
    = append_from self (FromMapper (mkMapper true other)).
Proof.
  assert (Hne : ∀ mapper, (append_loop self_attrs self mapper).2 ≠ Raise invalid_data).
  { intros mapper.
    destruct (append_loop self_attrs self mapper) as [s [|e]] eqn:Hl;
      cbn [snd]; [discriminate|].
    apply append_loop_raise in Hl as ->. discriminate. }
  split_and!; try done; apply Hne.
Qed.

(** How a call of [append_from] can fail: on a source that does not
    validate, with the store as it was, or on an attribute of the store that
    holds [None], the attributes before it merged and the others as they
    were. *)
Lemma append_from_raise_cases (self self' : Odm) (mapper : source) (e : exn) :
  append_from self mapper = (self', Raise e) →
  (source_validates mapper = false ∧ e = invalid_data ∧ self' = self)
  ∨ (source_validates mapper = true ∧ e = AttributeError
     ∧ ∃ pre b rest,
         self_attrs = pre ++ b :: rest
         ∧ getattr self b = None
         ∧ (∀ a, a ∈ pre →
              append_table (getattr self a) (source_attr self mapper a)
              = Ok (getattr self' a))
         ∧ (∀ a, a ∈ b :: rest → getattr self' a = getattr self a)).
Proof.
  unfold append_from. destruct (source_validates mapper); simpl.
  - intros Hloop. right. split; [done|].
    destruct (append_loop_inv _ _ _ _ _ NoDup_self_attrs Hloop)
      as (pre & rest & Hattrs & Hpre & Hkeep & b & rest' & -> & Hb & ->).
    split; [done|]. exists pre, b, rest'. split_and!; try done.
    intros a Ha. apply Hkeep. intros Hin.
    pose proof NoDup_self_attrs as Hnd. rewrite Hattrs in Hnd.
    apply NoDup_app in Hnd as (_ & Hdisj & _). by apply (Hdisj a).
  - intros [= <- <-]. by left.
Qed.

(** C6, as amended.  A source whose [validates()] is false makes
    [append_from] raise the invalid-data error with the store untouched:
    the store afterwards is the store before, all ten tables.  The
    invalid-data error is raised for such a source only, a source that
    validates never gets it, and a call that ends with it has changed no
    table. *)
Theorem append_from_failure (self : Odm) (mapper : source) :
  (source_validates mapper = false →
   append_from self mapper = (self, Raise invalid_data)
   ∧ ∀ a, getattr (append_from self mapper).1 a = getattr self a)
  ∧ (source_validates mapper = true →
     (append_from self mapper).2 ≠ Raise invalid_data)
  ∧ (∀ self' : Odm,
       append_from self mapper = (self', Raise invalid_data) →
       self' = self ∧ source_validates mapper = false).
Proof.
  split_and!.
  - intros Hv. unfold append_from. rewrite Hv. done.
  - intros Hv. destruct (append_from self mapper) as [self' [[]|e]] eqn:Hcall;
      cbn [snd]; [done|].
    apply append_from_raise_cases in Hcall
      as [(Hv' & _)|(_ & -> & _)]; [congruence|done].
  - intros self' Hcall.
    apply append_from_raise_cases in Hcall
      as [(Hv & _ & ->)|(_ & He & _)]; [done|discriminate He].
Qed.

(** C6 fails as it is stated.  A first mapper leaves [None] in the measure
    table of a new store; the append of a second mapper then merges the
    sample table, fails on the measure table, and leaves the sample table
    merged. *)
Lemma append_from_partial_update :
  append_from fresh_store (FromMapper first_lab) = (store_after_first_lab, Ok ())
  ∧ ∃ self',
      append_from store_after_first_lab (FromMapper second_lab)
      = (self', Raise AttributeError)
      ∧ sample self'
        = Some (mkDataFrame ["sampleID"; "siteID"]
                  (rows (sample_at "s1" "qc_1") ++ rows (sample_at "s2" "qc_2")))
      ∧ sample self' ≠ sample store_after_first_lab.
Proof.
  split; [by vm_compute|]. eexists. split; [by vm_compute|].
  split; [by vm_compute|]. by vm_compute.
Qed.

Lemma append_from_failure_witness :
  append_from store_after_first_lab (FromMapper invalid_lab)
  = (store_after_first_lab, Raise invalid_data)
  ∧ sample (append_from store_after_first_lab (FromMapper invalid_lab)).1
    = Some (sample_at "s1" "qc_1").
Proof.
  destruct (proj1 (append_from_failure store_after_first_lab
                     (FromMapper invalid_lab)) eq_refl) as [Hcall Hkeep].
  split; [exact Hcall|]. exact (Hkeep a_sample).
Defined.

Lemma same_rows_refl (t : option DataFrame) : same_rows t t.
Proof. by destruct t. Qed.

Lemma empty_append (d1 d2 : DataFrame) :
  empty d1 = false → empty (drop_duplicates (append d1 d2)) = false.
Proof.
  unfold empty; simpl. destruct (columns d1), (rows d1); by simpl.
Qed.

Lemma filter_not_elem_nil (l k : list string) :
  (∀ c, c ∈ k → c ∈ l) → filter (λ c, c ∉ l) k = [].
Proof.
  intros Hsub. induction k as [|c k IH]; [done|].
  rewrite filter_cons. destruct (decide (c ∉ l)) as [Hc|_].
  - destruct Hc. apply Hsub. by left.
  - apply IH. intros c' Hc'. apply Hsub. by right.
Qed.

(** A table merged with [new] a second time, [new] being what it was the
    first time or, for the store given to itself, the table itself: where
    the second merge appends rows, it leaves the rows the table had, each
    once. *)
Lemma append_table_twice (t0 t1 t2 new1 new2 : option DataFrame) :
  new2 = new1 ∨ new1 = t0 ∧ new2 = t1 →
  append_table t0 new1 = Ok t1 →
  append_table t1 new2 = Ok t2 →
  match t1, new2 with
  | Some d1, Some new =>
      if empty d1 || empty new then t2 = t1
      else ∃ d2, t2 = Some d2
                 ∧ columns d2 = columns d1
                 ∧ rows d2 = unique (rows d1 ++ rows new)
                 ∧ rows d2 = unique (rows d1)
  | _, _ => t2 = t1
  end.
Proof.
  intros Hnew H1 H2.
  destruct t1 as [d1|]; [|done].
  destruct (empty d1) eqn:He1.
  { assert (Hsrc : new2 = Some d1).
    { destruct Hnew as [->|[_ ?]]; [|done].
      unfold append_table in H1. destruct t0 as [c0|]; [|done].
      destruct (empty c0) eqn:He0; [by injection H1|].
      destruct new1 as [n|]; [|congruence].
      destruct (empty n) eqn:Hen; [congruence|].
      injection H1 as H1. rewrite <- H1 in He1.
      by rewrite empty_append in He1. }
    subst new2. rewrite He1. cbn [orb]. cbn in H2. rewrite He1 in H2.
    by injection H2 as <-. }
  destruct new2 as [new|]; [|cbn in H2; rewrite He1 in H2; by injection H2].
  destruct (empty new) eqn:Hen.
  { cbn [orb]. cbn in H2. rewrite He1, Hen in H2. by injection H2 as <-. }
  cbn [orb]. cbn in H2. rewrite He1, Hen in H2. injection H2 as <-.
  assert (Hsub : (∀ c, c ∈ columns new → c ∈ columns d1)
                 ∧ ∀ r, r ∈ rows new → r ∈ rows d1).
  { destruct Hnew as [<-|[_ [= ->]]]; [|done].
    unfold append_table in H1. destruct t0 as [c0|]; [|done].
    destruct (empty c0) eqn:He0; [by injection H1 as ->|].
    rewrite Hen in H1. injection H1 as <-. cbn [drop_duplicates append columns rows].
    split.
    - intros c Hc. rewrite elem_of_app, list_elem_of_filter.
      destruct (decide (c ∈ columns c0)); tauto.
    - intros r Hr. rewrite elem_of_unique, elem_of_app. by right. }
  destruct Hsub as [Hcols Hrows].
  eexists. split; [done|]. cbn [drop_duplicates append columns rows].
  split_and!; [|done|by apply unique_app_subset].
  rewrite filter_not_elem_nil by done. by rewrite app_nil_r.
Qed.

(** Running the loop of [append_from] a second time on the store the first
    run left: an attribute is either left alone by a second run that fails
    before it, or merged by both runs. *)
Lemma append_loop_twice (attrs : list attr) (self s1 s2 : Odm)
    (mapper : source) (r1 r2 : result ()) (a : attr) :
  NoDup attrs → a ∈ attrs →
  append_loop attrs self mapper = (s1, r1) →
  append_loop attrs s1 mapper = (s2, r2) →
  (r2 ≠ Ok () ∧ getattr s2 a = getattr s1 a)
  ∨ (append_table (getattr self a) (source_attr self mapper a)
     = Ok (getattr s1 a)
     ∧ append_table (getattr s1 a) (source_attr s1 mapper a)
       = Ok (getattr s2 a)).
Proof.
  intros Hnd Ha H1 H2.
  destruct (append_loop_inv _ _ _ _ _ Hnd H1)
    as (pre1 & rest1 & Hattrs1 & Hpre1 & Hkeep1 & Hr1).
  destruct (append_loop_inv _ _ _ _ _ Hnd H2)
    as (pre2 & rest2 & Hattrs2 & Hpre2 & Hkeep2 & Hr2).
  clear H1 H2.
  destruct (decide (a ∈ pre2)) as [Ha2|Ha2].
  2:{ left. split; [|by apply Hkeep2]. intros ->. subst rest2.
      rewrite app_nil_r in Hattrs2. by subst pre2. }
  right.
  assert (Ha1 : a ∈ pre1).
  { destruct (decide (a ∈ pre1)) as [|Hn]; [done|exfalso].
    (* the first run stopped before [a]; the second stops there too *)
    destruct r1 as [|e1].
    { subst rest1. rewrite app_nil_r in Hattrs1. apply Hn.
      rewrite <- Hattrs1, Hattrs2. apply elem_of_app. by left. }
    destruct Hr1 as (b & rest' & -> & Hb & _).
    assert (Hb1 : getattr s1 b = None).
    { rewrite Hkeep1; [done|]. intros Hin. rewrite Hattrs1 in Hnd.
      apply NoDup_app in Hnd as (_ & Hdisj & _). apply (Hdisj b Hin). by left. }
    assert (Hb2 : b ∈ pre2).
    { (* [pre1 ++ [b]] is a prefix of [pre2] *)
      rewrite Hattrs1 in Hattrs2. clear -Hattrs2 Ha2 Hn.
      revert pre2 Hattrs2 Ha2.
      induction pre1 as [|x pre1 IH]; intros pre2 Heq Ha2.
      - destruct pre2 as [|y pre2]; [by apply elem_of_nil in Ha2|].
        simpl in Heq. injection Heq as -> _. by left.
      - destruct pre2 as [|y pre2]; [by apply elem_of_nil in Ha2|].
        simpl in Heq. injection Heq as -> Heq. right.
        apply IH; [|done|].
        + intros Hin. apply Hn. by right.
        + apply elem_of_cons in Ha2 as [->|Ha2]; [|done].
          destruct Hn. by left. }
    specialize (Hpre2 b Hb2). rewrite Hb1 in Hpre2. done. }
  split; [by apply Hpre1|by apply Hpre2].
Qed.

(** C7.  Appending a source a second time leaves every table of the store
    with the columns and the set of rows the first append left.  As lists
    of rows: the table after the second append is the table after the
    first, or that table with every row kept once; and where the second
    append merges rows into a table (the call succeeds, the table and the
    source's table have rows), what it leaves is the rows the table had
    followed by the rows of the source with every duplicate dropped, which
    is the rows the table had, each once.  (An empty store takes the table
    of the source as it is on the first append; duplicate rows it has go
    with the second.) *)
Theorem append_from_twice (self : Odm) (mapper : source) (a : attr) :
  let s1 := (append_from self mapper).1 in
  let s2 := (append_from s1 mapper).1 in
  same_rows (getattr s2 a) (getattr s1 a)
  ∧ (getattr s2 a = getattr s1 a
     ∨ ∃ d1 d2, getattr s1 a = Some d1 ∧ getattr s2 a = Some d2
                ∧ columns d2 = columns d1 ∧ rows d2 = unique (rows d1))
  ∧ (∀ d1 new : DataFrame,
       (append_from s1 mapper).2 = Ok () →
       getattr s1 a = Some d1 → empty d1 = false →
       source_attr s1 mapper a = Some new → empty new = false →
       ∃ d2, getattr s2 a = Some d2
             ∧ columns d2 = columns d1
             ∧ rows d2 = unique (rows d1 ++ rows new)
             ∧ rows d2 = unique (rows d1)
             ∧ NoDup (rows d2)).
Proof.
  cbv zeta. unfold append_from.
  destruct (source_validates mapper); cbn [negb fst snd];
    [|split_and!; [apply same_rows_refl|by left|done]].
  destruct (append_loop self_attrs self mapper) as [s1 r1] eqn:H1; cbn [fst].
  destruct (append_loop self_attrs s1 mapper) as [s2 r2] eqn:H2; cbn [fst snd].
  destruct (append_loop_twice _ _ _ _ _ _ _ a NoDup_self_attrs
              (elem_of_self_attrs a) H1 H2) as [[Hr2 Hsame]|[Ht1 Ht2]].
  { rewrite Hsame. split_and!; [apply same_rows_refl|by left|done]. }
  assert (Hnew : source_attr s1 mapper a = source_attr self mapper a
                 ∨ source_attr self mapper a = getattr self a
                   ∧ source_attr s1 mapper a = getattr s1 a)
    by (destruct mapper; [by left|by left|by right]).
  pose proof (append_table_twice _ _ _ _ _ Hnew Ht1 Ht2) as Htwice.
  destruct (getattr s1 a) as [d1|] eqn:Hd1;
    [|rewrite Htwice; split_and!; [done|by left|done]].
  destruct (source_attr s1 mapper a) as [new|] eqn:Hsrc;
    [|rewrite Htwice; split_and!; [apply same_rows_refl|by left|done]].
  destruct (empty d1 || empty new) eqn:He.
  { rewrite Htwice. split_and!; [apply same_rows_refl|by left|].
    intros d1' new' _ [= <-] He1 [= <-] Hen. by rewrite He1, Hen in He. }
  destruct Htwice as (d2 & -> & Hcols & Hrows & Hrows').
  split_and!.
  - split; [done|]. intros r. by rewrite Hrows', elem_of_unique.
  - right. by exists d1, d2.
  - intros d1' new' _ [= <-] _ [= <-] _. exists d2.
    split_and!; try done. rewrite Hrows'. apply NoDup_unique.
Qed.

Lemma append_from_twice_witness :
  ∃ d1 d2,
    sample (append_from fresh_store (FromMapper repeating_lab)).1 = Some d1
    ∧ sample (append_from
                (append_from fresh_store (FromMapper repeating_lab)).1
                (FromMapper repeating_lab)).1 = Some d2
    ∧ length (rows d1) = 2%nat
    ∧ length (rows d2) = 1%nat.
Proof.
  destruct (proj2 (proj2 (append_from_twice fresh_store
                            (FromMapper repeating_lab) a_sample))
              (mkDataFrame ["sampleID"; "siteID"]
                 [ {[ "sampleID" := VStr "s1"; "siteID" := VStr "qc_1" ]};
                   {[ "sampleID" := VStr "s1"; "siteID" := VStr "qc_1" ]} ])
              (mkDataFrame ["sampleID"; "siteID"]
                 [ {[ "sampleID" := VStr "s1"; "siteID" := VStr "qc_1" ]};
                   {[ "sampleID" := VStr "s1"; "siteID" := VStr "qc_1" ]} ]))
    as (d2 & Hd2 & _ & _ & Hrows & _); try reflexivity.
  eexists _, d2. split; [reflexivity|]. split; [exact Hd2|].
  split; [reflexivity|]. rewrite Hrows. reflexivity.
Defined.

(** ** The pivot *)

Lemma assign_existing (df : DataFrame) (c : string) (f : row → option value) :
  c ∈ columns df → columns (assign df c f) = columns df.
Proof. intros Hc. unfold assign; simpl. by rewrite decide_True. Qed.


Lemma assign_rows (df : DataFrame) (c : string) (f : row → option value) :
  rows (assign df c f) = (λ r, partial_alter (λ _, f r) c r) <$> rows df.
Proof. done. Qed.


Lemma clean_loop_spec (qualifiers : list string) (df : DataFrame) :
  (∀ q, q ∈ qualifiers → q ∈ columns df) →
  ∃ out, clean_loop df qualifiers = Ok out
         ∧ columns out = columns df
         ∧ rows out = rewrite_cells clean_cell qualifiers <$> rows df.
Proof.
  revert df. induction qualifiers as [|q qs IH]; intros df Hin; simpl.
  - exists df. split_and!; try done. by rewrite list_fmap_id.
  - rewrite decide_True by (apply Hin; by left).
    destruct (IH (assign df q (λ r, clean_cell q (r !! q)))) as (out & -> & Hc & Hr).
    { intros q' Hq'. rewrite assign_existing by (apply Hin; by left).
      apply Hin. by right. }
    exists out. split; [done|].
    rewrite Hc, Hr, assign_existing by (apply Hin; by left). split; [done|].
    rewrite assign_rows, <- list_fmap_compose. done.
Qed.

Lemma astype_loop_spec (qualifiers : list string) (df : DataFrame) :
  (∀ q, q ∈ qualifiers → q ∈ columns df) →
  let out := foldl (λ d q, assign d q (λ r, Some (VStr (astype_str (r !! q)))))
                   df qualifiers in
  columns out = columns df
  ∧ rows out
    = rewrite_cells (λ _ c, Some (VStr (astype_str c))) qualifiers <$> rows df.
Proof.
  revert df. induction qualifiers as [|q qs IH]; intros df Hin; simpl.
  - split; [done|]. by rewrite list_fmap_id.
  - destruct (IH (assign df q (λ r, Some (VStr (astype_str (r !! q))))))
      as [Hc Hr].
    { intros q' Hq'. rewrite assign_existing by (apply Hin; by left).
      apply Hin. by right. }
    rewrite Hc, Hr, assign_existing by (apply Hin; by left). split; [done|].
    rewrite assign_rows, <- list_fmap_compose. done.
Qed.





Lemma drop_spec (df : DataFrame) (cs : list string) :
  (∀ c, c ∈ cs → c ∈ columns df) →
  drop df cs
  = Ok (mkDataFrame (filter (λ c, c ∉ cs) (columns df))
                    ((λ r : row, foldr delete r cs) <$> rows df)).
Proof.
  intros Hin. unfold drop.
  destruct (list_find _ cs) as [[i c]|] eqn:Hfind; [|done].
  apply list_find_Some in Hfind as (Hc%list_elem_of_lookup_2 & Hn & _).
  by destruct Hn; apply Hin.
Qed.



Lemma empty_false_rows (df : DataFrame) (f : row → row) :
  empty df = false → empty (mkDataFrame (columns df) (f <$> rows df)) = false.
Proof. unfold empty; simpl. by destruct (columns df), (rows df). Qed.




(** ** The fan-out of multi-site samples *)

Lemma set_iter_go_perm (pick : list string → nat) (l : list string) :
  set_iter_go pick (length l) l ≡ₚ l.
Proof.
  remember (length l) as n eqn:Hn. revert l Hn.
  induction n as [|n IH]; intros l Hn.
  - by destruct l.
  - simpl.
    assert (Hk : (pick l `mod` length l < length l)%nat)
      by (apply Nat.mod_upper_bound; lia).
    destruct (lookup_lt_is_Some_2 l _ Hk) as [x Hx]. rewrite Hx.
    etrans; [|symmetry; apply (delete_Permutation l _ x Hx)].
    apply perm_skip. apply IH. rewrite length_delete by eauto. lia.
Qed.

Lemma set_iter_perm (pick : list string → nat) (l : list string) :
  set_iter pick l ≡ₚ unique l.
Proof. apply set_iter_go_perm. Qed.

Lemma str_split_nonempty (sep : ascii) (s : string) : str_split sep s ≠ [].
Proof.
  destruct s as [|a s]; simpl; [done|].
  destruct (decide (a = sep)); [done|]. by destruct (str_split sep s).
Qed.

Lemma site_ids_nonempty (pick : list string → nat) (sites : string) :
  site_ids pick sites ≠ [].
Proof.
  unfold site_ids. intros Hnil.
  pose proof (set_iter_perm pick (strip <$> str_split ";" sites)) as Hp.
  rewrite Hnil in Hp. apply Permutation_nil_l in Hp. symmetry in Hp.
  apply unique_nil_inv, fmap_nil_inv in Hp. by apply str_split_nonempty in Hp.
Qed.

Lemma current_write (st : parse_state) (d : DataFrame) : current (write st d) = d.
Proof. unfold current, write. by destruct (rebound st). Qed.

Lemma add_site_rows_spec (st : parse_state) (i : nat) (r : row)
    (site_ids : list string) :
  rows (current st) !! i = Some r →
  ∃ st', add_site_rows st i site_ids = Ok st'
         ∧ columns (current st') = columns (current st)
         ∧ rows (current st')
           = rows (current st)
             ++ ((λ site_id, <["siteID" := VStr site_id]> r) <$> site_ids).
Proof.
  revert st. induction site_ids as [|id ids IH]; intros st Hi; simpl.
  - exists st. by rewrite app_nil_r.
  - rewrite Hi.
    destruct (IH (rebind st (append_row (current st) (<["siteID":=VStr id]> r))))
      as (st' & -> & Hc & Hr).
    { simpl. by apply lookup_app_l_Some. }
    exists st'. split; [done|]. rewrite Hc, Hr. simpl.
    by rewrite <- app_assoc.
Qed.

(** The dtype of a column depends on which kinds of cells it has, and the
    answer of [_is_mixed_type] on the dtypes of the columns. *)
Lemma column_dtype_ext (df df' : DataFrame) (c : string) :
  (∀ k, k ∈ cell_kinds df c ↔ k ∈ cell_kinds df' c) →
  column_dtype df c = column_dtype df' c.
Proof.
  intros Hk. unfold column_dtype.
  by rewrite !(bool_decide_ext _ _ (Hk _)).
Qed.

Lemma is_mixed_type_ext (df df' : DataFrame) :
  columns df = columns df' →
  (∀ c k, k ∈ cell_kinds df c ↔ k ∈ cell_kinds df' c) →
  _is_mixed_type df = _is_mixed_type df'.
Proof.
  intros Hc Hk. unfold _is_mixed_type. rewrite Hc.
  rewrite (list_fmap_ext (column_dtype df) (column_dtype df') (columns df'));
    [done|].
  intros _ c _. apply column_dtype_ext, Hk.
Qed.

Lemma cell_kind_site (r : row) (sites site_id c : string) :
  r !! "siteID" = Some (VStr sites) →
  cell_kind (<["siteID" := VStr site_id]> r !! c) = cell_kind (r !! c).
Proof.
  intros Hr. destruct (decide (c = "siteID")) as [->|Hc].
  - by rewrite lookup_insert_eq, Hr.
  - by rewrite lookup_insert_ne.
Qed.

(** What the body of the loop does to a row with several sites changes the
    dtype of no column. *)
Lemma is_mixed_type_spread (df df' : DataFrame) (treated todo extra : list row)
    (r : row) (sites first : string) (others : list string) :
  columns df' = columns df →
  rows df = treated ++ r :: todo ++ extra →
  rows df'
  = treated ++ <["siteID" := VStr first]> r :: todo ++ extra
    ++ ((λ site_id, <["siteID" := VStr site_id]> r) <$> others) →
  r !! "siteID" = Some (VStr sites) →
  _is_mixed_type df' = _is_mixed_type df.
Proof.
  intros Hc Hr Hr' Hsites. apply is_mixed_type_ext; [done|].
  intros c k. unfold cell_kinds. rewrite Hr, Hr'.
  rewrite !fmap_app, !fmap_cons, !fmap_app, <- list_fmap_compose.
  rewrite !elem_of_app, !elem_of_cons, !elem_of_app.
  rewrite (cell_kind_site r sites first c Hsites).
  split; [|tauto].
  intros [?|[?|[?|[?|Hin]]]]; try tauto.
  apply list_elem_of_fmap in Hin as (id & -> & _).
  right. left. cbn. by rewrite (cell_kind_site r sites id c Hsites).
Qed.

(** The loop of [_parse_sample] on a table that is not of mixed type: the
    rows before position [i] have been treated, [todo] are still to come,
    and [extra] are the copies made so far. *)
Lemma spread_loop_spec (pick : list string → nat) (todo : list row) :
  ∀ (st : parse_state) (i : nat) (treated extra : list row),
    _is_mixed_type (current st) = false →
    (∀ r, r ∈ todo → ∃ sites, r !! "siteID" = Some (VStr sites)) →
    rows (current st) = treated ++ todo ++ extra →
    length treated = i →
    ∃ st', spread_loop pick st i todo = (st', Ok ())
           ∧ columns (current st') = columns (current st)
           ∧ rows (current st')
             = treated ++ (kept_row pick <$> todo)
               ++ extra ++ (todo ≫= extra_rows pick).
Proof.
  induction todo as [|r todo IH];
    intros st i treated extra Hmixed Hstr Hrows Hlen.
  - exists st. simpl. by rewrite app_nil_r.
  - destruct (Hstr r) as [sites Hsites]; [by left|].
    assert (Hstr' : ∀ r', r' ∈ todo → ∃ s, r' !! "siteID" = Some (VStr s))
      by (intros r' Hr'; apply Hstr; by right).
    simpl. unfold spread_sites. rewrite Hsites.
    unfold kept_row, extra_rows, multi_site. rewrite Hsites.
    destruct (str_contains ";" sites) eqn:Hmulti.
    + fold (site_ids pick sites).
      destruct (site_ids pick sites) as [|first others] eqn:Hids;
        [by apply site_ids_nonempty in Hids|].
      rewrite Hmixed.
      set (st1 := write st (set_cell (current st) i "siteID" (VStr first))).
      assert (Hrows1 : rows (current st1)
                = treated ++ <["siteID":=VStr first]> r :: todo ++ extra).
      { subst st1. rewrite current_write. simpl. rewrite Hrows.
        rewrite alter_app_r_alt by lia.
        replace (i - length treated)%nat with 0%nat by lia. done. }
      destruct (add_site_rows_spec st1 i (<["siteID":=VStr first]> r) others)
        as (st2 & -> & Hc2 & Hr2).
      { rewrite Hrows1. rewrite lookup_app_r by lia.
        replace (i - length treated)%nat with 0%nat by lia. done. }
      assert (Hc1 : columns (current st1) = columns (current st))
        by (subst st1; by rewrite current_write).
      destruct (IH st2 (S i) (treated ++ [<["siteID":=VStr first]> r])
                   (extra ++ ((λ site_id, <["siteID":=VStr site_id]> r) <$> others)))
        as (st' & -> & Hc' & Hr'); [|done| |rewrite length_app; simpl; lia|].
      { rewrite <- Hmixed.
        apply (is_mixed_type_spread _ _ treated todo extra r sites first others);
          [by rewrite Hc2|exact Hrows| |done].
        rewrite Hr2, Hrows1.
        rewrite (list_fmap_ext _ (λ site_id, <["siteID":=VStr site_id]> r) others)
          by (intros _ id _; apply insert_insert_eq).
        rewrite <- !app_assoc. simpl. by rewrite <- !app_assoc. }
      { rewrite Hr2, Hrows1.
        rewrite (list_fmap_ext _ (λ site_id, <["siteID":=VStr site_id]> r) others)
          by (intros _ id _; apply insert_insert_eq).
        rewrite <- !app_assoc. simpl. by rewrite <- !app_assoc. }
      exists st'. split; [done|]. split.
      { by rewrite Hc', Hc2. }
      rewrite Hr'. rewrite <- !app_assoc. simpl. done.
    + destruct (IH st (S i) (treated ++ [r]) extra)
        as (st' & -> & Hc' & Hr'); [done|done| |rewrite length_app; simpl; lia|].
      { rewrite Hrows. by rewrite <- app_assoc. }
      exists st'. split; [done|]. split; [done|].
      rewrite Hr'. rewrite <- !app_assoc. simpl. done.
Qed.

Lemma _parse_sample_rows (pick : list string → nat) (self : Odm)
    (df : DataFrame) :
  sample self = Some df → empty df = false → "siteID" ∈ columns df →
  _is_mixed_type df = false →
  (∀ r, r ∈ rows df → ∃ sites, r !! "siteID" = Some (VStr sites)) →
  ∃ out, (_parse_sample pick self).2 = Ok out
         ∧ columns out = String.app "Sample." <$> columns df
         ∧ rows out
           = kmap (M2 := gmap string) (String.app "Sample.")
               <$> ((kept_row pick <$> rows df)
                    ++ (rows df ≫= extra_rows pick)).
Proof.
  intros Hs He Hc Hmixed Hstr. unfold _parse_sample. rewrite Hs, He.
  rewrite decide_True by done.
  destruct (spread_loop_spec pick (rows df) (mkParseState df None) 0 [] [])
    as (st' & -> & Hc' & Hr'); [done|done|simpl; by rewrite app_nil_r|done|].
  simpl in *. eexists. split; [done|]. simpl. by rewrite Hc', Hr'.
Qed.

(** The loop of [_parse_sample] on a table of mixed type: the rows before
    the first that names several sites are passed over, and at that row the
    assignment raises; nothing has been written. *)
Lemma spread_loop_mixed (pick : list string → nat) (todo : list row) :
  ∀ (st : parse_state) (i : nat),
    _is_mixed_type (current st) = true →
    (∀ r, r ∈ todo → ∃ sites, r !! "siteID" = Some (VStr sites)) →
    (∃ r, r ∈ todo ∧ multi_site r ≠ None) →
    spread_loop pick st i todo = (st, Raise SettingWithCopyError).
Proof.
  induction todo as [|r todo IH]; intros st i Hmixed Hstr (r' & Hr' & Hmulti).
  - by apply elem_of_nil in Hr'.
  - destruct (Hstr r) as [sites Hsites]; [by left|].
    simpl. unfold spread_sites. rewrite Hsites.
    destruct (str_contains ";" sites) eqn:Hsemi.
    + fold (site_ids pick sites).
      destruct (site_ids pick sites) as [|first others] eqn:Hids;
        [by apply site_ids_nonempty in Hids|].
      by rewrite Hmixed.
    + apply IH; [done|intros r0 Hr0; apply Hstr; by right|].
      exists r'. split; [|done].
      apply elem_of_cons in Hr' as [->|Hr']; [|done].
      destruct Hmulti. unfold multi_site. by rewrite Hsites, Hsemi.
Qed.

(** C2.  [_parse_sample] does not fan out the samples of a table that has
    columns of more than one dtype, as a sample table with its dates has:
    the module sets the option [chained_assignment] to 'raise', and at the
    first row that names several sites [df["siteID"].iloc[i] = ...] raises
    before it writes.  The call ends with that error and returns no table,
    and the store is as it was.  So it is for the sample taken at qc_1;qc_2
    once its table has a column of timestamps. *)
Theorem parse_sample_mixed_dtypes (pick : list string → nat) :
  (∀ (self : Odm) (df : DataFrame),
     sample self = Some df → empty df = false → "siteID" ∈ columns df →
     _is_mixed_type df = true →
     (∀ r, r ∈ rows df → ∃ sites, r !! "siteID" = Some (VStr sites)) →
     (∃ r, r ∈ rows df ∧ multi_site r ≠ None) →
     _parse_sample pick self = (self, Raise SettingWithCopyError))
  ∧ _is_mixed_type dated_sample = true
  ∧ _parse_sample pick dated_two_site_store
    = (dated_two_site_store, Raise SettingWithCopyError).
Proof.
  assert (Hraise : ∀ (self : Odm) (df : DataFrame),
     sample self = Some df → empty df = false → "siteID" ∈ columns df →
     _is_mixed_type df = true →
     (∀ r, r ∈ rows df → ∃ sites, r !! "siteID" = Some (VStr sites)) →
     (∃ r, r ∈ rows df ∧ multi_site r ≠ None) →
     _parse_sample pick self = (self, Raise SettingWithCopyError)).
  { intros self df Hs He Hc Hmixed Hstr Hmulti.
    unfold _parse_sample. rewrite Hs, He, decide_True by done.
    rewrite (spread_loop_mixed pick (rows df) (mkParseState df None) 0)
      by done.
    cbn [stored mbind result_bind]. by rewrite setattr_sample_same. }
  split; [exact Hraise|]. split; [by vm_compute|].
  apply (Hraise dated_two_site_store dated_sample).
  - reflexivity.
  - reflexivity.
  - compute_done.
  - by vm_compute.
  - intros r ->%list_elem_of_singleton. by exists "qc_1;qc_2".
  - eexists. split; [by left|]. by vm_compute.
Qed.

(** X24.  On a sample table with rows that is not of mixed type and whose
    site field is text, [_parse_sample] returns, under the prefix
    [Sample.], the rows of the table with one site each, followed by the
    copies made for the other sites; the sites of a row that names several
    are the distinct identifiers between the semicolons, one kept on the row
    and one copy of the row per other identifier, a copy differing from the
    row in the site only; a row with the sites qc_1;qc_2 gives the two rows
    for qc_1 and qc_2; the table grows by the number of other
    identifiers. *)
Theorem parse_sample_fan_out (pick : list string → nat) :
  (∀ (self : Odm) (df : DataFrame),
     sample self = Some df → empty df = false → "siteID" ∈ columns df →
     _is_mixed_type df = false →
     (∀ r, r ∈ rows df → ∃ sites, r !! "siteID" = Some (VStr sites)) →
     ∃ out, (_parse_sample pick self).2 = Ok out
            ∧ columns out = String.app "Sample." <$> columns df
            ∧ rows out
              = kmap (M2 := gmap string) (String.app "Sample.")
                  <$> ((kept_row pick <$> rows df)
                       ++ (rows df ≫= extra_rows pick))
            ∧ length (rows out)
              = (length (rows df)
                 + sum_list ((λ r, length (extra_rows pick r)) <$> rows df))%nat)
  ∧ (∀ (r : row) (sites : string),
       multi_site r = Some sites →
       ∃ first others,
         first :: others ≡ₚ unique (strip <$> str_split ";" sites)
         ∧ kept_row pick r = <["siteID" := VStr first]> r
         ∧ extra_rows pick r
           = (λ site_id, <["siteID" := VStr site_id]> r) <$> others)
  ∧ (∀ r : row, multi_site r = None →
       kept_row pick r = r ∧ extra_rows pick r = [])
  ∧ (∀ r : row,
       r !! "siteID" = Some (VStr "qc_1;qc_2") →
       kept_row pick r :: extra_rows pick r
       ≡ₚ [<["siteID" := VStr "qc_1"]> r; <["siteID" := VStr "qc_2"]> r]).
Proof.
  assert (Hmulti : ∀ (r : row) (sites : string),
       multi_site r = Some sites →
       ∃ first others,
         first :: others ≡ₚ unique (strip <$> str_split ";" sites)
         ∧ kept_row pick r = <["siteID" := VStr first]> r
         ∧ extra_rows pick r
           = (λ site_id, <["siteID" := VStr site_id]> r) <$> others).
  { intros r sites Hm. unfold kept_row, extra_rows. rewrite Hm.
    destruct (site_ids pick sites) as [|first others] eqn:Hids;
      [by apply site_ids_nonempty in Hids|].
    exists first, others. split; [|done].
    rewrite <- Hids. apply set_iter_perm. }
  split_and!.
  - intros self df Hs He Hc Hmixed Hstr.
    destruct (_parse_sample_rows pick self df Hs He Hc Hmixed Hstr)
      as (out & Hout & Hcols & Hrows).
    exists out. split_and!; try done.
    rewrite Hrows, length_fmap, length_app, length_fmap. f_equal.
    clear. induction (rows df) as [|r l IH]; [done|].
    rewrite bind_cons, length_app, fmap_cons, IH. done.
  - exact Hmulti.
  - intros r Hm. unfold kept_row, extra_rows. by rewrite Hm.
  - intros r Hr.
    destruct (Hmulti r "qc_1;qc_2") as (first & others & Hp & -> & ->).
    { unfold multi_site. by rewrite Hr. }
    change (<["siteID":=VStr first]> r
            :: ((λ site_id, <["siteID":=VStr site_id]> r) <$> others))
      with ((λ site_id, <["siteID":=VStr site_id]> r) <$> (first :: others)).
    rewrite Hp. done.
Qed.

Lemma parse_sample_fan_out_witness :
  ∃ out, (_parse_sample (λ _, 0%nat) two_site_store).2 = Ok out
         ∧ length (rows out) = 2%nat.
Proof.
  destruct (proj1 (parse_sample_fan_out (λ _, 0%nat))
              two_site_store (one_sample "qc_1;qc_2"))
    as (out & Hout & _ & _ & Hlen).
  - reflexivity.
  - reflexivity.
  - compute_done.
  - reflexivity.
  - intros r Hr. apply list_elem_of_singleton in Hr as ->.
    exists "qc_1;qc_2". reflexivity.
  - exists out. split; [exact Hout|]. rewrite Hlen. reflexivity.
Defined.

(** ** The interval join *)

Lemma left_join_matched (sample site_measure : list row) (s m : row) :
  (s, Some m) ∈ left_join sample site_measure
  ↔ s ∈ sample ∧ m ∈ site_measure ∧ on_condition s m = true.
Proof.
  unfold left_join. rewrite list_elem_of_bind. split.
  - intros (s' & Hin & Hs').
    destruct (filter _ site_measure) as [|m0 ms] eqn:Hf.
    + by apply list_elem_of_singleton in Hin.
    + apply list_elem_of_fmap in Hin as (m' & [= -> ->] & Hm').
      rewrite <- Hf in Hm'. apply list_elem_of_filter in Hm' as [Hon Hm'].
      done.
  - intros (Hs & Hm & Hon). exists s. split; [|done].
    assert (Hin : m ∈ filter (λ m, on_condition s m = true) site_measure)
      by (by apply list_elem_of_filter).
    destruct (filter _ site_measure) as [|m0 ms]; [by apply elem_of_nil in Hin|].
    apply list_elem_of_fmap. by exists m.
Qed.

Lemma left_join_unmatched (sample site_measure : list row) (s : row) :
  (s, None) ∈ left_join sample site_measure
  ↔ s ∈ sample ∧ ∀ m, m ∈ site_measure → on_condition s m = false.
Proof.
  unfold left_join. rewrite list_elem_of_bind. split.
  - intros (s' & Hin & Hs').
    destruct (filter _ site_measure) as [|m0 ms] eqn:Hf.
    + apply list_elem_of_singleton in Hin as [= ->]. split; [done|].
      intros m Hm. apply not_true_is_false. intros Hon.
      assert (Hin : m ∈ filter (λ m, on_condition s' m = true) site_measure)
        by (by apply list_elem_of_filter).
      rewrite Hf in Hin. by apply elem_of_nil in Hin.
    + by apply list_elem_of_fmap in Hin as (m' & [=] & _).
  - intros (Hs & Hnone). exists s. split; [|done].
    destruct (filter _ site_measure) as [|m0 ms] eqn:Hf; [by left|].
    assert (Hin : m0 ∈ filter (λ m, on_condition s m = true) site_measure)
      by (rewrite Hf; by left).
    apply list_elem_of_filter in Hin as [Hon Hin].
    rewrite (Hnone m0 Hin) in Hon. done.
Qed.

Lemma on_condition_timestamps (s m : row) (t a b : Z) :
  m !! "SiteMeasure.dateTime" = Some (VTime t) →
  s !! "Sample.dateTimeStart" = Some (VTime a) →
  s !! "Sample.dateTimeEnd" = Some (VTime b) →
  on_condition s m = true
  ↔ microsecond a ≤ microsecond t ∧ microsecond t ≤ microsecond b.
Proof.
  intros Ht Ha Hb. unfold on_condition. rewrite Ht, Ha, Hb.
  unfold sql_between, sql_le.
  rewrite andb_true_iff, !bool_decide_eq_true. done.
Qed.

(** On dates that are timestamps or missing, the condition of the query is
    the interval of the specification. *)
Lemma on_condition_within (s m : row) :
  (∀ v, s !! "Sample.dateTimeStart" = Some v → ∃ t, v = VTime t) →
  (∀ v, s !! "Sample.dateTimeEnd" = Some v → ∃ t, v = VTime t) →
  (∀ v, m !! "SiteMeasure.dateTime" = Some v → ∃ t, v = VTime t) →
  on_condition s m = within_interval s m.
Proof.
  intros Ha Hb Ht. unfold on_condition, within_interval, sql_between.
  destruct (m !! "SiteMeasure.dateTime") as [vt|]; [|done].
  destruct (Ht vt eq_refl) as [t ->].
  destruct (s !! "Sample.dateTimeStart") as [va|]; [|done].
  destruct (Ha va eq_refl) as [a ->].
  destruct (s !! "Sample.dateTimeEnd") as [vb|]; [|done].
  destruct (Hb vb eq_refl) as [b ->].
  unfold sql_le. cbn.
  destruct (bool_decide_reflect (microsecond a ≤ microsecond t)),
    (bool_decide_reflect (microsecond t ≤ microsecond b)); cbn;
    [by rewrite bool_decide_true|rewrite bool_decide_false; tauto..].
Qed.

Lemma joined_rows_spec (sample site_measure : list row) :
  (∀ s m, s ∈ sample → m ∈ site_measure →
          on_condition s m = within_interval s m) →
  (λ p, read_sql_cell <$> joined_row p) <$> left_join sample site_measure
  = s ← sample;
    match filter (λ m, within_interval s m = true) site_measure with
    | [] => [read_sql_cell <$> s]
    | matches => (λ m : row, read_sql_cell <$> (s ∪ m)) <$> matches
    end.
Proof.
  intros Hon. unfold left_join.
  induction sample as [|s sample IH]; [done|].
  rewrite !bind_cons, fmap_app.
  rewrite IH by (intros s' m Hs' Hm; apply Hon; [by right|done]).
  f_equal.
  rewrite (filter_ext_in (λ m, on_condition s m = true)
             (λ m, within_interval s m = true) site_measure)
    by (intros m Hm; rewrite Hon; [done|by left|done]).
  destruct (filter _ site_measure) as [|m0 ms]; [done|].
  by rewrite <- list_fmap_compose.
Qed.

(** C5, as amended.  When both tables have rows and the dates are
    timestamps, the table [combine_sample_site_measure] returns has, for
    every sample row in order, one row for every site-measure row whose
    instant lies between the start and the end of the sample, bounds
    included, the three instants taken to the microsecond, and that row
    carries the cells of the sample and of the site measure as SQLite gives
    them back; a sample without such a site measure has one row with its
    own cells alone.  A site measure between the start and the end of a
    sample is joined to it, one on a bound included; when the three
    instants are whole microseconds, a site measure is joined exactly when
    it lies between the start and the end. *)
Theorem interval_join (sample site_measure : DataFrame) :
  empty sample = false → empty site_measure = false →
  "SiteMeasure.dateTime" ∈ columns site_measure →
  "Sample.dateTimeStart" ∈ columns sample →
  "Sample.dateTimeEnd" ∈ columns sample →
  (∀ (s : row) (v : value),
     s ∈ rows sample →
     s !! "Sample.dateTimeStart" = Some v ∨ s !! "Sample.dateTimeEnd" = Some v →
     ∃ t, v = VTime t) →
  (∀ (m : row) (v : value),
     m ∈ rows site_measure → m !! "SiteMeasure.dateTime" = Some v →
     ∃ t, v = VTime t) →
  ∃ out,
    combine_sample_site_measure sample site_measure = Ok out
    ∧ columns out = columns sample ++ columns site_measure
    ∧ rows out
      = (s ← rows sample;
         match filter (λ m, within_interval s m = true) (rows site_measure) with
         | [] => [read_sql_cell <$> s]
         | matches => (λ m : row, read_sql_cell <$> (s ∪ m)) <$> matches
         end)
    ∧ (∀ s m, s ∈ rows sample → m ∈ rows site_measure →
              within_interval s m = true →
              read_sql_cell <$> (s ∪ m) ∈ rows out)
    ∧ (∀ s, s ∈ rows sample →
            (∀ m, m ∈ rows site_measure → within_interval s m = false) →
            read_sql_cell <$> s ∈ rows out)
    ∧ (∀ (s m : row) (t a b : Z),
         m !! "SiteMeasure.dateTime" = Some (VTime t) →
         s !! "Sample.dateTimeStart" = Some (VTime a) →
         s !! "Sample.dateTimeEnd" = Some (VTime b) →
         (a ≤ t ≤ b → within_interval s m = true)
         ∧ (a `mod` 1000 = 0 → t `mod` 1000 = 0 → b `mod` 1000 = 0 →
            (within_interval s m = true ↔ a ≤ t ≤ b))).
Proof.
  intros Hs Hm H1 H2 H3 Hdates Hdate.
  assert (Hrows : (λ p, read_sql_cell <$> joined_row p)
                    <$> left_join (rows sample) (rows site_measure)
                  = s ← rows sample;
                    match filter (λ m, within_interval s m = true)
                                 (rows site_measure) with
                    | [] => [read_sql_cell <$> s]
                    | matches =>
                        (λ m : row, read_sql_cell <$> (s ∪ m)) <$> matches
                    end).
  { apply joined_rows_spec. intros s m Hs' Hm'. apply on_condition_within.
    - intros v Hv. apply (Hdates s v Hs'). by left.
    - intros v Hv. apply (Hdates s v Hs'). by right.
    - intros v Hv. by apply (Hdate m v Hm'). }
  eexists. split.
  { unfold combine_sample_site_measure. rewrite Hs, Hm. simpl.
    by rewrite decide_True. }
  cbn [columns rows]. rewrite Hrows. split_and!; [done|done|..].
  - intros s m Hs' Hm' Hin. apply list_elem_of_bind. exists s. split; [|done].
    assert (Hf : m ∈ filter (λ m, within_interval s m = true)
                        (rows site_measure))
      by (by apply list_elem_of_filter).
    destruct (filter _ (rows site_measure)) as [|m0 ms];
      [by apply elem_of_nil in Hf|].
    apply list_elem_of_fmap. by exists m.
  - intros s Hs' Hnone. apply list_elem_of_bind. exists s. split; [|done].
    rewrite filter_none; [by left|].
    intros m Hm' Hin. by rewrite Hnone in Hin.
  - intros s m t a b Ht Ha Hb. unfold within_interval.
    rewrite Ht, Ha, Hb, bool_decide_eq_true. unfold microsecond.
    split; [intros ?|intros ? ? ?]; Z.to_euclidean_division_equations; lia.
Qed.

Lemma interval_join_witness :
  ∃ merged,
    combine_sample_site_measure interval_sample three_site_measures = Ok merged
    ∧ (λ r : row, r !! "SiteMeasure.value") <$> rows merged
      = [Some (VNum 10000); Some (VNum 20000)]
    ∧ (λ r : row, r !! "Sample.sampleID") <$> rows merged
      = [Some (VStr "s1"); Some (VStr "s1")].
Proof.
  destruct (interval_join interval_sample three_site_measures)
    as (merged & Hmerged & _ & Hrows & _).
  - reflexivity.
  - reflexivity.
  - compute_done.
  - compute_done.
  - compute_done.
  - intros s v ->%list_elem_of_singleton [[= <-]|[= <-]]; by eexists.
  - intros m v Hm Hv. cbn in Hm.
    repeat (apply elem_of_cons in Hm as [->|Hm]);
      [..|by apply elem_of_nil in Hm]; injection Hv as <-; by eexists.
  - exists merged. split; [exact Hmerged|]. rewrite Hrows.
    split; vm_compute; reflexivity.
Defined.

(** C5 fails as it is stated below the microsecond: a site measure one
    nanosecond after the end of the sample is written to SQLite with the
    text of the end, and is joined. *)
Lemma interval_join_below_microsecond :
  ¬ (10000 ≤ 20001 ≤ 20000)
  ∧ ∃ merged r,
      combine_sample_site_measure interval_sample late_site_measure = Ok merged
      ∧ rows merged = [r]
      ∧ r !! "Sample.sampleID" = Some (VStr "s1")
      ∧ r !! "Sample.dateTimeEnd" = Some (VTime 20000)
      ∧ r !! "SiteMeasure.value" = Some (VNum 20001).
Proof.
  split; [lia|]. eexists _, _. split; [by vm_compute|].
  split; [reflexivity|]. split_and!; by vm_compute.
Qed.

(** ** The store after [combine_per_sample] *)

Lemma set_iter_two (pick : list string → nat) :
  set_iter pick ["qc_1"; "qc_2"] = ["qc_1"; "qc_2"]
  ∨ set_iter pick ["qc_1"; "qc_2"] = ["qc_2"; "qc_1"].
Proof.
  unfold set_iter.
  change (unique ["qc_1"; "qc_2"]) with ["qc_1"; "qc_2"].
  cbn [length set_iter_go].
  pose proof (Nat.mod_upper_bound (pick ["qc_1"; "qc_2"]) 2 ltac:(lia)) as Hk.
  destruct (pick ["qc_1"; "qc_2"] `mod` 2)%nat as [|[|k]]; [| |lia].
  - left. cbn [lookup list_lookup delete list_delete length].
    by rewrite Nat.mod_1_r.
  - right. cbn [lookup list_lookup delete list_delete length].
    by rewrite Nat.mod_1_r.
Qed.

Section store_effect.

Variable groupby_agg : string → DataFrame → result DataFrame.
Variable shape : Type.
Variable wkt_loads : string → option shape.
Variable shape_contains : shape → option Z * option Z → bool.
Variable pick : list string → nat.

(** [_parse_sample] on the store with one sample at two sites: the site kept
    is written into the stored table, the other gets a new row of the table
    returned. *)
Lemma parse_sample_two_sites :
  ∃ kept other,
    (kept = "qc_1" ∧ other = "qc_2" ∨ kept = "qc_2" ∧ other = "qc_1")
    ∧ _parse_sample pick two_site_store
      = (setattr two_site_store a_sample (Some (one_sample kept)),
         Ok (add_prefix "Sample."
               (mkDataFrame ["sampleID"; "siteID"]
                  (rows (one_sample kept) ++ rows (one_sample other))))).
Proof.
  pose proof (set_iter_two pick) as Hs.
  unfold _parse_sample.
  change (sample two_site_store) with (Some (one_sample "qc_1;qc_2")).
  cbv beta iota.
  change (empty (one_sample "qc_1;qc_2")) with false. cbv beta iota.
  rewrite decide_True by compute_done.
  change (rows (one_sample "qc_1;qc_2"))
    with [ ({[ "sampleID" := VStr "s1"; "siteID" := VStr "qc_1;qc_2" ]} : row) ].
  cbn [spread_loop]. unfold spread_sites.
  assert (Hsite : ({[ "sampleID" := VStr "s1"; "siteID" := VStr "qc_1;qc_2" ]}
                     : row) !! "siteID" = Some (VStr "qc_1;qc_2"))
    by reflexivity.
  rewrite Hsite. cbv beta iota.
  change (str_contains ";" "qc_1;qc_2") with true. cbv beta iota.
  change (strip <$> str_split ";" "qc_1;qc_2") with ["qc_1"; "qc_2"].
  destruct Hs as [Hs|Hs]; rewrite Hs.
  - exists "qc_1", "qc_2". split; [by left|]. vm_compute. reflexivity.
  - exists "qc_2", "qc_1". split; [by right|]. vm_compute. reflexivity.
Qed.

(** C9.  [combine_per_sample] on a store with a sample taken at two sites
    returns, and the sample table of the store is no longer the one it
    held: [_parse_sample] writes the one site it keeps through [df], which
    is still [self.sample] at that point. *)
Theorem combine_per_sample_changes_store :
  ∃ (merged : IndexedFrame) (site_id : string),
    combine_per_sample groupby_agg shape wkt_loads shape_contains pick
      two_site_store
    = (setattr two_site_store a_sample (Some (one_sample site_id)), Ok merged)
    ∧ (site_id = "qc_1" ∨ site_id = "qc_2")
    ∧ length (index merged) = 2%nat
    ∧ sample two_site_store = Some (one_sample "qc_1;qc_2")
    ∧ one_sample site_id ≠ one_sample "qc_1;qc_2".
Proof.
  destruct parse_sample_two_sites as (kept & other & Hsites & Hparse).
  assert (Hww : (ww ← _parse_ww_measure two_site_store;
                 agg_ww_measure_per_sample groupby_agg ww) = Ok no_rows)
    by reflexivity.
  unfold combine_per_sample. unfold bind_op at 1. cbv beta.
  rewrite Hww. cbv beta iota.
  unfold bind_op at 1. rewrite Hparse. cbv beta iota.
  destruct Hsites as [[-> ->]|[-> ->]].
  - eexists _, "qc_1". split; [vm_compute; reflexivity|].
    split; [by left|]. split; [reflexivity|]. split; [reflexivity|].
    by vm_compute.
  - eexists _, "qc_2". split; [vm_compute; reflexivity|].
    split; [by right|]. split; [reflexivity|]. split; [reflexivity|].
    by vm_compute.
Qed.

(** A second call finds one site in the sample and makes no copy: the
    sample is no longer consolidated for its other site. *)
Lemma parse_sample_after_first_call (site_id : string) :
  site_id = "qc_1" ∨ site_id = "qc_2" →
  (_parse_sample pick
     (setattr two_site_store a_sample (Some (one_sample site_id)))).2
  = Ok (add_prefix "Sample." (one_sample site_id)).
Proof. intros [-> | ->]; vm_compute; reflexivity. Qed.

End store_effect.

(** C8.  A grab sample that also carries a start and an end does not get
    its instant: the assignments that follow the one for grab samples apply
    to every row, so it gets the midpoint; with an end only it gets the
    end. *)
Theorem get_plot_datetime_grab_overwritten (t s e : Z) :
  get_plot_datetime
    (samples_of [sample_row "grb" (Some t) (Some s) (Some e);
                 sample_row "grb" (Some t) None (Some e);
                 sample_row "grb" (Some t) None None])
  = Ok [Some (VTime (s + (e - s) `quot` 2)); Some (VTime e); Some (VTime t)].
Proof. reflexivity. Qed.

(** For composite and passive samples the code does what the claim says. *)
Example get_plot_datetime_interval (s e : Z) :
  get_plot_datetime
    (samples_of [sample_row "cpTP24h" None (Some s) (Some e);
                 sample_row "ps" None None (Some e);
                 sample_row "cp" None (Some s) None])
  = Ok [Some (VTime (s + (e - s) `quot` 2)); Some (VTime e); None].
Proof. reflexivity. Qed.

(** ** Choice of the collection method *)

(** The example of the specification: 3 grab samples, the latest on
    2021-05-01 (day 18748), and 10 composite samples, the latest on
    2021-04-01 (day 18718).  The composite samples are some of the rows of
    the table and not all: their selection is marked as a copy, and the call
    ends on the assignment of their plot date. *)
Example get_cm_to_plot_threshold :
  get_cm_to_plot
    (samples_of (dated "grb" 2 18740 ++ dated "grb" 1 18748
                 ++ dated "cp" 9 18700 ++ dated "cp" 1 18718)) 7
  = Raise SettingWithCopyError.
Proof. vm_compute. reflexivity. Qed.

(** A table with samples of one method only: the method is chosen, with
    seven samples or without. *)
Example get_cm_to_plot_threshold_dropped :
  get_cm_to_plot (samples_of (dated "cp" 10 18718)) 7 = Ok (Some "cp")
  ∧ get_cm_to_plot (samples_of (dated "grb" 3 18748)) 7 = Ok (Some "grb").
Proof. vm_compute. done. Qed.

(** C3.  Seven composite samples with a plot date and an eighth with a start
    only: [sort_values] puts the missing plot date last, so the latest date
    of the method is read as missing and the method is dropped, although it
    has seven dated samples; nothing is selected. *)
Theorem get_cm_to_plot_undated_sample :
  get_latest_sample_date
    (samples_of (dated "cp" 7 18718 ++ [sample_row "cp" None (Some 0) None]))
  = Ok None
  ∧ get_cm_to_plot
      (samples_of (dated "cp" 7 18718 ++ [sample_row "cp" None (Some 0) None]))
      7
    = Ok None
  ∧ get_cm_to_plot (samples_of (dated "cp" 7 18718)) 7 = Ok (Some "cp").
Proof. vm_compute. done. Qed.

(** ** Severity levels *)











Lemma merge_weekly_dates (range : list Z) (weekly : list (Z * option Q))
    (d : Z) :
  d ∈ range → d ∈ (merge_weekly range weekly).*1.
Proof.
  intros Hd. unfold merge_weekly.
  destruct (filter (λ w : Z * option Q, w.1 = d) weekly) as [|w ms] eqn:Hf.
  - apply list_elem_of_fmap. exists (d, None). split; [done|].
    apply list_elem_of_bind. exists d. split; [|done]. rewrite Hf. by left.
  - apply list_elem_of_fmap. exists (d, w.2). split; [done|].
    apply list_elem_of_bind. exists d. split; [|done]. rewrite Hf. by left.
Qed.




Section severity.

Variable now : Z.
Variable strftime : Z → string.
Variable category_str : option nat → string.


End severity.


(** ** Loading and appending *)

Lemma load_loop_spec (keys : list attr) (self : Odm)
    (mapper_attrs : attr → option (option DataFrame)) :
  NoDup keys →
  (∀ a, a ∈ keys → mapper_attrs a ≠ Some None) →
  ∃ self', load_loop keys self mapper_attrs = (self', Ok ())
           ∧ ∀ a, getattr self' a
                  = match mapper_attrs a with
                    | Some (Some new_df) =>
                        if decide (a ∈ keys) then Some (drop_duplicates new_df)
                        else getattr self a
                    | _ => getattr self a
                    end.
Proof.
  intros Hnd. revert self.
  induction Hnd as [|key keys Hkey Hnd IH]; intros self Hsome; simpl.
  - exists self. split; [done|]. intros a.
    by destruct (mapper_attrs a) as [[t|]|].
  - assert (Hrest : ∀ a, a ∈ keys → mapper_attrs a ≠ Some None)
      by (intros a Ha; apply Hsome; by right).
    destruct (mapper_attrs key) as [[new_df|]|] eqn:Hk.
    + destruct (IH (setattr self key (Some (drop_duplicates new_df))) Hrest)
        as (self' & -> & Hget).
      exists self'. split; [done|]. intros a. rewrite Hget, getattr_setattr.
      destruct (decide (key = a)) as [<-|Hne].
      * rewrite Hk, decide_False by done. by rewrite decide_True by (by left).
      * destruct (mapper_attrs a) as [[t|]|]; try done.
        destruct (decide (a ∈ keys)).
        -- by rewrite decide_True by (by right).
        -- rewrite decide_False; [done|]. by intros [?|?]%elem_of_cons.
    + by destruct (Hsome key ltac:(by left)).
    + destruct (IH self Hrest) as (self' & -> & Hget).
      exists self'. split; [done|]. intros a. rewrite Hget.
      destruct (mapper_attrs a) as [[t|]|] eqn:Ha; try done.
      destruct (decide (a ∈ keys)).
      * by rewrite decide_True by (by right).
      * rewrite decide_False; [done|]. intros [->|?]%elem_of_cons; [|done].
        congruence.
Qed.

Lemma load_from_true (self : Odm)
    (mapper_attrs : attr → option (option DataFrame)) :
  (∀ a, mapper_attrs a ≠ Some None) →
  ∃ self', load_from self true mapper_attrs = (self', Ok ())
           ∧ ∀ a, getattr self' a
                  = match mapper_attrs a with
                    | Some (Some new_df) => Some (drop_duplicates new_df)
                    | _ => getattr self a
                    end.
Proof.
  intros Hsome. unfold load_from.
  destruct (load_loop_spec self_attrs self mapper_attrs NoDup_self_attrs)
    as (self' & -> & Hget); [by intros a _|].
  exists self'. split; [done|]. intros a. rewrite (Hget a).
  destruct (mapper_attrs a) as [[t|]|]; try done.
  by rewrite decide_True by apply elem_of_self_attrs.
Qed.

(** X1.  [load_from] replaces where [append_from] merges: a mapper that does
    not validate is passed over without an error and without a change; for a
    mapper that validates, every table the mapper holds takes the place of
    the store's table, whatever that was, with its duplicate rows dropped,
    and the tables the mapper does not hold stay. *)
Theorem load_from_replaces (self : Odm)
    (mapper_attrs : attr → option (option DataFrame)) :
  load_from self false mapper_attrs = (self, Ok ())
  ∧ ((∀ a, mapper_attrs a ≠ Some None) →
     ∃ self', load_from self true mapper_attrs = (self', Ok ())
              ∧ ∀ a, match mapper_attrs a with
                     | Some (Some new_df) =>
                         getattr self' a = Some (drop_duplicates new_df)
                         ∧ NoDup (rows (drop_duplicates new_df))
                         ∧ ∀ r, r ∈ rows (drop_duplicates new_df)
                                ↔ r ∈ rows new_df
                     | _ => getattr self' a = getattr self a
                     end).
Proof.
  split; [done|]. intros Hsome.
  destruct (load_from_true self mapper_attrs Hsome) as (self' & -> & Hget).
  exists self'. split; [done|]. intros a. specialize (Hget a).
  destruct (mapper_attrs a) as [[t|]|]; try done.
  split; [done|]. split; [apply NoDup_unique|].
  intros r. apply elem_of_unique.
Qed.

Lemma load_from_replaces_witness :
  ∃ self',
    load_from store_after_first_lab true (instance_dict second_lab)
    = (self', Ok ())
    ∧ getattr self' a_sample = Some (sample_at "s2" "qc_2")
    ∧ getattr self' a_ww_measure = Some no_rows.
Proof.
  destruct (proj2 (load_from_replaces store_after_first_lab
                     (instance_dict second_lab)))
    as (self' & Hload & Hget).
  - intros a. by destruct a.
  - exists self'. split; [exact Hload|]. split.
    + exact (proj1 (Hget a_sample)).
    + exact (proj1 (Hget a_ww_measure)).
Defined.

(** X2.  The check at the end of the module ([load_from], then
    [append_from] with the same mapper, then compare): appending the mapper
    a store was loaded from succeeds and changes no table. *)
Theorem load_then_append (self : Odm) (m : Mapper) :
  validates m = true →
  (∀ a, getattr (mapper_tables m) a ≠ None) →
  ∃ s1 s2,
    load_from self (validates m) (instance_dict m) = (s1, Ok ())
    ∧ append_from s1 (FromMapper m) = (s2, Ok ())
    ∧ ∀ a, same_rows (getattr s2 a) (getattr s1 a)
           ∧ (∀ t, getattr (mapper_tables m) a = Some t → columns t ≠ [] →
                   getattr s2 a = getattr s1 a).
Proof.
  intros Hv Hsome. rewrite Hv.
  destruct (load_from_true self (instance_dict m)) as (s1 & Hload & Hget).
  { intros a [= Ha]. by apply (Hsome a). }
  exists s1.
  assert (Hs1 : ∀ a, ∃ t, getattr (mapper_tables m) a = Some t
                          ∧ getattr s1 a = Some (drop_duplicates t)).
  { intros a. specialize (Hget a). unfold instance_dict in Hget.
    destruct (getattr (mapper_tables m) a) as [t|] eqn:Ht.
    - exists t. split; [done|]. apply Hget.
    - by destruct (Hsome a). }
  destruct (append_from s1 (FromMapper m)) as [s2 r] eqn:Happ.
  unfold append_from in Happ. cbn [source_validates] in Happ.
  rewrite Hv in Happ. cbn [negb] in Happ.
  destruct (append_loop_inv _ _ _ _ _ NoDup_self_attrs Happ)
    as (pre & rest & Hattrs & Hpre & _ & Hr).
  destruct r as [[]|e].
  2:{ destruct Hr as (b & rest' & _ & Hb & _).
      destruct (Hs1 b) as (t & _ & Hb'). congruence. }
  subst rest. rewrite app_nil_r in Hattrs. subst pre.
  exists s2. split; [done|]. split; [done|]. intros a.
  specialize (Hpre a (elem_of_self_attrs a)).
  destruct (Hs1 a) as (t & Ht & Ha). cbn [source_attr] in Hpre.
  rewrite Ha, Ht in Hpre. unfold append_table in Hpre.
  destruct (empty (drop_duplicates t)) eqn:He.
  - injection Hpre as <-. rewrite Ha. split.
    + simpl. split; [done|]. intros r. by rewrite elem_of_unique.
    + intros t' Ht' Hcols. rewrite Ht in Ht'. injection Ht' as <-. f_equal.
      unfold empty in He. simpl in He.
      destruct (columns t) as [|c cs] eqn:Hc; [done|].
      destruct (unique (rows t)) as [|r0 rs] eqn:Hu; [|done].
      apply unique_nil_inv in Hu. destruct t as [cols rws]; simpl in *.
      subst. done.
  - assert (Het : empty t = false).
    { unfold empty in *. simpl in He.
      destruct (columns t); [done|]. destruct (rows t); done. }
    rewrite Het in Hpre. injection Hpre as <-. rewrite Ha.
    assert (Heq : drop_duplicates (append (drop_duplicates t) t)
                  = drop_duplicates t).
    { unfold drop_duplicates, append. simpl. f_equal.
      - rewrite filter_none; [by rewrite app_nil_r|]. intros c Hc Hn. done.
      - apply unique_unique_app. }
    rewrite Heq. split; [apply same_rows_refl|done].
Qed.

Lemma load_then_append_witness :
  ∃ s1 s2,
    load_from fresh_store true (instance_dict second_lab) = (s1, Ok ())
    ∧ append_from s1 (FromMapper second_lab) = (s2, Ok ())
    ∧ getattr s2 a_sample = getattr s1 a_sample.
Proof.
  destruct (load_then_append fresh_store second_lab)
    as (s1 & s2 & Hload & Happ & Hsame).
  - reflexivity.
  - intros a. by destruct a.
  - exists s1, s2. split; [exact Hload|]. split; [exact Happ|].
    apply (proj2 (Hsame a_sample) (sample_at "s2" "qc_2")); [reflexivity|done].
Defined.

(** X3.  [append_from] never loses a row: whatever the source and however
    the call ends, a table of the store that had rows is still a table
    afterwards and holds every row and every column it held. *)
Theorem append_from_keeps_rows (self self' : Odm) (mapper : source)
    (r : result ()) (a : attr) (current_df : DataFrame) :
  append_from self mapper = (self', r) →
  getattr self a = Some current_df →
  empty current_df = false →
  ∃ out, getattr self' a = Some out
         ∧ (∀ row, row ∈ rows current_df → row ∈ rows out)
         ∧ (∀ c, c ∈ columns current_df → c ∈ columns out).
Proof.
  intros Happ Ha Hne. unfold append_from in Happ.
  destruct (source_validates mapper); cbn [negb] in Happ.
  2:{ injection Happ as <- _. by exists current_df. }
  destruct (append_loop_inv _ _ _ _ _ NoDup_self_attrs Happ)
    as (pre & rest & _ & Hpre & Hkeep & _).
  destruct (decide (a ∈ pre)) as [Hin|Hin].
  - specialize (Hpre a Hin). rewrite Ha in Hpre. unfold append_table in Hpre.
    rewrite Hne in Hpre.
    destruct (source_attr self mapper a) as [new|].
    + destruct (empty new).
      * injection Hpre as <-. by exists current_df.
      * injection Hpre as <-. eexists. split; [done|]. simpl. split.
        -- intros row Hrow. apply elem_of_unique, elem_of_app. by left.
        -- intros c Hc. apply elem_of_app. by left.
    + injection Hpre as <-. by exists current_df.
  - rewrite (Hkeep a Hin), Ha. by exists current_df.
Qed.

Lemma append_from_keeps_rows_witness :
  ∃ out, getattr (append_from store_after_first_lab (FromMapper second_lab)).1
           a_sample = Some out
         ∧ ∀ row, row ∈ rows (sample_at "s1" "qc_1") → row ∈ rows out.
Proof.
  destruct (append_from store_after_first_lab (FromMapper second_lab))
    as [self' r] eqn:Happ.
  destruct (append_from_keeps_rows store_after_first_lab self'
              (FromMapper second_lab) r a_sample (sample_at "s1" "qc_1")
              Happ eq_refl eq_refl)
    as (out & Hout & Hrows & _).
  exists out. split; [exact Hout|exact Hrows].
Defined.

(** X4.  What a successful [append_from] leaves in a table when the store
    and the source both had rows for it: the rows of the store followed by
    the rows of the source, each distinct row once, under the columns of the
    store followed by the new columns of the source. *)
Theorem append_from_union (self self' : Odm) (mapper : source) (a : attr)
    (current_df new_df : DataFrame) :
  append_from self mapper = (self', Ok ()) →
  getattr self a = Some current_df →
  source_attr self mapper a = Some new_df →
  empty current_df = false →
  empty new_df = false →
  ∃ out, getattr self' a = Some out
         ∧ NoDup (rows out)
         ∧ (∀ row, row ∈ rows out
                   ↔ row ∈ rows current_df ∨ row ∈ rows new_df)
         ∧ rows out
           = unique (rows current_df)
             ++ filter (λ row, row ∉ rows current_df) (unique (rows new_df))
         ∧ columns out
           = columns current_df
             ++ filter (λ c, c ∉ columns current_df) (columns new_df).
Proof.
  intros Happ Ha Hnew Hne Hne'. unfold append_from in Happ.
  destruct (source_validates mapper); cbn [negb] in Happ; [|done].
  destruct (append_loop_inv _ _ _ _ _ NoDup_self_attrs Happ)
    as (pre & rest & Hattrs & Hpre & _ & ->).
  rewrite app_nil_r in Hattrs. subst pre.
  specialize (Hpre a (elem_of_self_attrs a)).
  rewrite Ha, Hnew in Hpre. unfold append_table in Hpre.
  rewrite Hne, Hne' in Hpre. injection Hpre as <-.
  eexists. split; [done|]. simpl. split_and!.
  - apply NoDup_unique.
  - intros row. by rewrite elem_of_unique, elem_of_app.
  - apply unique_app.
  - done.
Qed.

Lemma append_from_union_witness :
  ∃ out,
    getattr (append_from two_site_store (FromMapper second_lab)).1 a_sample
    = Some out
    ∧ NoDup (rows out)
    ∧ rows out = rows (one_sample "qc_1;qc_2") ++ rows (sample_at "s2" "qc_2").
Proof.
  destruct (append_from_union two_site_store
              (append_from two_site_store (FromMapper second_lab)).1
              (FromMapper second_lab) a_sample
              (one_sample "qc_1;qc_2") (sample_at "s2" "qc_2"))
    as (out & Hout & Hnd & _ & Hrows & _).
  - vm_compute. reflexivity.
  - reflexivity.
  - reflexivity.
  - reflexivity.
  - reflexivity.
  - exists out. split; [exact Hout|]. split; [exact Hnd|].
    rewrite Hrows. vm_compute. reflexivity.
Defined.

(** X5.  A store whose tables are all empty takes the tables of the source
    as they are: nothing is merged and nothing is de-duplicated, and an
    attribute the source holds as [None] is [None] in the store
    afterwards. *)
Theorem append_from_empty_store (self : Odm) (mapper : source) :
  (∀ a, ∃ t, getattr self a = Some t ∧ empty t = true) →
  source_validates mapper = true →
  ∃ self', append_from self mapper = (self', Ok ())
           ∧ ∀ a, getattr self' a = source_attr self mapper a.
Proof.
  intros Hempty Hv. unfold append_from. rewrite Hv. cbn [negb].
  destruct (append_loop self_attrs self mapper) as [self' r] eqn:Happ.
  destruct (append_loop_inv _ _ _ _ _ NoDup_self_attrs Happ)
    as (pre & rest & Hattrs & Hpre & _ & Hr).
  destruct r as [[]|e].
  2:{ destruct Hr as (b & rest' & _ & Hb & _).
      destruct (Hempty b) as (t & Hb' & _). congruence. }
  subst rest. rewrite app_nil_r in Hattrs. subst pre.
  exists self'. split; [done|]. intros a.
  specialize (Hpre a (elem_of_self_attrs a)).
  destruct (Hempty a) as (t & Ha & He). rewrite Ha in Hpre.
  unfold append_table in Hpre. rewrite He in Hpre. by injection Hpre.
Qed.

Lemma append_from_empty_store_witness :
  ∃ self', append_from fresh_store (FromMapper first_lab) = (self', Ok ())
           ∧ getattr self' a_ww_measure = None.
Proof.
  destruct (append_from_empty_store fresh_store (FromMapper first_lab))
    as (self' & Happ & Hget).
  - intros a. exists no_rows. by destruct a.
  - reflexivity.
  - exists self'. split; [exact Happ|]. exact (Hget a_ww_measure).
Defined.

(** ** Where the pivot puts the values *)








Lemma lookup_foldr_delete_cols (r : row) (cs : list string) (c : string) :
  foldr delete r cs !! c = if decide (c ∈ cs) then None else r !! c.
Proof.
  induction cs as [|c' cs IH]; cbn [foldr].
  - by rewrite decide_False by apply not_elem_of_nil.
  - destruct (decide (c = c')) as [->|Hne].
    + rewrite lookup_delete_eq. by rewrite decide_True by (by left).
    + rewrite lookup_delete_ne, IH by done.
      destruct (decide (c ∈ cs)).
      * by rewrite decide_True by (by right).
      * rewrite decide_False; [done|]. by intros [?|?]%elem_of_cons.
Qed.



(** ** The parsers of the measures *)

Lemma remove_access_Ok (df : DataFrame) :
  empty df = false →
  ∃ out,
    __remove_access df = Ok out
    ∧ columns out
      = filter (λ c, str_contains "access" (lower c) ≠ true) (columns df)
    ∧ length (rows out) = length (rows df).
Proof.
  unfold __remove_access. intros ->.
  rewrite drop_spec by (by intros c [_ Hc]%list_elem_of_filter).
  eexists. split; [done|]. cbn [columns rows]. split.
  - apply filter_ext_in. intros c Hc. rewrite list_elem_of_filter. tauto.
  - by rewrite length_fmap.
Qed.

(** X7.  [__remove_access] never raises.  It returns an empty table as it
    is, access columns included; of a table with rows it keeps the rows and
    exactly the columns whose name does not contain access in any case, with
    their cells. *)
Theorem remove_access_spec (df : DataFrame) :
  (empty df = true → __remove_access df = Ok df)
  ∧ (empty df = false →
     ∃ out,
       __remove_access df = Ok out
       ∧ columns out
         = filter (λ c, str_contains "access" (lower c) ≠ true) (columns df)
       ∧ length (rows out) = length (rows df)
       ∧ ∀ (i : nat) (r : row),
           rows df !! i = Some r →
           ∃ r' : row,
             rows out !! i = Some r'
             ∧ (∀ c, str_contains "access" (lower c) ≠ true →
                     r' !! c = r !! c)
             ∧ (∀ c, c ∈ columns df →
                     str_contains "access" (lower c) = true → r' !! c = None)).
Proof.
  unfold __remove_access. split; [by intros ->|]. intros ->.
  rewrite drop_spec by (by intros c [_ Hc]%list_elem_of_filter).
  eexists. split; [done|]. cbn [columns rows]. split_and!.
  - apply filter_ext_in. intros c Hc. rewrite list_elem_of_filter. tauto.
  - by rewrite length_fmap.
  - intros i r Hi. rewrite list_lookup_fmap, Hi. cbn.
    eexists. split; [done|]. split.
    + intros c Hc. rewrite lookup_foldr_delete_cols, decide_False; [done|].
      by intros [? _]%list_elem_of_filter.
    + intros c Hc Ha. rewrite lookup_foldr_delete_cols, decide_True; [done|].
      by apply list_elem_of_filter.
Qed.

Lemma remove_access_spec_witness :
  ∃ out, __remove_access ww_table = Ok out
         ∧ columns out
           = ["sampleID"; "fractionAnalyzed"; "type"; "unit"; "aggregation";
              "value"; "index"].
Proof.
  destruct (proj2 (remove_access_spec ww_table) eq_refl)
    as (out & Hout & Hcols & _).
  exists out. split; [exact Hout|]. rewrite Hcols. vm_compute. reflexivity.
Defined.

(** ** What [_parse_ww_measure] needs *)

Lemma length_app_string (s1 s2 : string) :
  String.length (s1 +:+ s2) = (String.length s1 + String.length s2)%nat.
Proof. induction s1 as [|a s1 IH]; [done|]. simpl. by rewrite IH. Qed.

Lemma col_name_value_long (cq : string) :
  (6 ≤ String.length (col_name cq "value"))%nat.
Proof.
  unfold col_name. cbn [str_join]. rewrite !length_app_string. simpl. lia.
Qed.

Lemma clean_loop_Ok (qualifiers : list string) :
  ∀ (df out : DataFrame),
    clean_loop df qualifiers = Ok out →
    ∀ q, q ∈ qualifiers → q ∈ columns df.
Proof.
  induction qualifiers as [|q qs IH]; intros df out; cbn [clean_loop].
  - intros _ q Hq. by apply elem_of_nil in Hq.
  - destruct (decide (q ∈ columns df)) as [Hq|]; [|done].
    intros Hloop q' [-> |Hq']%elem_of_cons; [done|].
    pose proof (IH _ _ Hloop q' Hq') as Hin.
    by rewrite assign_existing in Hin.
Qed.

Lemma widen_features_columns (cq : string) (features : list string) :
  ∀ (df out : DataFrame),
    widen_features cq df features = Ok out →
    length (rows out) = length (rows df)
    ∧ (∀ c, c ∈ columns df → c ∈ columns out)
    ∧ (∀ c, c ∈ columns out →
            c ∈ columns df ∨ ∃ f, f ∈ features ∧ c = col_name cq f)
    ∧ (∀ f, f ∈ features → f ∈ columns out).
Proof.
  induction features as [|f fs IH]; intros df out; cbn [widen_features].
  - intros [= <-]. split_and!; try done; [by left|].
    intros f Hf. by apply elem_of_nil in Hf.
  - unfold widen_feature at 1.
    destruct (decide (f ∈ columns (assign df (col_name cq f) (λ _, None))))
      as [Hf|]; [|done].
    cbn [mbind result_bind]. intros Hrest.
    destruct (IH _ _ Hrest) as (Hlen & Hsub & Hcols & Hfs).
    rewrite !assign_rows, !length_fmap in Hlen.
    assert (Hc2 : ∀ c, c ∈ columns
                     (assign (assign df (col_name cq f) (λ _, None))
                        (col_name cq f)
                        (λ r, if decide (r !! "col_qualifiers"
                                         = Some (VStr cq))
                              then r !! f else r !! col_name cq f))
                   ↔ c ∈ columns df ∨ c = col_name cq f).
    { intros c. unfold assign. cbn [columns].
      repeat destruct (decide _);
        rewrite ?elem_of_app, ?list_elem_of_singleton in *; split;
        intros; try tauto.
      all: destruct H as [?|?]; subst; tauto. }
    split_and!; [done|..].
    + intros c Hc. apply Hsub, Hc2. by left.
    + intros c Hc. destruct (Hcols c Hc) as [Hc'|(f' & Hf' & ->)].
      * apply Hc2 in Hc' as [?| ->]; [by left|]. right. exists f.
        split; [by left|done].
      * right. exists f'. split; [by right|done].
    + intros f' [-> |Hf']%elem_of_cons; [|by apply Hfs].
      apply Hsub, Hc2.
      unfold assign in Hf. cbn [columns] in Hf.
      destruct (decide _); [by left|].
      apply elem_of_app in Hf as [?|?%list_elem_of_singleton]; [by left|by right].
Qed.

Lemma widen_loop_columns (cqs features : list string) :
  ∀ (df out : DataFrame),
    widen_loop df cqs features = Ok out →
    length (rows out) = length (rows df)
    ∧ (∀ c, c ∈ columns df → c ∈ columns out)
    ∧ (∀ c, c ∈ columns out →
            c ∈ columns df ∨ ∃ cq f, f ∈ features ∧ c = col_name cq f)
    ∧ (cqs ≠ [] → ∀ f, f ∈ features → f ∈ columns out).
Proof.
  induction cqs as [|cq cqs IH]; intros df out; cbn [widen_loop].
  - intros [= <-]. split_and!; try done. by left.
  - destruct (widen_features cq df features) as [df1|e] eqn:H1; [|done].
    cbn [mbind result_bind]. intros Hrest.
    destruct (widen_features_columns _ _ _ _ H1) as (Hl1 & Hs1 & Hc1 & Hf1).
    destruct (IH _ _ Hrest) as (Hl & Hs & Hc & _).
    split_and!.
    + congruence.
    + intros c Hc'. by apply Hs, Hs1.
    + intros c Hc'. destruct (Hc c Hc') as [Hin|(cq' & f & Hf & ->)].
      * destruct (Hc1 c Hin) as [?|(f & Hf & ->)]; [by left|].
        right. by exists cq, f.
      * right. by exists cq', f.
    + intros _ f Hf. by apply Hs, Hf1.
Qed.

Lemma drop_Ok (df out : DataFrame) (cs : list string) :
  drop df cs = Ok out →
  (∀ c, c ∈ cs → c ∈ columns df)
  ∧ columns out = filter (λ c, c ∉ cs) (columns df)
  ∧ length (rows out) = length (rows df).
Proof.
  unfold drop. destruct (list_find _ cs) as [[i c]|] eqn:Hfind; [done|].
  intros [= <-]. cbn [columns rows]. rewrite length_fmap.
  split; [|done]. intros c Hc.
  rewrite list_find_None, Forall_forall in Hfind.
  by apply dec_stable, Hfind.
Qed.

(** X8.  What [_parse_ww_measure] needs of a measure table with rows: when
    it returns a table, the measure table had the columns value,
    fractionAnalyzed, type, unit, aggregation and index (a table without
    one of them makes it raise), and the table returned has one row for each
    measure, under columns that all carry the prefix. *)
Theorem parse_ww_measure_requires (self : Odm) (df out : DataFrame) :
  ww_measure self = Some df →
  empty df = false →
  _parse_ww_measure self = Ok out →
  (∀ c, c ∈ ["value"; "fractionAnalyzed"; "type"; "unit"; "aggregation";
             "index"] → c ∈ columns df)
  ∧ length (rows out) = length (rows df)
  ∧ ∀ c, c ∈ columns out → ∃ c', c = "WWMeasure." +:+ c'.
Proof.
  intros Hww Hne. unfold _parse_ww_measure. rewrite Hww, Hne.
  destruct (remove_access_Ok df Hne) as (df0 & -> & Hc0 & Hl0).
  cbn [mbind result_bind].
  assert (Hsub0 : ∀ c, c ∈ columns df0 → c ∈ columns df).
  { intros c. rewrite Hc0. by intros [_ ?]%list_elem_of_filter. }
  destruct (widen df0 ["value"]
              ["fractionAnalyzed"; "type"; "unit"; "aggregation"])
    as [df5|e] eqn:Hwiden; [|done].
  cbn [mbind result_bind].
  destruct (drop df5 ["index"]) as [df6|e] eqn:Hdrop; [|done].
  cbn [mbind result_bind]. intros [= <-].
  destruct (drop_Ok _ _ _ Hdrop) as (Hindex & _ & Hrows6).
  specialize (Hindex "index" ltac:(by left)).
  unfold widen in Hwiden.
  destruct (empty df0) eqn:He0.
  { (* every column was an access column: nothing is left to drop *)
    injection Hwiden as <-. exfalso.
    unfold empty in He0.
    destruct (columns df0) as [|c0 cs]; [by apply elem_of_nil in Hindex|].
    destruct (rows df0) as [|r0 rs] eqn:Hr0; [|done].
    unfold empty in Hne.
    destruct (rows df); [by destruct (columns df)|done]. }
  unfold clean_qualifier_columns in Hwiden. rewrite He0 in Hwiden.
  destruct (clean_loop df0 _) as [df1|e] eqn:Hclean; [|done].
  cbn [mbind result_bind] in Hwiden.
  pose proof (clean_loop_Ok _ _ _ Hclean) as Hq.
  destruct (clean_loop_spec _ df0 Hq) as (df1' & Hclean' & Hc1 & Hr1).
  rewrite Hclean in Hclean'. injection Hclean' as <-.
  destruct (astype_loop_spec
              ["fractionAnalyzed"; "type"; "unit"; "aggregation"] df1)
    as [Hc2 Hr2]; [by rewrite Hc1|].
  set (df2 := foldl _ df1 _) in *.
  set (cqs := unique _) in Hwiden.
  set (df3 := assign df2 "col_qualifiers" _) in *.
  destruct (widen_loop df3 cqs ["value"]) as [df4|e] eqn:Hloop; [|done].
  cbn [mbind result_bind] in Hwiden.
  destruct (widen_loop_columns _ _ _ _ Hloop) as (Hl4 & Hs4 & Hc4 & Hf4).
  destruct (drop df4 _) as [df4'|e] eqn:Hdrop1; [|done].
  cbn [mbind result_bind] in Hwiden.
  destruct (drop_Ok _ _ _ Hdrop1) as (_ & Hd1 & Hl1).
  destruct (drop_Ok _ _ _ Hwiden) as (_ & Hd2 & Hl2).
  assert (Hc3 : ∀ c, c ∈ columns df3 ↔ c ∈ columns df0 ∨ c = "col_qualifiers").
  { intros c. subst df3. unfold assign. cbn [columns]. rewrite Hc2, Hc1.
    destruct (decide _) as [Hin|Hin];
      rewrite ?elem_of_app, ?list_elem_of_singleton; [|done].
    split; [by left|]. by intros [?| ->]. }
  assert (Hl3 : length (rows df3) = length (rows df)).
  { subst df3. by rewrite assign_rows, length_fmap, Hr2, length_fmap, Hr1,
      length_fmap. }
  assert (Hcqs : cqs ≠ []).
  { subst cqs. intros Hnil%unique_nil_inv%fmap_nil_inv.
    rewrite Hr2, Hr1 in Hnil. apply fmap_nil_inv, fmap_nil_inv in Hnil.
    unfold empty in He0. rewrite Hnil in He0. by destruct (columns df0). }
  assert (Hder : ∀ c, c ∈ columns df4 → String.length c = 5%nat →
                      c ≠ "col_qualifiers" → c ∈ columns df).
  { intros c Hc Hlen Hncq. destruct (Hc4 c Hc) as [Hin|(cq & f & Hf & ->)].
    - apply Hc3 in Hin as [?|?]; [by apply Hsub0|done].
    - apply list_elem_of_singleton in Hf as ->.
      pose proof (col_name_value_long cq). lia. }
  split_and!.
  - intros c Hc. repeat (apply elem_of_cons in Hc as [-> |Hc]);
      try (by apply elem_of_nil in Hc).
    + apply Hder; [|done..]. apply Hf4; [done|by left].
    + apply Hsub0, Hq. compute_done.
    + apply Hsub0, Hq. compute_done.
    + apply Hsub0, Hq. compute_done.
    + apply Hsub0, Hq. compute_done.
    + apply Hder; [|done..].
      rewrite Hd2, Hd1 in Hindex.
      by apply list_elem_of_filter in Hindex as [_ [_ ?]%list_elem_of_filter].
  - cbn [add_prefix rows]. rewrite length_fmap. congruence.
  - intros c (c' & -> & _)%list_elem_of_fmap. by exists c'.
Qed.

Lemma parse_ww_measure_requires_witness :
  ∃ out,
    _parse_ww_measure (setattr fresh_store a_ww_measure (Some ww_table)) = Ok out
    ∧ length (rows out) = 1%nat.
Proof.
  destruct (_parse_ww_measure (setattr fresh_store a_ww_measure (Some ww_table)))
    as [out|e] eqn:Hp; [|vm_compute in Hp; discriminate Hp].
  exists out. split; [reflexivity|].
  exact (proj1 (proj2 (parse_ww_measure_requires
                         (setattr fresh_store a_ww_measure (Some ww_table))
                         ww_table out eq_refl eq_refl Hp))).
Defined.

(** ** What [_parse_sample] can do to the store *)

Lemma add_site_rows_stored (st st' : parse_state) (i : nat)
    (site_ids : list string) :
  add_site_rows st i site_ids = Ok st' → stored st' = stored st.
Proof.
  revert st. induction site_ids as [|id ids IH]; intros st; simpl.
  - by intros [= <-].
  - destruct (rows (current st) !! i) as [new_row|]; [|done].
    intros Hadd. by apply IH in Hadd.
Qed.

Lemma spread_sites_stored (pick : list string → nat) (st st' : parse_state)
    (i : nat) (r : row) :
  spread_sites pick st i r = Ok st' →
  columns (stored st') = columns (stored st)
  ∧ Forall2 (λ r0 r1 : row, ∀ c, c ≠ "siteID" → r1 !! c = r0 !! c)
            (rows (stored st)) (rows (stored st')).
Proof.
  assert (Hrefl : ∀ l : list row,
            Forall2 (λ r0 r1 : row, ∀ c, c ≠ "siteID" → r1 !! c = r0 !! c) l l).
  { intros l. apply Forall_Forall2_diag, Forall_forall. done. }
  unfold spread_sites.
  destruct (r !! "siteID") as [[sites| | |]|]; try done.
  destruct (str_contains ";" sites); [|intros [= <-]; by split].
  destruct (set_iter _ _) as [|first site_ids]; [done|].
  destruct (_is_mixed_type (current st)); [done|].
  intros Hadd. apply add_site_rows_stored in Hadd. rewrite Hadd.
  unfold write, current. destruct (rebound st); simpl; [by split|].
  split; [done|]. apply Forall2_alter_r; [done|].
  intros r0 r1 _ _ Hr c Hc. rewrite lookup_insert_ne by done. by apply Hr.
Qed.

Lemma spread_loop_stored (pick : list string → nat) (todo : list row) :
  ∀ (st st' : parse_state) (i : nat) (r : result ()),
    spread_loop pick st i todo = (st', r) →
    columns (stored st') = columns (stored st)
    ∧ Forall2 (λ r0 r1 : row, ∀ c, c ≠ "siteID" → r1 !! c = r0 !! c)
              (rows (stored st)) (rows (stored st')).
Proof.
  induction todo as [|row todo IH]; intros st st' i r; simpl.
  - intros [= <- _]. split; [done|].
    apply Forall_Forall2_diag, Forall_forall. done.
  - destruct (spread_sites pick st i row) as [st1|e] eqn:Hrow.
    + intros Hloop. apply IH in Hloop as [Hc Hr].
      apply spread_sites_stored in Hrow as [Hc1 Hr1].
      split; [congruence|].
      eapply Forall2_trans; [|exact Hr1|exact Hr].
      intros r0 r1 r2 H01 H12 c Hc'. by rewrite H12, H01.
    + intros [= <- _]. split; [done|].
      apply Forall_Forall2_diag, Forall_forall. done.
Qed.

Lemma spread_loop_single (pick : list string → nat) (todo : list row) :
  ∀ (st : parse_state) (i : nat),
    (∀ (r : row) (sites : string),
       r ∈ todo → r !! "siteID" = Some (VStr sites) →
       str_contains ";" sites = false) →
    (spread_loop pick st i todo).1 = st.
Proof.
  induction todo as [|row todo IH]; intros st i Hsingle; simpl; [done|].
  unfold spread_sites.
  destruct (row !! "siteID") as [[sites| | |]|] eqn:Hsite; try done.
  rewrite (Hsingle row sites) by (done || by left).
  apply IH. intros r s Hr. apply Hsingle. by right.
Qed.

(** X9.  What [_parse_sample] can do to the sample table of the store,
    however the call ends: the table keeps its columns and its number of
    rows, and a row can change in its site only.  When no row names several
    sites the store is left as it was. *)
Theorem parse_sample_store_effect (pick : list string → nat) (self : Odm)
    (df : DataFrame) :
  sample self = Some df →
  (∃ df',
     (_parse_sample pick self).1 = setattr self a_sample (Some df')
     ∧ columns df' = columns df
     ∧ length (rows df') = length (rows df)
     ∧ ∀ (j : nat) (r0 r1 : row) (c : string),
         rows df !! j = Some r0 → rows df' !! j = Some r1 →
         c ≠ "siteID" → r1 !! c = r0 !! c)
  ∧ ((∀ (r : row) (sites : string),
        r ∈ rows df → r !! "siteID" = Some (VStr sites) →
        str_contains ";" sites = false) →
     (_parse_sample pick self).1 = self).
Proof.
  intros Hs. unfold _parse_sample. rewrite Hs.
  assert (Hsame : ∃ df',
     self = setattr self a_sample (Some df')
     ∧ columns df' = columns df
     ∧ length (rows df') = length (rows df)
     ∧ ∀ (j : nat) (r0 r1 : row) (c : string),
         rows df !! j = Some r0 → rows df' !! j = Some r1 →
         c ≠ "siteID" → r1 !! c = r0 !! c).
  { exists df. rewrite setattr_sample_same by done. split_and!; try done.
    intros j r0 r1 c H0 H1 _. congruence. }
  destruct (empty df); [by split|].
  destruct (decide ("siteID" ∈ columns df)); [|by split].
  clear Hsame.
  destruct (spread_loop pick (mkParseState df None) 0 (rows df))
    as [st r] eqn:Hloop.
  split.
  - apply spread_loop_stored in Hloop as [Hc Hr]. simpl in Hc, Hr.
    exists (stored st). split; [done|]. split; [done|].
    split; [symmetry; by eapply Forall2_length|].
    intros j r0 r1 c H0 H1. by apply (Forall2_lookup_lr _ _ _ _ _ _ Hr H0 H1).
  - intros Hsingle.
    pose proof (spread_loop_single pick (rows df) (mkParseState df None) 0
                  Hsingle) as Hst.
    rewrite Hloop in Hst. simpl in Hst. subst st. simpl.
    by apply setattr_sample_same.
Qed.

Lemma parse_sample_store_effect_witness :
  (_parse_sample (λ _, 0%nat) twin_store).1 = twin_store.
Proof.
  apply (proj2 (parse_sample_store_effect (λ _, 0%nat) twin_store twin_samples
                  eq_refl)).
  intros r sites Hr Hsite.
  apply elem_of_cons in Hr as [->|Hr];
    [|apply list_elem_of_singleton in Hr as ->];
    injection Hsite as <-; reflexivity.
Defined.

(** ** Merges on a key *)





(** ** The table [combine_per_sample] returns *)

Lemma bind_op_Ok {A B : Type} (m : store_op A) (f : A → store_op B)
    (self self' : Odm) (b : B) :
  bind_op m f self = (self', Ok b) →
  ∃ a s1, m self = (s1, Ok a) ∧ f a s1 = (self', Ok b).
Proof.
  unfold bind_op. destruct (m self) as [s1 [a|e]]; [|done].
  intros Hf. by exists a, s1.
Qed.

Lemma first_rows_spec (l : list (option value * row)) :
  ∀ seen : list row,
    NoDup (first_rows seen l).*2
    ∧ (∀ r, r ∈ (first_rows seen l).*2 ↔ r ∈ l.*2 ∧ r ∉ seen)
    ∧ (∀ p, p ∈ first_rows seen l → p ∈ l).
Proof.
  induction l as [|[i r] l IH]; intros seen; simpl.
  - split; [constructor|]. split; [|done]. intros r.
    split; [by intros ?%elem_of_nil|by intros [?%elem_of_nil _]].
  - destruct (decide (r ∈ seen)) as [Hin|Hin].
    + destruct (IH seen) as (Hnd & Hiff & Hsub). split; [done|]. split.
      * intros r'. rewrite Hiff, elem_of_cons. split; [tauto|].
        intros [[->|?] ?]; done.
      * intros p Hp. right. by apply Hsub.
    + destruct (IH (r :: seen)) as (Hnd & Hiff & Hsub). simpl. split.
      * apply NoDup_cons. split; [|done]. rewrite Hiff, elem_of_cons.
        intros [_ Hn]. apply Hn. by left.
      * split.
        -- intros r'. rewrite !elem_of_cons, Hiff, elem_of_cons.
           destruct (decide (r' = r)) as [->|Hne]; [tauto|]. tauto.
        -- intros p [->|Hp]%elem_of_cons; [by left|]. right. by apply Hsub.
Qed.

Section merged_table.

Variable groupby_agg : string → DataFrame → result DataFrame.
Variable shape : Type.
Variable wkt_loads : string → option shape.
Variable shape_contains : shape → option Z * option Z → bool.
Variable pick : list string → nat.

(** X11.  The table [combine_per_sample] returns is indexed by the sample
    identifier, and its duplicates are dropped on the other columns alone:
    no two of its rows agree on all the columns that are left, also when
    they belong to different samples.  It has the column [polygonIDs]. *)
Theorem combine_per_sample_result (self self' : Odm) (merged : IndexedFrame) :
  combine_per_sample groupby_agg shape wkt_loads shape_contains pick self
  = (self', Ok merged) →
  index_name merged = "Sample.sampleID"
  ∧ ("Sample.sampleID" ∉ columns (frame merged))
  ∧ "polygonIDs" ∈ columns (frame merged)
  ∧ length (index merged) = length (rows (frame merged))
  ∧ NoDup (rows (frame merged)).
Proof.
  unfold combine_per_sample. intros H.
  apply bind_op_Ok in H as (ww & s1 & _ & H).
  apply bind_op_Ok in H as (sample & s2 & _ & H).
  apply bind_op_Ok in H as (m1 & s3 & _ & H).
  apply bind_op_Ok in H as (sm & s4 & _ & H).
  apply bind_op_Ok in H as (m2 & s5 & _ & H).
  apply bind_op_Ok in H as (st & s6 & _ & H).
  apply bind_op_Ok in H as (m3 & s7 & _ & H).
  apply bind_op_Ok in H as (m4 & s8 & Hpoly & H).
  unfold pure_op in H. injection H as _ H.
  destruct (set_index m4 "Sample.sampleID") as [ix|e] eqn:Hix; [|done].
  simpl in H. injection H as <-.
  unfold set_index in Hix.
  destruct (decide ("Sample.sampleID" ∈ columns m4)) as [Hkey|]; [|done].
  injection Hix as <-. cbn [drop_duplicates_indexed index_name frame columns
                          rows index].
  set (l := zip _ _).
  destruct (first_rows_spec l []) as (Hnd & _ & _).
  split; [done|]. split.
  { intros [Hne _]%list_elem_of_filter. done. }
  split.
  { apply list_elem_of_filter. split; [done|].
    unfold polygon_step in Hpoly.
    apply bind_op_Ok in Hpoly as ([polygons is_stored] & s9 & _ & Hpoly).
    destruct (combine_polygons_per_sample _ _ _ m3 polygons)
      as [polygons' r] eqn:Hc.
    injection Hpoly as _ ->.
    unfold combine_polygons_per_sample in Hc.
    destruct (rows m3); [by injection Hc|].
    destruct (decide ("Site.geoLat" ∈ columns m3)); [|by injection Hc].
    destruct (decide ("Site.geoLong" ∈ columns m3)); [|by injection Hc].
    destruct (mapM Point _) as [pts|]; [|by injection Hc].
    destruct (decide ("Polygon.wkt" ∈ columns polygons)); [|by injection Hc].
    injection Hc as _ Hc.
    destruct (encompassing _ _ _ _ _) as [ids|]; [|done]. simpl in Hc.
    unfold drop in Hc. destruct (list_find _ _) as [[? ?]|]; [done|].
    injection Hc as <-. simpl. apply list_elem_of_filter. split.
    - by intros [= ]%list_elem_of_singleton.
    - unfold add_label, assign. simpl.
      destruct (decide ("temp_point" ∈ columns m3)).
      + destruct (decide ("polygonIDs" ∈ columns m3));
          [done|apply elem_of_app; right; by left].
      + destruct (decide ("polygonIDs" ∈ columns m3 ++ ["temp_point"]));
          [done|apply elem_of_app; right; by left]. }
  split; [by rewrite !length_fmap|done].
Qed.

End merged_table.

Lemma combine_per_sample_result_witness :
  ∃ merged,
    (combine_per_sample (λ _ df, Ok df) () (λ _, None) (λ _ _, false)
       (λ _, 0%nat) twin_store).2 = Ok merged
    ∧ index merged = [Some (VStr "s1")]
    ∧ NoDup (rows (frame merged)).
Proof.
  destruct (combine_per_sample (λ _ df, Ok df) () (λ _, None) (λ _ _, false)
              (λ _, 0%nat) twin_store) as [self' [merged|e]] eqn:Hc;
    [|vm_compute in Hc; discriminate Hc].
  exists merged. split; [reflexivity|]. split.
  - vm_compute in Hc. injection Hc as _ <-. reflexivity.
  - exact (proj2 (proj2 (proj2 (proj2
             (combine_per_sample_result _ _ _ _ _ _ _ _ Hc))))).
Defined.

(** ** Dates *)

(** X12.  The midpoint of two timestamps lies between them, whichever comes
    first, and is their middle to the nanosecond.  The timestamps are less
    than 2^53 nanoseconds (104 days) apart: pandas divides the span as a
    float, which is exact up to there. *)
Theorem get_midpoint_time_between (date1 date2 : Z) :
  Z.abs (date2 - date1) < 2 ^ 53 →
  ∃ m : Z,
    get_midpoint_time (Some (VTime date1)) (Some (VTime date2))
    = Ok (Some (VTime m))
    ∧ Z.min date1 date2 ≤ m ≤ Z.max date1 date2
    ∧ Z.abs ((m - date1) - (date2 - m)) ≤ 1.
Proof.
  intros _. eexists. split; [reflexivity|].
  split; Z.to_euclidean_division_equations; lia.
Qed.

Lemma get_midpoint_time_between_witness :
  ∃ m : Z,
    get_midpoint_time (Some (VTime 10)) (Some (VTime 5)) = Ok (Some (VTime m))
    ∧ 5 ≤ m ≤ 10.
Proof.
  destruct (get_midpoint_time_between 10 5 eq_refl) as (m & Hm & Hbetween & _).
  exists m. split; [exact Hm|exact Hbetween].
Defined.

(** X13.  [get_last_sunday] gives a Sunday, the last one on or before the
    date, at the time of day of the date: the time is not reset to midnight.
    A date that falls on a Sunday is returned as it is.  The date is one of
    whole microseconds ([to_pydatetime] drops what is below). *)
Theorem get_last_sunday_spec (date : Z) :
  date `mod` 1000 = 0 →
  let sunday := get_last_sunday (Some date) in
  (sunday `div` day + 3) `mod` 7 = 6
  ∧ sunday ≤ date < sunday + 7 * day
  ∧ sunday `mod` day = date `mod` day
  ∧ ((date `div` day + 3) `mod` 7 = 6 → sunday = date).
Proof.
  intros _. unfold get_last_sunday, day. simpl.
  split_and!; Z.to_euclidean_division_equations; lia.
Qed.

Lemma get_last_sunday_spec_witness :
  (get_last_sunday (Some (18718 * day + 3600 * 1000000000)) `div` day + 3)
    `mod` 7 = 6
  ∧ get_last_sunday (Some (18718 * day + 3600 * 1000000000)) `mod` day
    = 3600 * 1000000000.
Proof.
  destruct (get_last_sunday_spec (18718 * day + 3600 * 1000000000) eq_refl)
    as (Hsunday & _ & Htime & _).
  split; [exact Hsunday|]. rewrite Htime. reflexivity.
Defined.

(** ** Site types *)

Lemma lower_char_idemp (a : ascii) : lower_char (lower_char a) = lower_char a.
Proof.
  unfold lower_char.
  destruct ((65 <=? nat_of_ascii a)%nat && (nat_of_ascii a <=? 90)%nat)
    eqn:Hup; [|by rewrite Hup].
  apply andb_true_iff in Hup as [H1%Nat.leb_le H2%Nat.leb_le].
  rewrite nat_ascii_embedding by lia.
  destruct ((65 <=? nat_of_ascii a + 32)%nat
            && (nat_of_ascii a + 32 <=? 90)%nat) eqn:Hup'; [|done].
  apply andb_true_iff in Hup' as [_ H3%Nat.leb_le]. lia.
Qed.

Lemma lower_idemp (s : string) : lower (lower s) = lower s.
Proof.
  induction s as [|a s IH]; [done|]. simpl. by rewrite lower_char_idemp, IH.
Qed.

(** X14.  [get_clean_type] lowers the type before it looks it up, so it can
    only find the keys of [site_types] that are written in lower case: the
    nine keys written with a capital are never found, and a site of one of
    these types gets no description. *)
Theorem get_clean_type_keys :
  (∀ (c : option value) (label : string),
     get_clean_type c = Some label →
     ∃ key, (key, label) ∈ site_types ∧ lower key = key)
  ∧ (filter (λ p : string * string, lower p.1 ≠ p.1) site_types).*1
    = ["corFcil"; "swgTrck"; "uCampus"; "mSwrPpl"; "holdTnk"; "retPond";
       "wwtpMuS"; "wwtpInd"; "septTnk"]
  ∧ (∀ key, key ∈ ["corFcil"; "swgTrck"; "uCampus"; "mSwrPpl"; "holdTnk";
                   "retPond"; "wwtpMuS"; "wwtpInd"; "septTnk"] →
            get_clean_type (Some (VStr key)) = None).
Proof.
  split_and!.
  - intros c label. unfold get_clean_type.
    destruct c as [[s| | |]|]; try done.
    intros Hl. apply elem_of_list_to_map_2 in Hl.
    exists (lower s). split; [done|]. apply lower_idemp.
  - reflexivity.
  - intros key Hkey. repeat (apply elem_of_cons in Hkey as [->|Hkey]);
      [by vm_compute..|by apply elem_of_nil in Hkey].
Qed.

(** ** Samples in an interval *)

Lemma mapM_Ok {A B : Type} (f : A → result B) (g : A → B) (l : list A) :
  (∀ x, x ∈ l → f x = Ok (g x)) → mapM f l = Ok (g <$> l).
Proof.
  induction l as [|x l IH]; intros Hf; [done|]. simpl.
  rewrite (Hf x) by (by left). simpl.
  rewrite IH by (intros y Hy; apply Hf; by right). done.
Qed.

Lemma select_fmap (df : DataFrame) (test : row → bool) :
  rows (select df (test <$> rows df))
  = filter (λ r, test r = true) (rows df).
Proof.
  unfold select. simpl. induction (rows df) as [|r l IH]; [done|].
  rewrite fmap_cons. simpl. rewrite !filter_cons. simpl.
  destruct (decide (test r = true)) as [Ht|Ht]; [|exact IH].
  rewrite fmap_cons. simpl. by f_equal.
Qed.

(** X15.  [get_samples_in_interval] on a table whose plot dates are
    timestamps or missing: without bounds the table is returned as it is;
    with one bound the rows on the right side of it are returned, in their
    order, bound included, and a row without a plot date is dropped; with
    both bounds the call raises and returns no table. *)
Theorem get_samples_in_interval_spec (samples : DataFrame) :
  "Sample.plotDate" ∈ columns samples →
  (∀ (r : row) (v : value),
     r ∈ rows samples → r !! "Sample.plotDate" = Some v → ∃ t, v = VTime t) →
  get_samples_in_interval samples None None = Ok samples
  ∧ (∀ dateEnd,
       ∃ out, get_samples_in_interval samples None (Some dateEnd) = Ok out
              ∧ columns out = columns samples
              ∧ rows out
                = filter (λ r : row,
                            match r !! "Sample.plotDate" with
                            | Some (VTime t) => bool_decide (t ≤ dateEnd)
                            | _ => false
                            end = true) (rows samples))
  ∧ (∀ dateStart,
       ∃ out, get_samples_in_interval samples (Some dateStart) None = Ok out
              ∧ columns out = columns samples
              ∧ rows out
                = filter (λ r : row,
                            match r !! "Sample.plotDate" with
                            | Some (VTime t) => bool_decide (dateStart ≤ t)
                            | _ => false
                            end = true) (rows samples))
  ∧ (∀ dateStart dateEnd,
       get_samples_in_interval samples (Some dateStart) (Some dateEnd)
       = Raise TypeError).
Proof.
  intros Hcol Htime.
  assert (Hmask : ∀ test : Z → bool,
            compare_mask test "Sample.plotDate" samples
            = Ok ((λ r : row, match r !! "Sample.plotDate" with
                              | Some (VTime t) => test t
                              | _ => false
                              end) <$> rows samples)).
  { intros test. unfold compare_mask, column. rewrite decide_True by done.
    simpl.
    etrans; [apply (mapM_Ok _ (λ cell, match cell with
                                       | Some (VTime t) => test t
                                       | _ => false
                                       end))|by rewrite <- list_fmap_compose].
    intros cell (r & -> & Hr)%list_elem_of_fmap.
    destruct (r !! "Sample.plotDate") as [v|] eqn:Hv; [|done].
    destruct (Htime r v Hr Hv) as [t ->]. done. }
  split_and!.
  - done.
  - intros dateEnd. unfold get_samples_in_interval. rewrite Hmask. simpl.
    eexists. split; [done|]. split; [done|].
    apply (select_fmap samples).
  - intros dateStart. unfold get_samples_in_interval. rewrite Hmask. simpl.
    eexists. split; [done|]. split; [done|].
    apply (select_fmap samples).
  - intros dateStart dateEnd. unfold get_samples_in_interval, column.
    by rewrite decide_True.
Qed.

(** ** The plot date of every row *)

Lemma mapM_fmap_Ok {A B C : Type} (F : B → result C) (f : A → B) (g : A → C)
    (l : list A) :
  (∀ x, x ∈ l → F (f x) = Ok (g x)) → mapM F (f <$> l) = Ok (g <$> l).
Proof.
  induction l as [|x l IH]; intros Hf; [done|]. rewrite !fmap_cons.
  change (mapM F (f x :: (f <$> l)))
    with (y ← F (f x); k ← mapM F (f <$> l); mret (y :: k)).
  rewrite (Hf x) by (by left).
  rewrite IH by (intros y Hy; apply Hf; by right). done.
Qed.

Lemma zip_with_fmap_same {A B C D : Type} (φ : B → C → D) (f : A → B)
    (g : A → C) (l : list A) :
  zip_with φ (f <$> l) (g <$> l) = (λ x, φ (f x) (g x)) <$> l.
Proof. induction l as [|x l IH]; [done|]. simpl. f_equal. exact IH. Qed.

Lemma assign_where_fmap {A : Type} (cols : list string) (l : list A)
    (f : A → row) (m : A → bool) (c : string) (v : A → option value) :
  assign_where (mkDataFrame cols (f <$> l)) (m <$> l) c (v <$> l)
  = mkDataFrame (if decide (c ∈ cols) then cols else cols ++ [c])
      ((λ x, if m x then partial_alter (λ _, v x) c (f x) else f x) <$> l).
Proof.
  unfold assign_where. cbn [columns rows]. f_equal.
  by rewrite !zip_with_fmap_same.
Qed.

Lemma column_fmap {A : Type} (cols : list string) (l : list A) (f : A → row)
    (c : string) :
  c ∈ cols →
  column (mkDataFrame cols (f <$> l)) c = Ok ((λ x, f x !! c) <$> l).
Proof.
  intros Hc. unfold column. cbn [columns rows]. rewrite decide_True by done.
  by rewrite <- list_fmap_compose.
Qed.

Lemma plot_datetime_rows (df : DataFrame) :
  (∀ c, c ∈ sample_columns → c ∈ columns df) →
  (∀ r : row, r ∈ rows df →
     (∃ c, r !! "Sample.collection" = Some (VStr c))
     ∧ (∀ s e, r !! "Sample.dateTimeStart" = Some s →
               r !! "Sample.dateTimeEnd" = Some e →
               ∃ ts te, s = VTime ts ∧ e = VTime te)) →
  get_plot_datetime df = Ok (plot_date <$> rows df).
Proof.
  intros Hcols Hrows. destruct df as [cols l]. cbn [columns rows] in *.
  assert (Hc1 : "Sample.collection" ∈ cols) by (apply Hcols; compute_done).
  assert (Hc2 : "Sample.dateTime" ∈ cols) by (apply Hcols; compute_done).
  assert (Hc3 : "Sample.dateTimeStart" ∈ cols) by (apply Hcols; compute_done).
  assert (Hc4 : "Sample.dateTimeEnd" ∈ cols) by (apply Hcols; compute_done).
  unfold get_plot_datetime, assign. cbn [columns rows].
  set (cols1 := if decide ("Sample.plotDate" ∈ cols) then cols
                else cols ++ ["Sample.plotDate"]).
  assert (Hsub : ∀ c, c ∈ cols → c ∈ cols1).
  { intros c Hc. subst cols1. destruct (decide _); [done|].
    apply elem_of_app. by left. }
  assert (HP : "Sample.plotDate" ∈ cols1).
  { subst cols1. destruct (decide _); [done|]. apply elem_of_app. right.
    by left. }
  set (f1 := λ r : row, partial_alter (λ _, None) "Sample.plotDate" r).
  set (grab := λ r : row, match r !! "Sample.collection" with
                          | Some (VStr c) => str_contains "grb" c
                          | _ => false
                          end).
  assert (Hmask : str_contains_mask "grb" "Sample.collection"
                    (mkDataFrame cols1 (f1 <$> l)) = Ok (grab <$> l)).
  { unfold str_contains_mask. cbn [columns rows].
    rewrite decide_True by (by apply Hsub). apply mapM_fmap_Ok.
    intros r Hr. subst f1 grab. cbn beta.
    rewrite lookup_partial_alter_ne by done.
    destruct (proj1 (Hrows r Hr)) as [c ->]. done. }
  rewrite Hmask. cbn [mbind result_bind].
  rewrite !(column_fmap cols1 l f1) by (by apply Hsub).
  cbn [mbind result_bind].
  rewrite <- !list_fmap_compose.
  rewrite (assign_where_fmap cols1 l f1 grab "Sample.plotDate"
             (λ r : row, f1 r !! "Sample.dateTime")).
  rewrite decide_True by done. cbn [rows].
  set (f2 := λ r : row, if grab r then _ else f1 r).
  set (mid := λ r : row,
         match r !! "Sample.dateTimeStart", r !! "Sample.dateTimeEnd" with
         | Some (VTime s), Some (VTime e) =>
             Some (VTime (s + (e - s) `quot` 2))
         | _, _ => None
         end).
  assert (Hf2 : ∀ (r : row) (c : string),
            c ≠ "Sample.plotDate" → f2 r !! c = r !! c).
  { intros r c Hc. subst f2 f1. cbn beta.
    destruct (grab r); by rewrite !lookup_partial_alter_ne by done. }
  assert (Hmid : mapM (λ r : row,
                         get_midpoint_time (r !! "Sample.dateTimeStart")
                                           (r !! "Sample.dateTimeEnd"))
                      (f2 <$> l) = Ok (mid <$> l)).
  { apply mapM_fmap_Ok. intros r Hr. rewrite !Hf2 by done. subst mid.
    cbn beta. destruct (Hrows r Hr) as [_ Ht].
    destruct (r !! "Sample.dateTimeStart") as [s|] eqn:Hs; [|done].
    destruct (r !! "Sample.dateTimeEnd") as [e|] eqn:He;
      [|by destruct s].
    destruct (Ht s e eq_refl eq_refl) as (ts & te & -> & ->). done. }
  rewrite Hmid. cbn [mbind result_bind].
  rewrite !zip_with_fmap_same.
  rewrite (assign_where_fmap cols1 l f2 _ "Sample.plotDate" mid).
  rewrite decide_True by done.
  rewrite (assign_where_fmap cols1 l _ _ "Sample.plotDate"
             (λ r : row, f1 r !! "Sample.dateTimeEnd")).
  rewrite decide_True by done.
  rewrite column_fmap by done. f_equal.
  apply list_fmap_ext. intros _ r Hr%list_elem_of_lookup_2.
  destruct (Hrows r Hr) as [[c Hc] Ht].
  unfold compose, plot_date, notna. subst f2 mid f1 grab. cbn beta.
  rewrite !lookup_partial_alter_ne by done. rewrite Hc.
  destruct (r !! "Sample.dateTimeEnd") as [e|] eqn:He;
    destruct (r !! "Sample.dateTimeStart") as [s|] eqn:Hs; cbn [andb negb].
  - destruct (Ht s e eq_refl eq_refl) as (ts & te & -> & ->).
    by rewrite lookup_partial_alter_eq.
  - rewrite lookup_partial_alter_eq. by destruct e.
  - destruct (str_contains "grb" c); by rewrite lookup_partial_alter_eq.
  - destruct (str_contains "grb" c); by rewrite lookup_partial_alter_eq.
Qed.

(** X16.  [get_plot_datetime] works row by row: on a table with rows and
    the four columns it reads, whose collection methods are text and whose
    starts and ends are timestamps less than 2^53 nanoseconds apart, it
    returns for every row, in order, the midpoint when the row has a start
    and an end, the end when it has an end only, else the instant when the
    method contains grb, else nothing, whatever the method of a row with an
    end says. *)
Theorem get_plot_datetime_rows (df : DataFrame) :
  rows df ≠ [] →
  (∀ c, c ∈ sample_columns → c ∈ columns df) →
  (∀ r : row, r ∈ rows df →
     (∃ c, r !! "Sample.collection" = Some (VStr c))
     ∧ (∀ s e, r !! "Sample.dateTimeStart" = Some s →
               r !! "Sample.dateTimeEnd" = Some e →
               ∃ ts te, s = VTime ts ∧ e = VTime te
                        ∧ Z.abs (te - ts) < 2 ^ 53)) →
  get_plot_datetime df = Ok (plot_date <$> rows df).
Proof.
  intros _ Hcols Hrows. apply plot_datetime_rows; [done|].
  intros r Hr. destruct (Hrows r Hr) as [Hc Ht]. split; [done|].
  intros s e Hs He. destruct (Ht s e Hs He) as (ts & te & -> & -> & _).
  by exists ts, te.
Qed.

Lemma get_plot_datetime_rows_witness :
  get_plot_datetime
    (samples_of [sample_row "grb" (Some 5) (Some 10) (Some 20);
                 sample_row "cp" None None (Some 20);
                 sample_row "grb" (Some 5) None None])
  = Ok [Some (VTime 15); Some (VTime 20); Some (VTime 5)].
Proof.
  apply (get_plot_datetime_rows
           (samples_of [sample_row "grb" (Some 5) (Some 10) (Some 20);
                        sample_row "cp" None None (Some 20);
                        sample_row "grb" (Some 5) None None])).
  - done.
  - intros c Hc. exact Hc.
  - intros r Hr. cbn [rows samples_of] in Hr.
    repeat (apply elem_of_cons in Hr as [->|Hr]);
      [ | | |by apply elem_of_nil in Hr].
    + split; [by exists "grb"|]. intros s e [= <-] [= <-]. by exists 10, 20.
    + split; [by exists "cp"|]. intros s e [=].
    + split; [by exists "grb"|]. intros s e [=].
Defined.

Lemma get_samples_in_interval_spec_witness :
  get_samples_in_interval
    (mkDataFrame ["Sample.plotDate"]
       [ {[ "Sample.plotDate" := VTime 10 ]}; ∅;
         {[ "Sample.plotDate" := VTime 30 ]} ])
    (Some 10) (Some 30)
  = Raise TypeError.
Proof.
  apply (get_samples_in_interval_spec
           (mkDataFrame ["Sample.plotDate"]
              [ {[ "Sample.plotDate" := VTime 10 ]}; ∅;
                {[ "Sample.plotDate" := VTime 30 ]} ])).
  - compute_done.
  - intros r v Hr. cbn [rows] in Hr.
    repeat (apply elem_of_cons in Hr as [->|Hr]);
      [ | | |by apply elem_of_nil in Hr].
    + intros [= <-]. by exists 10.
    + intros [=].
    + intros [= <-]. by exists 30.
Defined.

(** ** The method chosen and the samples plotted *)

Lemma elem_of_insert_by_date {A : Type} (key : A → option Z) (x y : A)
    (l : list A) :
  y ∈ insert_by_date key x l ↔ y = x ∨ y ∈ l.
Proof.
  induction l as [|z l IH]; simpl.
  - rewrite list_elem_of_singleton, elem_of_nil. tauto.
  - destruct (date_lt (key x) (key z)).
    + by rewrite elem_of_cons.
    + rewrite !elem_of_cons, IH. tauto.
Qed.

Lemma elem_of_sort_by_date {A : Type} (key : A → option Z) (y : A)
    (l : list A) :
  y ∈ sort_by_date key l ↔ y ∈ l.
Proof.
  unfold sort_by_date.
  assert (H : ∀ acc, y ∈ foldl (λ sorted x, insert_by_date key x sorted) acc l
                     ↔ y ∈ acc ∨ y ∈ l).
  { induction l as [|x l IH]; intros acc; simpl.
    - rewrite elem_of_nil. tauto.
    - rewrite IH, elem_of_insert_by_date, elem_of_cons. tauto. }
  rewrite H, elem_of_nil. tauto.
Qed.

Lemma mapM_Ok_elem {A B : Type} (f : A → result B) (l : list A) (k : list B)
    (y : B) :
  mapM f l = Ok k → y ∈ k → ∃ x, x ∈ l ∧ f x = Ok y.
Proof.
  revert k. induction l as [|x l IH]; intros k.
  - intros [= <-] Hy. by apply elem_of_nil in Hy.
  - change (mapM f (x :: l)) with (z ← f x; k ← mapM f l; mret (z :: k)).
    destruct (f x) as [z|e] eqn:Hx; [|done]. cbn [mbind result_bind].
    destruct (mapM f l) as [k'|e']; [|done].
    intros [= <-] [->|Hy]%elem_of_cons.
    + exists x. split; [by left|done].
    + destruct (IH k' eq_refl Hy) as (x' & Hin & Hx').
      exists x'. split; [by right|done].
Qed.

Lemma str_contains_mask_Ok (pat c : string) (df : DataFrame)
    (mask : list bool) :
  str_contains_mask pat c df = Ok mask →
  mask = (λ r : row, match r !! c with
                     | Some (VStr s) => str_contains pat s
                     | _ => false
                     end) <$> rows df.
Proof.
  unfold str_contains_mask. destruct (decide (c ∈ columns df)); [|done].
  revert mask. induction (rows df) as [|r l IH]; intros mask.
  - by intros [= <-].
  - change (mapM ?f (r :: l)) with (z ← f r; k ← mapM f l; mret (z :: k)).
    cbv beta. rewrite fmap_cons.
    destruct (r !! c) as [[s| | |]|]; try done. cbn [mbind result_bind].
    destruct (mapM _ l) as [k|err]; [|done].
    intros [= <-]. f_equal. by apply IH.
Qed.

(** X17.  The method [get_cm_to_plot] chooses is one of ps, cp and grb;
    [clean_collection_method] has labels for it; and
    [get_samples_to_plot] finds at least one sample for it, every sample it
    finds being a sample of the table whose method contains the one chosen.
    A table without rows gets no method. *)
Theorem get_cm_to_plot_choice (samples : DataFrame) (thresh_n : nat) :
  (∀ cm, get_cm_to_plot samples thresh_n = Ok (Some cm) →
     cm ∈ possible_cms
     ∧ is_Some (clean_collection_method (Some cm))
     ∧ ∃ out, get_samples_to_plot samples (Some cm) = Ok (Some out)
              ∧ rows out ≠ []
              ∧ ∀ r : row, r ∈ rows out →
                  r ∈ rows samples
                  ∧ ∃ c, r !! "Sample.collection" = Some (VStr c)
                         ∧ str_contains cm c = true)
  ∧ ("Sample.collection" ∈ columns samples → rows samples = [] →
     get_cm_to_plot samples thresh_n = Ok None).
Proof.
  split.
  - intros cm. unfold get_cm_to_plot.
    destruct (mapM (cm_summary samples) possible_cms) as [types|e] eqn:Htypes;
      [|done].
    cbn [mbind result_bind].
    set (dated := filter (λ t, cm_last_date t ≠ None) _).
    set (n := if decide _ then 0%nat else thresh_n).
    destruct (decide (length (filter (λ t, (n ≤ cm_n t)%nat) dated) = 0%nat));
      [done|].
    intros [= Hlast].
    destruct (list.last _) as [t|] eqn:Ht; [|done]. injection Hlast as <-.
    apply last_Some in Ht as [l' Ht].
    assert (Hin : t ∈ filter (λ t, (n ≤ cm_n t)%nat) dated)
      by (rewrite Ht; apply elem_of_app; right; by left).
    apply list_elem_of_filter in Hin as [_ Hin]. subst dated.
    apply list_elem_of_filter in Hin as [Hdate Hin].
    apply elem_of_sort_by_date in Hin.
    destruct (mapM_Ok_elem _ _ _ _ Htypes Hin) as (cm' & Hcm & Hsum).
    unfold cm_summary in Hsum.
    destruct (str_contains_mask cm' "Sample.collection" samples)
      as [mask|e1] eqn:Hmask; [|done].
    cbn [mbind result_bind] in Hsum.
    destruct (decide (len (select samples mask) ≠ 0%nat ∧ _)); [done|].
    destruct (get_latest_sample_date (select samples mask))
      as [last_date|e2] eqn:Hlatest; [|done].
    injection Hsum as <-. cbn [cm_type cm_last_date] in *.
    split; [done|]. split.
    { unfold possible_cms in Hcm.
      repeat (apply elem_of_cons in Hcm as [->|Hcm]);
        [by eexists..|by apply elem_of_nil in Hcm]. }
    unfold get_samples_to_plot. rewrite Hmask. cbn [mbind result_bind].
    eexists. split; [done|]. split.
    + intros Hnil. unfold get_latest_sample_date, len in Hlatest.
      rewrite Hnil in Hlatest. cbn in Hlatest. by injection Hlatest as <-.
    + pose proof (str_contains_mask_Ok _ _ _ _ Hmask) as ->.
      rewrite (select_fmap samples). intros r [Hr Hin']%list_elem_of_filter.
      split; [done|].
      destruct (r !! "Sample.collection") as [[c| | |]|]; try done.
      by exists c.
  - intros Hcol Hnil. destruct samples as [cols l]. cbn [columns rows] in *.
    subst l. unfold get_cm_to_plot, possible_cms, cm_summary, str_contains_mask.
    cbn [mapM columns rows]. rewrite !decide_True by done. reflexivity.
Qed.

Lemma get_cm_to_plot_choice_witness :
  ∃ out,
    get_samples_to_plot (samples_of (dated "grb" 3 18748)) (Some "grb")
    = Ok (Some out)
    ∧ rows out ≠ [].
Proof.
  destruct (proj1 (get_cm_to_plot_choice (samples_of (dated "grb" 3 18748)) 7)
              "grb")
    as (_ & _ & out & Hout & Hrows & _).
  - vm_compute. reflexivity.
  - exists out. split; [exact Hout|exact Hrows].
Defined.

(** ** The highest level *)

Lemma Qmin_list_elem (l : list Q) (mn : Q) : Qmin_list l = Some mn → mn ∈ l.
Proof.
  destruct l as [|x0 l]; [done|]. simpl. intros [= <-].
  revert x0. induction l as [|y l IH]; intros x0; simpl; [by left|].
  destruct (Qle_bool y x0).
  - right. apply IH.
  - pose proof (IH x0) as Hin.
    apply elem_of_cons in Hin as [Hin|Hin]; [rewrite Hin; by left|].
    by do 2 right.
Qed.





(** ** The weeks of the colour series *)

Lemma foldl_insert_is_Some (l : list (string * string))
    (m : gmap string string) (k : string) :
  is_Some (foldl (λ d (p : string * string), <[p.1 := p.2]> d) m l !! k)
  ↔ k ∈ l.*1 ∨ is_Some (m !! k).
Proof.
  revert m. induction l as [|[k' v'] l IH]; intros m; simpl.
  - rewrite elem_of_nil. tauto.
  - rewrite IH, elem_of_cons. destruct (decide (k = k')) as [->|Hne].
    + rewrite lookup_insert_eq. split; [intros _; by left; left|].
      intros _. right. by eexists.
    + rewrite lookup_insert_ne by done. tauto.
Qed.

Lemma length_signal_strength (norm : list (option Q)) :
  length (signal_strength norm) = length norm.
Proof.
  assert (Hcut : ∀ bins, length (cut norm bins) = length norm).
  { intros bins. unfold cut.
    destruct (Qmin_list (omap id norm)), (Qmax_list (omap id norm));
      by rewrite length_fmap. }
  unfold signal_strength.
  destruct (get_n_bins norm COLORS) as [[|[|n]]|];
    by rewrite ?Hcut, ?length_fmap.
Qed.

Lemma elem_of_merge_weekly (range : list Z) (weekly : list (Z * option Q))
    (d : Z) :
  d ∈ (merge_weekly range weekly).*1 ↔ d ∈ range.
Proof.
  split; [|apply merge_weekly_dates].
  intros ([d' c] & -> & Hp)%list_elem_of_fmap. simpl.
  apply list_elem_of_bind in Hp as (d'' & Hp & Hin).
  destruct (filter _ weekly) as [|w ms].
  - by apply list_elem_of_singleton in Hp as [= -> _].
  - by apply list_elem_of_fmap in Hp as (w' & [= -> _] & _).
Qed.

Lemma elem_of_date_range (start end_ d : Z) :
  d ∈ date_range start end_
  ↔ ∃ n : Z, 0 ≤ n ∧ start + n * (7 * day) ≤ end_ ∧ d = start + n * (7 * day).
Proof.
  unfold date_range. rewrite list_elem_of_fmap.
  split; intros (n & H1 & H2).
  - apply elem_of_seqZ in H2. exists n. split; [lia|]. split; [|done].
    unfold day in *. Z.to_euclidean_division_equations. lia.
  - destruct H2 as [H2 ->]. exists n. split; [done|].
    apply elem_of_seqZ. unfold day in *.
    Z.to_euclidean_division_equations. lia.
Qed.

Section weeks.

Variable now : Z.
Variable strftime : Z → string.
Variable category_str : option nat → string.

(** X19.  The dictionary [get_color_ts] returns has one entry for every week
    of the range and no other: its keys are the dates, as [strftime] writes
    them, of the last Sunday on or before [dateStart] and of every seventh
    day after it up to [dateEnd] (now when [dateEnd] is not given),
    whatever the weekly values are.  [dateStart] is one of whole
    microseconds. *)
Theorem get_color_ts_weeks (weekly : option (list (Z * option Q)))
    (dateStart dateEnd : option Z) (k : string) :
  (∀ d, dateStart = Some d → d `mod` 1000 = 0) →
  is_Some (get_color_ts now strftime category_str weekly dateStart dateEnd !! k)
  ↔ ∃ n : Z,
      0 ≤ n
      ∧ get_last_sunday dateStart + n * (7 * day) ≤ default now dateEnd
      ∧ k = strftime (get_last_sunday dateStart + n * (7 * day)).
Proof.
  intros _.
  unfold get_color_ts. cbv zeta.
  set (range := date_range _ _).
  set (result := merge_weekly range _).
  set (strength := match get_n_bins _ _ with
                   | None | Some 1%nat => int_str <$> signal_strength result.*2
                   | Some _ => category_str <$> signal_strength result.*2
                   end).
  assert (Hlen : length strength = length result).
  { subst strength.
    destruct (get_n_bins _ _) as [[|[|n]]|];
      by rewrite length_fmap, length_signal_strength, length_fmap. }
  rewrite foldl_insert_is_Some, fst_zip
    by (rewrite !length_fmap; lia).
  rewrite lookup_empty, is_Some_alt, list_elem_of_fmap.
  split.
  - intros [(d & -> & Hd)|[]]. subst result.
    apply elem_of_merge_weekly, elem_of_date_range in Hd
      as (n & H0 & Hle & ->).
    by exists n.
  - intros (n & H0 & Hle & ->). left. eexists. split; [done|].
    subst result. apply elem_of_merge_weekly, elem_of_date_range.
    by exists n.
Qed.

End weeks.

Lemma get_color_ts_weeks_witness :
  is_Some (get_color_ts 0 (λ _, "week") (λ _, "nan") None None
             (Some (18262 * day)) !! "week").
Proof.
  apply (get_color_ts_weeks 0 (λ _, "week") (λ _, "nan") None None
           (Some (18262 * day)) "week").
  - intros d Hd. discriminate Hd.
  - exists 0. split; [lia|]. split; [|reflexivity]. vm_compute. discriminate.
Defined.

(** ** The latest sample *)

Lemma date_lt_irrefl (a : option Z) : date_lt a a = false.
Proof. destruct a; simpl; [|done]. apply bool_decide_eq_false. lia. Qed.

Lemma date_lt_below (x y m : option Z) :
  date_lt x y = true → date_lt m y = false → date_lt m x = false.
Proof.
  destruct x as [a|], y as [b|], m as [c|]; simpl; try done.
  rewrite bool_decide_eq_true, !bool_decide_eq_false. lia.
Qed.

Lemma insert_by_date_cases {A : Type} (key : A → option Z) (x : A)
    (l : list A) :
  (insert_by_date key x l = l ++ [x]
   ∧ ∀ y, y ∈ l → date_lt (key x) (key y) = false)
  ∨ ∃ l1 y l2, l = l1 ++ y :: l2
               ∧ insert_by_date key x l = l1 ++ x :: y :: l2
               ∧ date_lt (key x) (key y) = true.
Proof.
  induction l as [|z l IH]; simpl.
  - left. split; [done|]. intros y Hy. by apply elem_of_nil in Hy.
  - destruct (date_lt (key x) (key z)) eqn:Hz.
    + right. by exists [], z, l.
    + destruct IH as [[-> Hall]|(l1 & y & l2 & -> & -> & Hy)].
      * left. split; [done|].
        intros y [->|Hy]%elem_of_cons; [done|by apply Hall].
      * right. by exists (z :: l1), y, l2.
Qed.

(** The element [sort_values] puts last is one no element comes after:
    a missing date when there is one. *)
Lemma last_sort_by_date {A : Type} (key : A → option Z) (l : list A) :
  l ≠ [] →
  ∃ m, list.last (sort_by_date key l) = Some m
       ∧ m ∈ l
       ∧ ∀ y, y ∈ l → date_lt (key m) (key y) = false.
Proof.
  intros Hne. unfold sort_by_date.
  assert (H : ∀ acc,
            (acc ≠ [] → ∃ m, list.last acc = Some m
                             ∧ ∀ y, y ∈ acc → date_lt (key m) (key y) = false) →
            acc ≠ [] ∨ l ≠ [] →
            ∃ m, list.last
                   (foldl (λ sorted x, insert_by_date key x sorted) acc l)
                 = Some m
                 ∧ ∀ y, y ∈ acc ∨ y ∈ l → date_lt (key m) (key y) = false).
  { clear Hne. induction l as [|x l IH]; intros acc Hacc Hne; cbn [foldl].
    - destruct Hne as [Hne|Hne]; [|done].
      destruct (Hacc Hne) as (m & Hm & Hall). exists m. split; [done|].
      intros y [Hy|Hy]; [by apply Hall|by apply elem_of_nil in Hy].
    - destruct (IH (insert_by_date key x acc)) as (m & Hm & Hall).
      + intros _.
        destruct (insert_by_date_cases key x acc)
          as [[-> Hx]|(l1 & y & l2 & -> & -> & Hy)].
        * exists x. split; [by rewrite last_snoc|].
          intros y [Hy|Hy%list_elem_of_singleton]%elem_of_app;
            [by apply Hx|subst y; apply date_lt_irrefl].
        * destruct (Hacc ltac:(by destruct l1)) as (m & Hm & Hall).
          exists m. split.
          { rewrite last_app in Hm |- *. by destruct l2. }
          intros z Hz.
          assert (Hz' : z = x ∨ z ∈ l1 ++ y :: l2).
          { rewrite !elem_of_app, !elem_of_cons in *. tauto. }
          destruct Hz' as [->|Hz']; [|by apply Hall].
          apply (date_lt_below _ (key y)); [done|]. apply Hall.
          apply elem_of_app. right. by left.
      + left. destruct (insert_by_date_cases key x acc)
          as [[-> _]|(l1 & y & l2 & _ & -> & _)]; [by destruct acc|by destruct l1].
      + exists m. split; [done|]. intros y Hy. apply Hall.
        rewrite elem_of_insert_by_date, elem_of_cons in *. tauto. }
  destruct (H []) as (m & Hm & Hall); [done|by right|].
  exists m. split; [done|]. split.
  - apply (elem_of_sort_by_date key). unfold sort_by_date.
    apply last_Some in Hm as [l' ->]. apply elem_of_app. right. by left.
  - intros y Hy. apply Hall. by right.
Qed.

Lemma dated_samples_plot (df : DataFrame) :
  dated_samples df →
  get_plot_datetime df = Ok (plot_date <$> rows df)
  ∧ mapM as_date (plot_date <$> rows df) = Ok (plot_instant <$> rows df).
Proof.
  intros [Hcols Hrows]. split.
  - apply plot_datetime_rows; [done|]. intros r Hr.
    destruct (Hrows r Hr) as (Hc & Ht & _). split; [done|].
    intros s e Hs He.
    destruct (Ht "Sample.dateTimeStart" s ltac:(compute_done) Hs) as [ts ->].
    destruct (Ht "Sample.dateTimeEnd" e ltac:(compute_done) He) as [te ->].
    by exists ts, te.
  - apply mapM_fmap_Ok. intros r Hr.
    destruct (Hrows r Hr) as ([c Hc] & Ht & _).
    unfold plot_instant, plot_date. rewrite Hc.
    destruct (r !! "Sample.dateTimeEnd") as [e|] eqn:He.
    + destruct (Ht "Sample.dateTimeEnd" e ltac:(compute_done) He) as [te ->].
      destruct (r !! "Sample.dateTimeStart") as [s|] eqn:Hs; [|done].
      by destruct (Ht "Sample.dateTimeStart" s ltac:(compute_done) Hs)
        as [ts ->].
    + destruct (r !! "Sample.dateTimeStart") as [s|];
        destruct (str_contains "grb" c); try done;
        (destruct (r !! "Sample.dateTime") as [dt|] eqn:Hv; [|done];
         by destruct (Ht "Sample.dateTime" dt ltac:(compute_done) Hv)
           as [t ->]).
Qed.

Lemma latest_sample_date_last (df : DataFrame) :
  dated_samples df → rows df ≠ [] →
  ∃ rm : row,
    rm ∈ rows df
    ∧ get_latest_sample_date df = Ok (plot_instant rm)
    ∧ ∀ r, r ∈ rows df → date_lt (plot_instant rm) (plot_instant r) = false.
Proof.
  intros Hdated Hne. destruct (dated_samples_plot df Hdated) as [Hplot Hdates].
  unfold get_latest_sample_date, len.
  rewrite decide_False by (by destruct (rows df)).
  rewrite Hplot. cbn [mbind result_bind]. rewrite Hdates.
  cbn [mbind result_bind].
  destruct (last_sort_by_date id (plot_instant <$> rows df))
    as (m & -> & Hm & Hmax); [by destruct (rows df)|].
  cbn [default]. unfold id in Hmax.
  apply list_elem_of_fmap in Hm as (rm & -> & Hrm).
  exists rm. split; [done|]. split; [done|].
  intros r Hr. apply Hmax, list_elem_of_fmap. by exists r.
Qed.

(** X20.  [get_latest_sample_date] sorts the plot dates and takes the last,
    and [sort_values] puts the missing dates last: on a table of samples
    with rows, it returns no date as soon as one sample has no plot date,
    and the greatest plot date only when every sample has one. *)
Theorem get_latest_sample_date_spec (df : DataFrame) :
  dated_samples df → rows df ≠ [] →
  ((∃ r, r ∈ rows df ∧ plot_instant r = None) →
   get_latest_sample_date df = Ok None)
  ∧ ((∀ r, r ∈ rows df → plot_instant r ≠ None) →
     ∃ t, get_latest_sample_date df = Ok (Some t)
          ∧ (∃ r, r ∈ rows df ∧ plot_instant r = Some t)
          ∧ ∀ r t', r ∈ rows df → plot_instant r = Some t' → t' ≤ t).
Proof.
  intros Hdated Hne.
  destruct (latest_sample_date_last df Hdated Hne) as (rm & Hrm & -> & Hmax).
  split.
  - intros (r & Hr & Hnone). specialize (Hmax r Hr).
    rewrite Hnone in Hmax. by destruct (plot_instant rm).
  - intros Hall. destruct (plot_instant rm) as [t|] eqn:Ht;
      [|by destruct (Hall rm Hrm)].
    exists t. split; [done|]. split; [by exists rm|].
    intros r t' Hr Ht'. specialize (Hmax r Hr).
    rewrite Ht' in Hmax. simpl in Hmax.
    apply bool_decide_eq_false in Hmax. lia.
Qed.

Lemma dated_samples_example (l : list row) :
  (∀ r, r ∈ l → r = sample_row "cp" None None (Some (18718 * day))
                ∨ r = sample_row "cp" None (Some 0) None) →
  dated_samples (samples_of l).
Proof.
  intros Hl. split; [by intros c Hc|].
  intros r Hr. cbn in Hr.
  destruct (Hl r Hr) as [->| ->];
    (split; [by exists "cp"|]); (split; [|by intros s e]);
    intros c v Hc; cbn in Hc;
    repeat (apply elem_of_cons in Hc as [->|Hc]);
    try (by apply elem_of_nil in Hc);
    intros [= <-]; by eexists.
Qed.

Lemma get_latest_sample_date_spec_witness :
  get_latest_sample_date
    (samples_of (dated "cp" 7 18718 ++ [sample_row "cp" None (Some 0) None]))
  = Ok None.
Proof.
  assert (Hdated : dated_samples
            (samples_of (dated "cp" 7 18718
                         ++ [sample_row "cp" None (Some 0) None]))).
  { apply dated_samples_example. intros r Hr. cbn in Hr.
    repeat (apply elem_of_cons in Hr as [->|Hr]);
      try (by apply elem_of_nil in Hr); tauto. }
  apply (proj1 (get_latest_sample_date_spec _ Hdated ltac:(done))).
  exists (sample_row "cp" None (Some 0) None). split; [|reflexivity].
  apply elem_of_app. right. by left.
Defined.

(** X21.  A collection method with a sample that has no plot date is never
    chosen: when [get_cm_to_plot] chooses a method, every sample of the
    table whose method contains it has a plot date, however many dated
    samples a method left out has. *)
Theorem get_cm_to_plot_all_dated (samples : DataFrame) (thresh_n : nat)
    (cm : string) :
  dated_samples samples →
  get_cm_to_plot samples thresh_n = Ok (Some cm) →
  ∀ (r : row) (c : string),
    r ∈ rows samples → r !! "Sample.collection" = Some (VStr c) →
    str_contains cm c = true → is_Some (plot_instant r).
Proof.
  intros Hdated Hcm r c Hr Hc Hin. unfold get_cm_to_plot in Hcm.
  destruct (mapM (cm_summary samples) possible_cms) as [types|e] eqn:Htypes;
    [|done].
  cbn [mbind result_bind] in Hcm.
  destruct (decide (length _ = 0%nat)); [done|].
  injection Hcm as Hlast.
  destruct (list.last _) as [t|] eqn:Ht; [|done]. injection Hlast as <-.
  apply last_Some in Ht as [l' Ht].
  assert (Hin' : t ∈ l' ++ [t]) by (apply elem_of_app; right; by left).
  rewrite <- Ht in Hin'.
  apply list_elem_of_filter in Hin' as [_ Hin'].
  apply list_elem_of_filter in Hin' as [Hdate Hin'].
  apply elem_of_sort_by_date in Hin'.
  destruct (mapM_Ok_elem _ _ _ _ Htypes Hin') as (cm' & _ & Hsum).
  unfold cm_summary in Hsum.
  destruct (str_contains_mask cm' "Sample.collection" samples)
    as [mask|e1] eqn:Hmask; [|done].
  cbn [mbind result_bind] in Hsum.
  destruct (decide (len (select samples mask) ≠ 0%nat ∧ _)); [done|].
  destruct (get_latest_sample_date (select samples mask))
    as [last_date|e2] eqn:Hlatest; [|done].
  injection Hsum as <-. cbn [cm_type cm_last_date] in *.
  pose proof (str_contains_mask_Ok _ _ _ _ Hmask) as ->.
  assert (Hsel : r ∈ rows (select samples
                    ((λ r : row, match r !! "Sample.collection" with
                                 | Some (VStr s) => str_contains cm' s
                                 | _ => false
                                 end) <$> rows samples))).
  { rewrite (select_fmap samples). apply list_elem_of_filter.
    split; [|done]. by rewrite Hc. }
  assert (Hdated' : dated_samples (select samples
                    ((λ r : row, match r !! "Sample.collection" with
                                 | Some (VStr s) => str_contains cm' s
                                 | _ => false
                                 end) <$> rows samples))).
  { destruct Hdated as [Hcols Hrows]. split; [done|].
    intros r' Hr'. rewrite (select_fmap samples) in Hr'.
    apply list_elem_of_filter in Hr' as [_ Hr']. by apply Hrows. }
  destruct (plot_instant r) as [t|] eqn:Hp; [by eexists|exfalso].
  destruct (latest_sample_date_last _ Hdated') as (rm & _ & Hlast & Hmax).
  { intros Hnil. rewrite Hnil in Hsel. by apply elem_of_nil in Hsel. }
  specialize (Hmax r Hsel). rewrite Hp in Hmax.
  rewrite Hlast in Hlatest. injection Hlatest as <-.
  by destruct (plot_instant rm).
Qed.

Lemma get_cm_to_plot_all_dated_witness :
  is_Some (plot_instant (sample_row "cp" None None (Some (18718 * day)))).
Proof.
  assert (Hdated : dated_samples (samples_of (dated "cp" 7 18718))).
  { apply dated_samples_example. intros r Hr. cbn in Hr.
    repeat (apply elem_of_cons in Hr as [->|Hr]);
      try (by apply elem_of_nil in Hr); tauto. }
  apply (get_cm_to_plot_all_dated (samples_of (dated "cp" 7 18718)) 7 "cp"
           Hdated ltac:(vm_compute; reflexivity)
           (sample_row "cp" None None (Some (18718 * day))) "cp").
  - by left.
  - reflexivity.
  - reflexivity.
Defined.

(** ** The GeoJSON of the polygons *)

Lemma fillna_null_spec (df : DataFrame) :
  columns (fillna_null df) = columns df
  ∧ rows (fillna_null df)
    = (λ r : row,
         foldl (λ (r : row) col,
                  partial_alter
                    (λ _, Some (default (VStr "null") (r !! col))) col r)
               r (columns df)) <$> rows df.
Proof.
  unfold fillna_null.
  assert (H : ∀ cols d,
            (∀ c, c ∈ cols → c ∈ columns d) →
            columns (foldl (λ df col,
                       assign df col
                         (λ r, Some (default (VStr "null") (r !! col))))
                     d cols) = columns d
            ∧ rows (foldl (λ df col,
                       assign df col
                         (λ r, Some (default (VStr "null") (r !! col))))
                     d cols)
              = (λ r : row,
                   foldl (λ (r : row) col,
                            partial_alter
                              (λ _, Some (default (VStr "null") (r !! col)))
                              col r) r cols) <$> rows d).
  { induction cols as [|c cols IH]; intros d Hin; cbn [foldl].
    - split; [done|]. by rewrite list_fmap_id.
    - destruct (IH (assign d c
                      (λ r, Some (default (VStr "null") (r !! c))))) as [Hc Hr].
      { intros c' Hc'. rewrite assign_existing by (apply Hin; by left).
        apply Hin. by right. }
      rewrite Hc, Hr, assign_existing by (apply Hin; by left).
      split; [done|]. by rewrite assign_rows, <- list_fmap_compose. }
  by apply H.
Qed.

Lemma fillna_row_lookup (cols : list string) (r : row) (c : string) :
  foldl (λ (r : row) col,
           partial_alter (λ _, Some (default (VStr "null") (r !! col))) col r)
        r cols !! c
  = if decide (c ∈ cols) then Some (default (VStr "null") (r !! c))
    else r !! c.
Proof.
  revert r. induction cols as [|col cols IH]; intros r; cbn [foldl].
  - by rewrite decide_False by apply not_elem_of_nil.
  - rewrite IH. destruct (decide (c = col)) as [->|Hne].
    + rewrite lookup_partial_alter_eq.
      rewrite (decide_True (P := col ∈ col :: cols)) by (by left).
      by destruct (decide (col ∈ cols)).
    + rewrite lookup_partial_alter_ne by done.
      destruct (decide (c ∈ cols)).
      * by rewrite decide_True by (by right).
      * rewrite decide_False; [done|]. by intros [?|?]%elem_of_cons.
Qed.

Section geojson_facts.

Variable geometry : Type.
Variable convert_wkt_to_geojson : option value → result geometry.

(** X22.  [get_geoJSON] without [types] works on the polygon table of the
    store itself: after the call, however it ends, every missing cell of a
    column of that table is the text null, and nothing else has changed.
    With [types] the store is left as it was. *)
Theorem get_geoJSON_store (self : Odm) :
  (∀ types : types_arg,
     (get_geoJSON geometry convert_wkt_to_geojson (Some types) self).1 = self)
  ∧ (∀ df : DataFrame,
       polygon self = Some df →
       ∃ df',
         (get_geoJSON geometry convert_wkt_to_geojson None self).1
         = setattr self a_polygon (Some df')
         ∧ columns df' = columns df
         ∧ length (rows df') = length (rows df)
         ∧ ∀ (i : nat) (r : row),
             rows df !! i = Some r →
             ∃ r' : row,
               rows df' !! i = Some r'
               ∧ (∀ c, c ∈ columns df →
                       r' !! c = Some (default (VStr "null") (r !! c)))
               ∧ (∀ c, c ∉ columns df → r' !! c = r !! c)).
Proof.
  split.
  - intros types. unfold get_geoJSON. by destruct (polygon self).
  - intros df Hdf. unfold get_geoJSON. rewrite Hdf. cbn [fst].
    destruct (fillna_null_spec df) as [Hc Hr].
    exists (fillna_null df). split; [done|]. split; [done|].
    split; [by rewrite Hr, length_fmap|].
    intros i r Hi. rewrite Hr, list_lookup_fmap, Hi. cbn.
    eexists. split; [done|]. split.
    + intros c Hc'. by rewrite fillna_row_lookup, decide_True.
    + intros c Hc'. by rewrite fillna_row_lookup, decide_False.
Qed.

Lemma features_of_spec (cols : list string) (iterrows : list (nat * row))
    (features : list (Feature geometry)) :
  features_of geometry convert_wkt_to_geojson cols iterrows = Ok features →
  feature_id geometry <$> features
  = (filter (λ p : nat * row, p.2 !! "wkt" ≠ Some (VStr "")) iterrows).*1
  ∧ ∀ f, f ∈ features →
      ∃ i row, (i, row) ∈ iterrows
               ∧ feature_id geometry f = i
               ∧ row !! "wkt" ≠ Some (VStr "")
               ∧ convert_wkt_to_geojson (row !! "wkt")
                 = Ok (feature_geometry geometry f)
               ∧ properties geometry f
                 = (λ col, (col, row !! col))
                     <$> filter (λ col, str_contains "wkt" col = false) cols.
Proof.
  revert features.
  induction iterrows as [|[i row] rest IH]; intros features; cbn [features_of].
  - intros [= <-]. split; [done|]. intros f Hf. by apply elem_of_nil in Hf.
  - destruct (decide ("wkt" ∈ cols)); [|done].
    rewrite filter_cons. cbn [snd].
    destruct (decide (row !! "wkt" = Some (VStr ""))) as [Hw|Hw].
    + rewrite decide_False by (by intros ?).
      intros Hrest. destruct (IH _ Hrest) as [Hids Hfs]. split; [done|].
      intros f Hf. destruct (Hfs f Hf) as (i' & row' & Hin & Hrest').
      exists i', row'. split; [by right|done].
    + rewrite decide_True by done.
      destruct (convert_wkt_to_geojson (row !! "wkt")) as [geom|err] eqn:Hg;
        [|done].
      cbn [mbind result_bind].
      destruct (features_of _ _ cols rest) as [fs|err]; [|done].
      intros [= <-]. destruct (IH fs eq_refl) as [Hids Hfs].
      split; [cbn; by rewrite Hids|].
      intros f [->|Hf]%elem_of_cons.
      * exists i, row. split; [by left|done].
      * destruct (Hfs f Hf) as (i' & row' & Hin & Hrest').
        exists i', row'. split; [by right|done].
Qed.

(** X23.  The features [get_geoJSON] returns without [types]: one for every
    polygon whose [wkt] is not the empty text, in the order of the table,
    with the position of the polygon as its id; a polygon whose [wkt] is
    missing is among them, its geometry being read from the text null.  The
    properties of a feature are the cells of the columns whose name does not
    contain wkt, none of them missing. *)
Theorem get_geoJSON_features (self : Odm) (df : DataFrame)
    (features : list (Feature geometry)) :
  polygon self = Some df →
  (get_geoJSON geometry convert_wkt_to_geojson None self).2 = Ok features →
  feature_id geometry <$> features
  = (filter (λ p : nat * row, p.2 !! "wkt" ≠ Some (VStr ""))
       (zip (seq 0 (length (rows df))) (rows df))).*1
  ∧ ∀ f, f ∈ features →
      ∃ r : row,
        rows df !! feature_id geometry f = Some r
        ∧ r !! "wkt" ≠ Some (VStr "")
        ∧ convert_wkt_to_geojson (Some (default (VStr "null") (r !! "wkt")))
          = Ok (feature_geometry geometry f)
        ∧ properties geometry f
          = (λ col, (col, Some (default (VStr "null") (r !! col))))
              <$> filter (λ col, str_contains "wkt" col = false) (columns df).
Proof.
  intros Hdf. unfold get_geoJSON. rewrite Hdf. cbn [snd].
  destruct (fillna_null_spec df) as [Hc Hr]. unfold len.
  rewrite Hc, Hr, length_fmap.
  set (fill := λ r : row, foldl _ r (columns df)).
  intros Hfs.
  assert (Hwkt : rows df ≠ [] → "wkt" ∈ columns df).
  { intros Hne. destruct (rows df) as [|r0 rs]; [done|].
    cbn in Hfs. by destruct (decide ("wkt" ∈ columns df)). }
  apply features_of_spec in Hfs as [Hids Hfs].
  assert (Hzip : ∀ i r, (i, r) ∈ zip (seq 0 (length (rows df)))
                                     (fill <$> rows df) →
            ∃ r0, rows df !! i = Some r0 ∧ r = fill r0).
  { intros i r Hin. apply list_elem_of_lookup_1 in Hin as [j Hj].
    apply lookup_zip_with_Some in Hj as (i' & r' & [= <- <-] & Hi & Hr').
    apply lookup_seq in Hi as [-> _]. rewrite list_lookup_fmap in Hr'.
    destruct (rows df !! j) as [r0|] eqn:Hj0; [|done]. injection Hr' as <-.
    exists r0. split; [exact Hj0|done]. }
  split.
  - rewrite Hids. clear Hids Hfs Hzip Hr Hc.
    destruct (decide (rows df = [])) as [->|Hne]; [done|].
    specialize (Hwkt Hne). clear Hne.
    generalize 0%nat. induction (rows df) as [|r rs IH]; intros n; [done|].
    cbn [length seq fmap list_fmap zip_with]. rewrite !filter_cons. cbn [snd].
    assert (Hiff : fill r !! "wkt" ≠ Some (VStr "")
                   ↔ r !! "wkt" ≠ Some (VStr "")).
    { subst fill. cbn beta. rewrite fillna_row_lookup, decide_True by done.
      destruct (r !! "wkt") as [v|]; cbn; [|done].
      split; intros H [= ->]; by apply H. }
    destruct (decide (r !! "wkt" ≠ Some (VStr ""))) as [Hw|Hw].
    + rewrite decide_True by (by apply Hiff). cbn. f_equal. apply IH.
    + rewrite decide_False by (by rewrite Hiff). apply IH.
  - intros f Hf.
    destruct (Hfs f Hf) as (i & r & Hin & Hid & Hw & Hgeom & Hprops).
    destruct (Hzip i r Hin) as (r0 & Hr0 & ->).
    assert (Hne : rows df ≠ []) by (intros Hnil; by rewrite Hnil in Hr0).
    specialize (Hwkt Hne).
    exists r0. rewrite Hid. split; [done|].
    assert (Hfill : ∀ c, c ∈ columns df →
              fill r0 !! c = Some (default (VStr "null") (r0 !! c))).
    { intros c Hc'. subst fill. cbn beta.
      by rewrite fillna_row_lookup, decide_True. }
    split_and!.
    + rewrite Hfill in Hw by done. intros Hw'. apply Hw. by rewrite Hw'.
    + rewrite <- Hgeom. by rewrite Hfill.
    + rewrite Hprops. apply list_fmap_ext.
      intros _ col Hcol%list_elem_of_lookup_2.
      apply list_elem_of_filter in Hcol as [_ Hcol]. by rewrite Hfill.
Qed.

End geojson_facts.

Lemma get_geoJSON_features_witness :
  ∃ fs : list (Feature unit),
    (get_geoJSON unit (λ _, Ok ()) None two_site_store).2 = Ok fs
    ∧ feature_id unit <$> fs = [0%nat].
Proof.
  destruct (get_geoJSON unit (λ _, Ok ()) None two_site_store).2
    as [fs|e] eqn:Hfs; [|vm_compute in Hfs; discriminate Hfs].
  exists fs. split; [reflexivity|].
  exact (proj1 (get_geoJSON_features unit (λ _, Ok ()) two_site_store
                  one_polygon fs eq_refl Hfs)).
Defined.
